(** * Differential tester of the VDBMS fuzzing framework

    A shallow embedding of [src/fuzz/differential_tester.py] (class
    [DifferentialTester]), [src/fuzz/models.py] (class [TestResult]), the
    driving loop of [src/fuzz/main.py] ([VDBMSFuzzer.run_fuzz_test]) and the
    input generator of [src/fuzz/fuzz_generator.py] (class [FuzzGenerator]).

    - Adapter payloads ([DatabaseResult.data], typed [Any] in the source and
      produced by [response.json()] in the adapters) are JSON-like trees:
      [value].  Strings are byte strings (UTF-8), whose characters [len]
      counts and [for] visits; [str.lower] is modelled on strings of ASCII
      characters, where it changes the letters A-Z only.
    - [str] on identifiers is a parameter, [py_str], taken to return: [str]
      fails only beyond the limits of the interpreter (an integer of more
      than 4300 digits, a nesting deeper than the recursion limit), which
      is also where the recursion of the extractor fails.  [within_limits]
      marks the payloads safely inside these limits.
    - Python exceptions are values of [exn]; fallible code returns
      [result].  Only instances of [Exception] are modelled: this is what
      every [except Exception] handler of the source catches.
    - [DatabaseResult] objects and the dictionaries that map adapter names to
      them are shared, mutable Python objects: they live in a heap of
      objects addressed by locations, and the code that handles them runs in
      the state-and-error monad [M].
    - Inconsistency messages are f-strings in the source; here they are the
      constructor of the template applied to the interpolated values.
      Building the text converts the values to text; where that can fail
      (the counts an adapter reports for an insert) the failure is
      modelled. *)

From Stdlib Require Import ZArith QArith Ascii String.
From stdpp Require Import base list strings gmap pretty.

Set Warnings "-register-all".

Local Open Scope string_scope.
Local Open Scope list_scope.

(** ** Python values *)

(** A Python [float]: not-a-number, an infinity, or the finite number
    [(-1)^negative * mantissa * 2^exponent]. *)
Inductive pyfloat : Type :=
| FNan
| FInf (negative : bool)
| FFinite (negative : bool) (mantissa : N) (exponent : Z).

Inductive value : Type :=
| VNone
| VBool (b : bool)
| VInt (z : Z)
| VFloat (f : pyfloat)
| VStr (s : string)
| VList (items : list value)
| VDict (entries : list (string * value)).

Inductive exn_type : Type :=
| TypeError | AttributeError | KeyError | IndexError | ValueError | Exception.

Record exn : Type := mkExn { exn_class : exn_type; exn_str : string }.

Inductive result (A : Type) : Type :=
| Ok (a : A)
| Raise (e : exn).
Arguments Ok {A} a.
Arguments Raise {A} e.

Definition rbind {A B} (r : result A) (k : A -> result B) : result B :=
  match r with
  | Ok a => k a
  | Raise e => Raise e
  end.

Definition rmap {A B} (f : A -> B) (r : result A) : result B :=
  rbind r (fun a => Ok (f a)).

(** [try: r  except Exception: h] *)
Definition rcatch {A} (r : result A) (h : exn -> result A) : result A :=
  match r with
  | Ok a => Ok a
  | Raise e => h e
  end.

Declare Scope result_scope.
Delimit Scope result_scope with result.
Notation "x <- r ;; k" := (rbind r (fun x => k))
  (at level 100, r at next level, right associativity) : result_scope.

(** Python dictionaries keep insertion order and have unique keys: an
    association list, with [d[k] = v] as update in place or append. *)
Section Dict.
Context {A : Type}.

Fixpoint dict_get (k : string) (d : list (string * A)) : option A :=
  match d with
  | [] => None
  | (k', v) :: d' => if String.eqb k k' then Some v else dict_get k d'
  end.

Definition dict_contains (k : string) (d : list (string * A)) : bool :=
  match dict_get k d with Some _ => true | None => false end.

Fixpoint dict_set (k : string) (v : A) (d : list (string * A))
  : list (string * A) :=
  match d with
  | [] => [(k, v)]
  | (k', v') :: d' =>
      if String.eqb k k' then (k, v) :: d' else (k', v') :: dict_set k v d'
  end.

Definition dict_keys (d : list (string * A)) : list string := map fst d.
Definition dict_values (d : list (string * A)) : list A := map snd d.
End Dict.

(** [f(d[k])] for the first entry under key [k]; the function is applied to
    an entry of [d], which lets a recursive [f] descend into it. *)
Section DictFind.
Context {A B : Type} (f : A -> B) (k : string).

Fixpoint dict_find (d : list (string * A)) : option B :=
  match d with
  | [] => None
  | (k', v) :: d' => if String.eqb k k' then Some (f v) else dict_find d'
  end.
End DictFind.


(** The name of a value's class, as CPython prints it in error messages. *)
Definition type_name (v : value) : string :=
  match v with
  | VNone => "NoneType"
  | VBool _ => "bool"
  | VInt _ => "int"
  | VFloat _ => "float"
  | VStr _ => "str"
  | VList _ => "list"
  | VDict _ => "dict"
  end.

Definition isinstance_dict (v : value) : bool :=
  match v with VDict _ => true | _ => false end.

Definition isinstance_list (v : value) : bool :=
  match v with VList _ => true | _ => false end.

(** [hasattr(v, 'get')]: among payload values only dictionaries have a
    [get] method. *)
Definition hasattr_get (v : value) : bool := isinstance_dict v.

Definition type_error (msg : string) : exn := mkExn TypeError msg.
Definition attribute_error (v : value) (attr : string) : exn :=
  mkExn AttributeError
        ("'" ++ type_name v ++ "' object has no attribute '" ++ attr ++ "'").
Definition key_error (k : string) : exn := mkExn KeyError ("'" ++ k ++ "'").

(** A byte that continues a character (UTF-8). *)
Definition continuation (c : Ascii.ascii) : bool :=
  let n := Ascii.nat_of_ascii c in (128 <=? n)%nat && (n <? 192)%nat.

(** The bytes a string starts with that continue a character, and the
    characters after them. *)
Fixpoint utf8_split (s : string) : string * list string :=
  match s with
  | EmptyString => (EmptyString, [])
  | String c s' =>
      let (tail, chars) := utf8_split s' in
      if continuation c then (String c tail, chars)
      else (EmptyString, String c tail :: chars)
  end.

(** The characters of a string. *)
Definition utf8_chars (s : string) : list string :=
  let (tail, chars) := utf8_split s in
  match tail with
  | EmptyString => chars
  | _ => tail :: chars
  end.

(** [len(v)] *)
Definition py_len (v : value) : result nat :=
  match v with
  | VStr s => Ok (length (utf8_chars s))
  | VList l => Ok (length l)
  | VDict d => Ok (length d)
  | _ => Raise (type_error ("object of type '" ++ type_name v ++ "' has no len()"))
  end.

Fixpoint is_substring (p s : string) : bool :=
  String.prefix p s ||
  match s with
  | EmptyString => false
  | String _ s' => is_substring p s'
  end.

Definition value_is_str (k : string) (v : value) : bool :=
  match v with VStr s => String.eqb s k | _ => false end.

(** [k in v] for a string [k]: key membership in a dictionary, element
    membership in a list, substring test in a string, [TypeError] on the
    other classes. *)
Definition py_contains (k : string) (v : value) : result bool :=
  match v with
  | VDict d => Ok (dict_contains k d)
  | VList l => Ok (existsb (value_is_str k) l)
  | VStr s => Ok (is_substring k s)
  | _ => Raise (type_error ("argument of type '" ++ type_name v ++ "' is not iterable"))
  end.

(** [v[k]] for a string [k] *)
Definition py_getitem (v : value) (k : string) : result value :=
  match v with
  | VDict d =>
      match dict_get k d with
      | Some x => Ok x
      | None => Raise (key_error k)
      end
  | VList _ => Raise (type_error "list indices must be integers or slices, not str")
  | VStr _ => Raise (type_error "string indices must be integers, not 'str'")
  | _ => Raise (type_error ("'" ++ type_name v ++ "' object is not subscriptable"))
  end.

(** [v.values()] *)
Definition py_values (v : value) : result (list value) :=
  match v with
  | VDict d => Ok (dict_values d)
  | _ => Raise (attribute_error v "values")
  end.

(** [for x in v]: the elements of a list, the keys of a dictionary, the
    characters of a string. *)
Definition py_iter (v : value) : result (list value) :=
  match v with
  | VList l => Ok l
  | VDict d => Ok (map VStr (dict_keys d))
  | VStr s => Ok (map VStr (utf8_chars s))
  | _ => Raise (type_error ("'" ++ type_name v ++ "' object is not iterable"))
  end.

Definition ascii_lower (c : Ascii.ascii) : Ascii.ascii :=
  let n := Ascii.nat_of_ascii c in
  if (65 <=? n)%nat && (n <=? 90)%nat then Ascii.ascii_of_nat (n + 32) else c.

(** [s.lower()] for a string of ASCII characters. *)
Fixpoint str_lower (s : string) : string :=
  match s with
  | EmptyString => EmptyString
  | String c s' => String (ascii_lower c) (str_lower s')
  end.

(** [v.lower()] *)
Definition py_lower (v : value) : result string :=
  match v with
  | VStr s => Ok (str_lower s)
  | _ => Raise (attribute_error v "lower")
  end.

(** Values that can be members of a [set]: lists and dictionaries are
    unhashable. *)
Definition hashable (v : value) : bool :=
  match v with
  | VList _ | VDict _ => false
  | _ => true
  end.

(** The number a [bool], [int] or [float] stands for in a comparison. *)
Definition numeric (v : value) : option pyfloat :=
  match v with
  | VBool b => Some (FFinite false (if b then 1 else 0) 0)
  | VInt z => Some (FFinite (z <? 0)%Z (Z.abs_N z) 0)
  | VFloat f => Some f
  | _ => None
  end.

Definition signed_mantissa (negative : bool) (m : N) : Z :=
  if negative then (- Z.of_N m)%Z else Z.of_N m.

(** Exact comparison of numbers, as Python compares [int] with [float];
    not-a-number equals nothing, minus zero equals zero. *)
Definition float_eqb (f g : pyfloat) : bool :=
  match f, g with
  | FInf s, FInf t => Bool.eqb s t
  | FFinite s m e, FFinite t n d =>
      let low := Z.min e d in
      Z.eqb (signed_mantissa s m * 2 ^ (e - low)) (signed_mantissa t n * 2 ^ (d - low))
  | _, _ => false
  end.

(** [==] on hashable values; [bool] is a subclass of [int]. *)
Definition scalar_eqb (a b : value) : bool :=
  match a, b with
  | VNone, VNone => true
  | VStr x, VStr y => String.eqb x y
  | _, _ =>
      match numeric a, numeric b with
      | Some f, Some g => float_eqb f g
      | _, _ => false
      end
  end.

(** [len(set(vs))]; two not-a-number values coming from two adapters are
    two objects, hence two members. *)
Fixpoint set_add_value (v : value) (s : list value) : list value :=
  match s with
  | [] => [v]
  | w :: s' => if scalar_eqb v w then s else w :: set_add_value v s'
  end.

Definition distinct_values (vs : list value) : nat :=
  length (fold_left (fun s v => set_add_value v s) vs []).

Definition py_set_len (vs : list value) : result nat :=
  match List.find (fun v => negb (hashable v)) vs with
  | Some v => Raise (type_error ("unhashable type: '" ++ type_name v ++ "'"))
  | None => Ok (distinct_values vs)
  end.

(** The conversion of an integer to text: CPython refuses it, with a
    [ValueError], for an integer of more than [sys.get_int_max_str_digits()]
    decimal digits; the default is 4300. *)
Definition int_max_str_digits : Z := 4300.

(** [10 ^ 4300], the least number that has more digits than that. *)
Definition int_str_limit : Z := Eval vm_compute in (10 ^ int_max_str_digits)%Z.

(** [repr(v)] returns: no integer in [v] has too many digits. *)
Fixpoint printable (v : value) : bool :=
  match v with
  | VInt z => (Z.abs z <? int_str_limit)%Z
  | VList items => forallb printable items
  | VDict entries => forallb (fun e => printable (snd e)) entries
  | _ => true
  end.

Definition value_error (msg : string) : exn := mkExn ValueError msg.

(** The text of the exception is that of CPython 3.11. *)
Definition digits_exceeded : exn :=
  value_error ("Exceeds the limit (4300 digits) for integer string conversion; "
               ++ "use sys.set_int_max_str_digits() to increase the limit").

(** ** The result-id extractor *)

Section Extractor.
(** Python's [str] on values. *)
Variable py_str : value -> string.

(** The loop body of the Qdrant branch:
    [if 'id' in point: result_ids.append(str(point['id']))]. *)
Definition extract_point (point : value) : result (list string) :=
  (c <- py_contains "id" point ;;
   if c then (v <- py_getitem point "id" ;; Ok [py_str v]) else Ok [])%result.

(** The loop body of the Weaviate branch, for one element of a collection's
    list. *)
Definition extract_additional (item : value) : result (list string) :=
  match item with
  | VDict i =>
      match dict_get "_additional" i with
      | Some additional => extract_point additional
      | None => Ok []
      end
  | _ => Ok []
  end.

(** A [for] loop that extends [result_ids] and stops at the first
    exception. *)
Fixpoint extend_each {A} (body : A -> result (list string)) (xs : list A)
  : result (list string) :=
  match xs with
  | [] => Ok []
  | x :: xs' =>
      (ids <- body x ;; rest <- extend_each body xs' ;; Ok (ids ++ rest))%result
  end.

Definition extract_milvus_item (item : value) : list string :=
  match item with
  | VDict i =>
      match dict_get "id" i with
      | Some v => [py_str v]
      | None => []
      end
  | _ => []
  end.

Definition extract_sublist (sublist : value) : list string :=
  match sublist with
  | VList l => map py_str l
  | _ => []
  end.

Definition dict_get_list (k : string) (d : list (string * value))
  : option (list value) :=
  match dict_get k d with
  | Some (VList l) => Some l
  | _ => None
  end.

Fixpoint _extract_search_result_ids (data : value) : result (list string) :=
  match data with
  | VDict d =>
      match dict_get_list "data" d with
      | Some items => Ok (flat_map extract_milvus_item items)
      | None =>
      match dict_get_list "ids" d with
      | Some ids => Ok (map py_str ids)
      | None =>
      match dict_find _extract_search_result_ids "result" d with
      | Some nested => nested
      | None =>
      match dict_get "Get" d with
      | Some get_data =>
          (collections <- py_values get_data ;;
           extend_each (fun collection_name =>
                          match collection_name with
                          | VList l => extend_each extract_additional l
                          | _ => Ok []
                          end) collections)%result
      | None =>
      match dict_get_list "points" d with
      | Some points => extend_each extract_point points
      | None => Ok []
      end end end end end
  | VList l =>
      match l with
      | VList _ :: _ => Ok (flat_map extract_sublist l)
      | _ => Ok (map py_str l)
      end
  | _ => Ok []
  end.
End Extractor.

(** [v.get(k, default)] *)
Definition py_get (v : value) (k : string) (default : value) : result value :=
  match v with
  | VDict d => Ok (match dict_get k d with Some x => x | None => default end)
  | _ => Raise (attribute_error v "get")
  end.

(** [bool(v)] *)
Definition py_truth (v : value) : bool :=
  match v with
  | VNone => false
  | VBool b => b
  | VInt z => negb (Z.eqb z 0)
  | VFloat (FFinite _ m _) => negb (N.eqb m 0)
  | VFloat _ => true
  | VStr s => negb (String.eqb s "")
  | VList l => negb (Nat.eqb (length l) 0)
  | VDict d => negb (Nat.eqb (length d) 0)
  end.

(** ** Results, inconsistencies and the object heap *)

(** [@dataclass class DatabaseResult] *)
Record DatabaseResult : Type := mkDatabaseResult {
  database : string;
  success : bool;
  data : value;
  error : option string;
  execution_time : Q
}.

(** One inconsistency message: the f-string template and the values it
    interpolates. *)
Inductive inconsistency : Type :=
| SuccessFailureDivergence (succeeded failed : list string)
| InsertCountMismatch (success_counts : list (string * value))
| SearchResultsDiffer (reference_db db_name : string) (overlap_percent : Q)
| BatchSearchResultsDiffer (query_idx : nat) (reference_db db_name : string)
                           (overlap_percent : Q)
| DeleteStatusMismatch (success_status : list (string * value))
| MixedCountMismatch (operation_counts : list (string * value))
| OperationStatusMismatch (success_status : list (string * bool)).

(** [f"Insert count mismatch: {success_counts}"]: building the message
    converts every count to text. *)
Definition insert_count_message (success_counts : list (string * value))
  : result inconsistency :=
  if forallb printable (map snd success_counts)
  then Ok (InsertCountMismatch success_counts)
  else Raise digits_exceeded.

(** [class TestResult] of [models.py] *)
Record TestResult : Type := mkTestResult {
  test_id : string;
  operation : string;
  inputs : value;
  results : list (string * value);
  inconsistencies : list inconsistency;
  test_execution_time : list (string * Q)
}.

Definition loc := nat.

(** The shared objects: dictionaries from adapter names to
    [DatabaseResult] objects, and the [DatabaseResult] objects. *)
Inductive object : Type :=
| ODict (entries : list (string * loc))
| OResult (r : DatabaseResult).

(** The overlap of two identifier sets in percent,
    [len(intersection) / max_len * 100], and [0] when both are empty.  The
    source computes it in floating point; the comparison with [50] agrees
    with the exact one for sets of fewer than [2^50] elements. *)
Definition overlap_percent (reference_ids ids : gset string) : Q :=
  let intersection := reference_ids ∩ ids in
  let max_len := Nat.max (size reference_ids) (size ids) in
  if Nat.eqb max_len 0 then 0%Q
  else ((Z.of_nat (size intersection) # Pos.of_nat max_len) * 100)%Q.

Definition Qltb (x y : Q) : bool := negb (Qle_bool y x).

(** [overlap_percent < 50 and len(reference_ids) > 0 and len(ids) > 0] *)
Definition differ_significantly (reference_ids ids : gset string) : bool :=
  Qltb (overlap_percent reference_ids ids) 50
  && (0 <? size reference_ids)%nat && (0 <? size ids)%nat.


(** ** The state-and-error monad

    A world is the heap of shared objects and the state [St] of everything
    outside the tester: the backends behind the adapters, the clock, the
    event loop. *)
Section Monad.
Context {St : Type}.

Record world : Type := mkWorld { objects : list object; outside : St }.

Definition M (A : Type) : Type := world -> result A * world.

Definition ret {A} (a : A) : M A := fun w => (Ok a, w).

Definition raise {A} (e : exn) : M A := fun w => (Raise e, w).

Definition bind {A B} (m : M A) (k : A -> M B) : M B :=
  fun w =>
    match m w with
    | (Ok a, w') => k a w'
    | (Raise e, w') => (Raise e, w')
    end.

(** [try: m  except Exception as e: h e] *)
Definition try_except {A} (m : M A) (h : exn -> M A) : M A :=
  fun w =>
    match m w with
    | (Ok a, w') => (Ok a, w')
    | (Raise e, w') => h e w'
    end.

Definition lift {A} (r : result A) : M A := fun w => (r, w).

(** Creation of an object. *)
Definition alloc (o : object) : M loc :=
  fun w => (Ok (length (objects w)),
            mkWorld (objects w ++ [o]) (outside w)).

(** Assignment to an object: a field of a [DatabaseResult], an entry of a
    dictionary.  The tester never does it. *)
Definition assign (l : loc) (o : object) : M unit :=
  fun w => (Ok tt, mkWorld (<[l := o]> (objects w)) (outside w)).

(** A step of the outside world. *)
Definition external {A} (f : St -> A * St) : M A :=
  fun w => let (a, s) := f (outside w) in (Ok a, mkWorld (objects w) s).

Definition no_attribute (class attr : string) : exn :=
  mkExn AttributeError
        ("'" ++ class ++ "' object has no attribute '" ++ attr ++ "'").

(** Reading the dictionary at [l], for the method or builtin [attr]. *)
Definition get_dict (attr : string) (l : loc) : M (list (string * loc)) :=
  fun w =>
    match objects w !! l with
    | Some (ODict d) => (Ok d, w)
    | Some (OResult _) => (Raise (no_attribute "DatabaseResult" attr), w)
    | None => (Raise (mkExn Exception "no such object"), w)
    end.

(** Reading the [DatabaseResult] at [l], for the field [attr]. *)
Definition get_result (attr : string) (l : loc) : M DatabaseResult :=
  fun w =>
    match objects w !! l with
    | Some (OResult r) => (Ok r, w)
    | Some (ODict _) => (Raise (no_attribute "dict" attr), w)
    | None => (Raise (mkExn Exception "no such object"), w)
    end.

(** [for x in xs: acc = body x acc] *)
Fixpoint for_each {A X} (xs : list X) (body : X -> A -> M A) (acc : A) : M A :=
  match xs with
  | [] => ret acc
  | x :: xs' => bind (body x acc) (for_each xs' body)
  end.
End Monad.

Arguments world : clear implicits.
Arguments M : clear implicits.

Declare Scope monad_scope.
Delimit Scope monad_scope with monad.
Notation "x <- m ;; k" := (bind m (fun x => k))
  (at level 100, m at next level, right associativity) : monad_scope.

(** ** The comparators *)

Section Comparators.
Context (py_str : value -> string) {St : Type}.
Local Open Scope monad_scope.
Abbreviation M := (M St).

(** [results.items()], [len(results)], [bool(results)],
    [list(results.keys())] *)
Definition dict_items (results : loc) : M (list (string * loc)) :=
  get_dict "items" results.
Definition dict_len (results : loc) : M nat :=
  d <- get_dict "__len__" results ;; ret (length d).
Definition dict_truth (results : loc) : M bool :=
  d <- get_dict "__bool__" results ;; ret (negb (Nat.eqb (length d) 0)).
Definition dict_key_list (results : loc) : M (list string) :=
  d <- get_dict "keys" results ;; ret (dict_keys d).

(** [result.data], [v.success] *)
Definition get_data (result : loc) : M value :=
  r <- get_result "data" result ;; ret (data r).
Definition get_success (result : loc) : M bool :=
  r <- get_result "success" result ;; ret (success r).

(** [{k: v for k, v in results.items() if keep(v)}] *)
Definition dict_comprehension (keep : loc -> M bool) (results : loc) : M loc :=
  items <- dict_items results ;;
  selected <- for_each items
    (fun '(k, v) acc => b <- keep v ;; ret (if b then dict_set k v acc else acc)) [] ;;
  alloc (ODict selected).

(** [_compare_insert_results]: the body of the loop, given [result.data]. *)
Definition insert_count_of (db_name : string) (data : value)
           (success_counts : list (string * value))
  : result (list (string * value)) :=
  (if hasattr_get data then
     has_count <- py_contains "insert_count" data ;;
     if has_count then
       count <- py_getitem data "insert_count" ;;
       Ok (dict_set db_name count success_counts)
     else
       has_status <- py_contains "status" data ;;
       if has_status then
         insert_ids <- py_get data "insert_ids" (VList []) ;;
         n <- py_len insert_ids ;;
         Ok (dict_set db_name (VInt (Z.of_nat n)) success_counts)
       else Ok success_counts
   else if isinstance_dict data then
     ids <- py_get data "ids" (VList []) ;;
     n <- py_len ids ;;
     Ok (dict_set db_name (VInt (Z.of_nat n)) success_counts)
   else Ok (dict_set db_name (VInt 1) success_counts))%result.

Definition _compare_insert_results (results : loc) : M (list inconsistency) :=
  items <- dict_items results ;;
  success_counts <- for_each items
    (fun '(db_name, result) success_counts =>
       data <- get_data result ;;
       lift (insert_count_of db_name data success_counts)) [] ;;
  distinct <- lift (py_set_len (dict_values success_counts)) ;;
  if (1 <? distinct)%nat then
    message <- lift (insert_count_message success_counts) ;;
    ret [message]
  else ret [].

(** The second loop of [_compare_search_results]: every adapter other than
    the reference against the reference. *)
Definition compare_with_reference (message : string -> string -> Q -> inconsistency)
           (reference_db : string) (reference_ids : gset string)
           (search_results : list (string * gset string))
  : list inconsistency :=
  flat_map (fun '(db_name, ids) =>
              if negb (String.eqb db_name reference_db)
                 && differ_significantly reference_ids ids
              then [message reference_db db_name
                            (overlap_percent reference_ids ids)]
              else [])
           search_results.

(** [_compare_search_results] *)
Definition search_ids_of (db_name : string) (result : loc)
           (search_results : list (string * gset string))
  : M (list (string * gset string)) :=
  try_except
    (data <- get_data result ;;
     result_ids <- lift (_extract_search_result_ids py_str data) ;;
     ret (dict_set db_name (list_to_set result_ids) search_results))
    (fun e => ret (dict_set db_name ∅ search_results)).

Definition _compare_search_results (results : loc) : M (list inconsistency) :=
  items <- dict_items results ;;
  search_results <- for_each items
    (fun '(db_name, result) => search_ids_of db_name result) [] ;;
  match search_results with
  | [] => ret []
  | (reference_db, _) :: _ =>
      match dict_get reference_db search_results with
      | Some reference_ids =>
          ret (compare_with_reference SearchResultsDiffer reference_db
                                      reference_ids search_results)
      | None => raise (key_error reference_db)
      end
  end.

(** [_compare_batch_search_results] *)
Definition query_ids_of (query_idx : nat) (db_name : string) (result : loc)
           (query_results : list (string * gset string))
  : M (list (string * gset string)) :=
  try_except
    (data <- get_data result ;;
     match data with
     | VList l =>
         match l !! query_idx with
         | Some answer =>
             result_ids <- lift (_extract_search_result_ids py_str answer) ;;
             ret (dict_set db_name (list_to_set result_ids) query_results)
         | None => ret (dict_set db_name ∅ query_results)
         end
     | _ => ret (dict_set db_name ∅ query_results)
     end)
    (fun e => ret (dict_set db_name ∅ query_results)).

Definition compare_query (results : loc) (reference_db : string) (query_idx : nat)
           (inconsistencies : list inconsistency) : M (list inconsistency) :=
  items <- dict_items results ;;
  query_results <- for_each items
    (fun '(db_name, result) => query_ids_of query_idx db_name result) [] ;;
  if (1 <? length query_results)%nat then
    match dict_get reference_db query_results with
    | Some reference_ids =>
        ret (inconsistencies ++
             compare_with_reference (BatchSearchResultsDiffer query_idx)
                                    reference_db reference_ids query_results)
    | None => raise (key_error reference_db)
    end
  else ret inconsistencies.

Definition _compare_batch_search_results (results : loc) : M (list inconsistency) :=
  nonempty <- dict_truth results ;;
  if negb nonempty then ret [] else
  items <- dict_items results ;;
  match items with
  | [] => raise (mkExn Exception "StopIteration")
  | (reference_db, reference) :: _ =>
      reference_data <- get_data reference ;;
      match reference_data with
      | VList l =>
          for_each (seq 0 (length l)) (compare_query results reference_db) []
      | _ => ret []
      end
  end.

(** [_compare_delete_results]: the body of the loop, given [result.data]. *)
Definition delete_status_of (db_name : string) (data : value)
           (success_status : list (string * value))
  : result (list (string * value)) :=
  (if hasattr_get data then
     status <- py_get data "status" (VStr "") ;;
     lowered <- py_lower status ;;
     let success :=
       existsb (String.eqb lowered) ["success"; "ok"; "completed"] in
     Ok (dict_set db_name (VBool success) success_status)
   else if isinstance_dict data then
     success <- py_get data "success" (VBool true) ;;
     Ok (dict_set db_name success success_status)
   else Ok (dict_set db_name (VBool true) success_status))%result.

Definition _compare_delete_results (results : loc) : M (list inconsistency) :=
  items <- dict_items results ;;
  success_status <- for_each items
    (fun '(db_name, result) success_status =>
       data <- get_data result ;;
       lift (delete_status_of db_name data success_status)) [] ;;
  if negb (forallb py_truth (dict_values success_status))
  then ret [DeleteStatusMismatch success_status]
  else ret [].

(** [_compare_mixed_operation_results] *)
Definition operation_count_of (data : value) : value :=
  match data with
  | VList l => VInt (Z.of_nat (length l))
  | _ => VInt 0
  end.

Definition _compare_mixed_operation_results (results : loc)
  : M (list inconsistency) :=
  items <- dict_items results ;;
  operation_counts <- for_each items
    (fun '(db_name, result) operation_counts =>
       data <- get_data result ;;
       ret (dict_set db_name (operation_count_of data) operation_counts)) [] ;;
  distinct <- lift (py_set_len (dict_values operation_counts)) ;;
  if (1 <? distinct)%nat then ret [MixedCountMismatch operation_counts]
  else ret [].

(** [_compare_generic_results] *)
Definition _compare_generic_results (results : loc) : M (list inconsistency) :=
  items <- dict_items results ;;
  success_status <- for_each items
    (fun '(k, v) acc => b <- get_success v ;; ret (dict_set k b acc)) [] ;;
  if negb (forallb id (dict_values success_status))
  then ret [OperationStatusMismatch success_status]
  else ret [].

(** [self.result_comparators.get(operation, self._compare_generic_results)] *)
Definition result_comparators : list (string * (loc -> M (list inconsistency))) :=
  [ ("insert", _compare_insert_results);
    ("search", _compare_search_results);
    ("delete", _compare_delete_results);
    ("batch_insert", _compare_insert_results);
    ("batch_search", _compare_batch_search_results);
    ("mixed_operations", _compare_mixed_operation_results) ].

Definition comparator_for (operation : string) : loc -> M (list inconsistency) :=
  match dict_get operation result_comparators with
  | Some comparator => comparator
  | None => _compare_generic_results
  end.

(** [_compare_results] *)
Definition _compare_results (operation : string) (results : loc)
  : M (list inconsistency) :=
  successful_results <- dict_comprehension get_success results ;;
  failed_results <-
    dict_comprehension (fun v => b <- get_success v ;; ret (negb b)) results ;;
  some_succeeded <- dict_truth successful_results ;;
  some_failed <-
    (if some_succeeded then dict_truth failed_results else ret false) ;;
  inconsistencies <-
    (if some_failed then
       succeeded <- dict_key_list successful_results ;;
       failed <- dict_key_list failed_results ;;
       ret [SuccessFailureDivergence succeeded failed]
     else ret []) ;;
  n <- dict_len successful_results ;;
  if (n <? 2)%nat then ret inconsistencies else
  operation_inconsistencies <- comparator_for operation successful_results ;;
  ret (inconsistencies ++ operation_inconsistencies).
End Comparators.

(** [enumerate(xs)] *)
Definition enumerate {A} (xs : list A) : list (nat * A) :=
  combine (seq 0 (length xs)) xs.

(** ** The orchestrator *)

Section Orchestrator.
Context (py_str : value -> string) {St : Type}.
Local Open Scope monad_scope.
Abbreviation M' := (M St).

(** A backend adapter ([DatabaseClient] of [db_clients.py]): each call is a
    step of the outside world that returns a payload or raises. *)
Record Client : Type := mkClient {
  insert_vectors : value -> value -> value -> value -> St -> result value * St;
  search_vectors : value -> value -> value -> value -> St -> result value * St;
  delete_vectors : value -> value -> St -> result value * St
}.

(** What the tester takes from the Python runtime: the clock
    ([time.time]) and whether [asyncio.gather] itself fails. *)
Record Runtime : Type := mkRuntime {
  time_time : St -> Q * St;
  gather_fault : St -> option exn * St
}.

Context (rt : Runtime).

(** [await client.method(...)] *)
Definition await_call (f : St -> result value * St) : M' value :=
  r <- external f ;; lift r.

Definition now : M' Q := external (time_time rt).

(** The [batch_search] branch of [_safe_execute]. *)
Definition batch_search_data (client : Client)
           (collection_name query_vectors limit metric_type : value) : M' value :=
  queries <- lift (py_iter query_vectors) ;;
  data <- for_each queries
    (fun query_vector data =>
       result <- await_call (search_vectors client collection_name query_vector
                                            limit metric_type) ;;
       ret (data ++ [result])) [] ;;
  ret (VList data).

(** One iteration of the [mixed_operations] loop of [_safe_execute]. *)
Definition mixed_step (client : Client) (collection_name op : value)
           (data : list value) : M' (list value) :=
  type <- lift (py_getitem op "type") ;;
  if value_is_str "insert" type then
    vectors <- lift (py_getitem op "vectors") ;;
    id <- lift (py_getitem op "id") ;;
    result <- await_call (insert_vectors client collection_name
                            (VList [vectors]) (VList [id]) VNone) ;;
    ret (data ++ [VDict [("operation", type); ("result", result)]])
  else if value_is_str "search" type then
    query_vector <- lift (py_getitem op "query_vector") ;;
    limit <- lift (py_getitem op "limit") ;;
    result <- await_call (search_vectors client collection_name query_vector
                            limit (VStr "L2")) ;;
    ret (data ++ [VDict [("operation", type); ("result", result)]])
  else if value_is_str "delete" type then
    ids <- lift (py_getitem op "ids") ;;
    result <- await_call (delete_vectors client collection_name ids) ;;
    ret (data ++ [VDict [("operation", type); ("result", result)]])
  else ret data.

(** The [try] block of [_safe_execute], up to the payload. *)
Definition execute_operation (client : Client) (operation : string)
           (inputs : value) : M' value :=
  collection_name <-
    lift (py_get inputs "collection_name" (VStr "test_collection")) ;;
  if String.eqb operation "insert" || String.eqb operation "batch_insert" then
    vectors <- lift (py_getitem inputs "vectors") ;;
    ids <- lift (py_get inputs "ids" VNone) ;;
    metadata <- lift (py_get inputs "metadata" VNone) ;;
    await_call (insert_vectors client collection_name vectors ids metadata)
  else if String.eqb operation "search" then
    query_vector <- lift (py_getitem inputs "query_vector") ;;
    limit <- lift (py_get inputs "limit" (VInt 10)) ;;
    metric_type <- lift (py_get inputs "metric_type" (VStr "L2")) ;;
    await_call (search_vectors client collection_name query_vector
                               limit metric_type)
  else if String.eqb operation "delete" then
    ids <- lift (py_getitem inputs "ids") ;;
    await_call (delete_vectors client collection_name ids)
  else if String.eqb operation "batch_search" then
    query_vectors <- lift (py_getitem inputs "query_vectors") ;;
    limit <- lift (py_get inputs "limit" (VInt 10)) ;;
    metric_type <- lift (py_get inputs "metric_type" (VStr "L2")) ;;
    batch_search_data client collection_name query_vectors limit metric_type
  else if String.eqb operation "mixed_operations" then
    operations <- lift (py_getitem inputs "operations") ;;
    ops <- lift (py_iter operations) ;;
    data <- for_each ops (mixed_step client collection_name) [] ;;
    ret (VList data)
  else raise (mkExn Exception ("Unknown operation: " ++ operation)).

(** [_safe_execute]: returns the new [DatabaseResult] object. *)
Definition _safe_execute (db_name : string) (client : Client)
           (operation : string) (inputs : value) : M' loc :=
  start_time <- now ;;
  try_except
    (data <- execute_operation client operation inputs ;;
     end_time <- now ;;
     alloc (OResult (mkDatabaseResult db_name true data None
                                      (end_time - start_time))))
    (fun e =>
       end_time <- now ;;
       alloc (OResult (mkDatabaseResult db_name false VNone (Some (exn_str e))
                                        (end_time - start_time)))).

(** A task run to its end: what it returned or the exception it ended
    with. *)
Definition settle {A} (task : M' A) : M' (result A) :=
  fun w => let (r, w') := task w in (Ok r, w').

(** [await asyncio.gather] of all tasks with [return_exceptions=True].  The tasks
    were created in the order of the dictionary and are run here one after
    the other: every adapter owns its part of the outside world, so the
    interleaving the event loop chooses does not show in the payloads. *)
Definition asyncio_gather {A} (tasks : list (M' A)) : M' (list (result A)) :=
  outcomes <- for_each tasks
    (fun task outcomes => o <- settle task ;; ret (outcomes ++ [o])) [] ;;
  fault <- external (gather_fault rt) ;;
  match fault with
  | Some e => raise e
  | None => ret outcomes
  end.

(** [class DifferentialTester]: [self.clients]. *)
Definition clients_dict : Type := list (string * Client).

Definition failed_result (db_name : string) (description : string) : object :=
  OResult (mkDatabaseResult db_name false VNone (Some description) 0).

(** The loop of [_execute_on_all_databases] over
    [enumerate(tasks.items())]. *)
Definition collect_result (results : list (result loc))
           (entry : nat * string) (db_results : list (string * loc))
  : M' (list (string * loc)) :=
  let '(i, db_name) := entry in
  match results !! i with
  | None => raise (mkExn IndexError "list index out of range")
  | Some (Raise e) =>
      l <- alloc (failed_result db_name (exn_str e)) ;;
      ret (dict_set db_name l db_results)
  | Some (Ok l) => ret (dict_set db_name l db_results)
  end.

(** [_execute_on_all_databases]: returns the new dictionary. *)
Definition _execute_on_all_databases (clients : clients_dict)
           (operation : string) (inputs : value) : M' loc :=
  let tasks :=
    fold_left (fun tasks '(db_name, client) =>
                 dict_set db_name (_safe_execute db_name client operation inputs)
                          tasks)
              clients [] in
  try_except
    (results <- asyncio_gather (dict_values tasks) ;;
     db_results <- for_each (enumerate (dict_keys tasks))
                     (collect_result results) [] ;;
     alloc (ODict db_results))
    (fun e =>
       db_results <- for_each (dict_keys clients)
         (fun db_name db_results =>
            l <- alloc (failed_result db_name ("Gather error: " ++ exn_str e)) ;;
            ret (dict_set db_name l db_results)) [] ;;
       alloc (ODict db_results)).

(** [run_test] *)
Definition run_test (clients : clients_dict) (test_id operation : string)
           (inputs : value) : M' TestResult :=
  start_time <- now ;;
  results <- _execute_on_all_databases clients operation inputs ;;
  inconsistencies <- _compare_results py_str operation results ;;
  names <- dict_key_list results ;;
  execution_time <- for_each names
    (fun name execution_time =>
       t <- now ;; ret (dict_set name (t - start_time)%Q execution_time)) [] ;;
  items <- dict_items results ;;
  payloads <- for_each items
    (fun '(name, result) payloads =>
       d <- get_data result ;; ret (dict_set name d payloads)) [] ;;
  ret (mkTestResult test_id operation inputs payloads inconsistencies
                    execution_time).
End Orchestrator.

Arguments Client : clear implicits.
Arguments Runtime : clear implicits.
Arguments clients_dict : clear implicits.

(** * Specification-side definitions and examples *)

(** ** Reasoning about the monad *)

Fixpoint fold_result {A X} (step : X -> A -> result A) (xs : list X) (acc : A)
  : result A :=
  match xs with
  | [] => Ok acc
  | x :: xs' => rbind (step x acc) (fold_result step xs')
  end.

Section Snapshot.
Context {St : Type}.
Implicit Types (w : world St) (m : list (string * DatabaseResult)).

(** The entries [es] of a dictionary hold the [DatabaseResult]s [m]. *)
Definition holds_results w (es : list (string * loc)) m : Prop :=
  Forall2 (fun e s => e.1 = s.1 /\ objects w !! e.2 = Some (OResult s.2)) es m.

(** The object at [l] is a dictionary that maps the adapter names of [m], in
    order and without repetition, to the [DatabaseResult]s of [m]. *)
Definition results_at w (l : loc) m : Prop :=
  NoDup (dict_keys m) /\
  exists es, objects w !! l = Some (ODict es) /\ holds_results w es m.

(** [w'] has the objects of [w], unchanged, then possibly new ones; the
    outside world is the same. *)
Definition extends w w' : Prop :=
  (exists fresh, objects w' = objects w ++ fresh) /\ outside w' = outside w.

(** A computation that only reads and creates objects. *)
Definition allocates_only {A} (c : M St A) : Prop := forall w, extends w (c w).2.
End Snapshot.

(** ** What the comparison step computes *)

(** Spec-side definitions *)
Definition successful (m : list (string * DatabaseResult)) :=
  List.filter (fun s => success s.2) m.
Definition failed (m : list (string * DatabaseResult)) :=
  List.filter (fun s => negb (success s.2)) m.

(** The cross-cutting rule. *)
Definition divergence (m : list (string * DatabaseResult)) : list inconsistency :=
  match successful m, failed m with
  | _ :: _, _ :: _ =>
      [SuccessFailureDivergence (dict_keys (successful m)) (dict_keys (failed m))]
  | _, _ => []
  end.

Definition is_divergence (i : inconsistency) : bool :=
  match i with SuccessFailureDivergence _ _ => true | _ => false end.

Section Collect.
Context {A : Type} (f : string -> DatabaseResult -> result (option A)).

(** One optional entry per adapter, in order, up to the first exception. *)
Fixpoint collect (m : list (string * DatabaseResult)) : result (list (string * A)) :=
  match m with
  | [] => Ok []
  | s :: m' =>
      rbind (f s.1 s.2) (fun o =>
      rbind (collect m') (fun rest =>
      Ok (match o with Some v => (s.1, v) :: rest | None => rest end)))
  end.
End Collect.

Section SpecSide.
Context (py_str : value -> string).

(** The identifier set of a payload; a payload the extractor fails on has
    the empty set. *)
Definition id_set (data : value) : gset string :=
  match _extract_search_result_ids py_str data with
  | Ok result_ids => list_to_set result_ids
  | Raise _ => ∅
  end.

(** The identifier set of a payload at one query index. *)
Definition query_id_set (query_idx : nat) (data : value) : gset string :=
  match data with
  | VList l =>
      match l !! query_idx with
      | Some answer => id_set answer
      | None => ∅
      end
  | _ => ∅
  end.

(** The per-pair overlap rule, for the adapters [others] against the
    reference. *)
Definition flag_pairs (message : string -> string -> Q -> inconsistency)
           (ids_of : value -> gset string)
           (reference : string * DatabaseResult)
           (others : list (string * DatabaseResult)) : list inconsistency :=
  flat_map (fun s =>
              if differ_significantly (ids_of (data reference.2)) (ids_of (data s.2))
              then [message reference.1 s.1
                            (overlap_percent (ids_of (data reference.2))
                                             (ids_of (data s.2)))]
              else [])
           others.

Definition search_expected (m : list (string * DatabaseResult)) : list inconsistency :=
  match m with
  | [] => []
  | reference :: others => flag_pairs SearchResultsDiffer id_set reference others
  end.

Definition batch_search_expected (m : list (string * DatabaseResult))
  : list inconsistency :=
  match m with
  | [] => []
  | reference :: others =>
      match data reference.2 with
      | VList l =>
          flat_map (fun query_idx =>
                      flag_pairs (BatchSearchResultsDiffer query_idx)
                                 (query_id_set query_idx) reference others)
                   (seq 0 (length l))
      | _ => []
      end
  end.
End SpecSide.

Section SpecSide2.
(** The count [_compare_insert_results] stores for a payload, if any. *)
Definition accepted_count (data : value) : result (option value) :=
  match data with
  | VDict d =>
      match dict_get "insert_count" d with
      | Some count => Ok (Some count)
      | None =>
          match dict_get "status" d with
          | Some _ =>
              rbind (py_len (match dict_get "insert_ids" d with
                             | Some insert_ids => insert_ids
                             | None => VList []
                             end))
                    (fun n => Ok (Some (VInt (Z.of_nat n))))
          | None => Ok None
          end
      end
  | _ => Ok (Some (VInt 1))
  end.

(** The status [_compare_delete_results] stores for a payload. *)
Definition delete_status (data : value) : result value :=
  match data with
  | VDict d =>
      rbind (py_lower (match dict_get "status" d with
                       | Some status => status
                       | None => VStr ""
                       end))
            (fun lowered =>
               Ok (VBool (existsb (String.eqb lowered) ["success"; "ok"; "completed"])))
  | _ => Ok (VBool true)
  end.
End SpecSide2.

Section HeapOnly.
Context {St : Type}.
Implicit Types (w : world St).

(** [w'] has the objects of [w], unchanged, then possibly new ones. *)
Definition grows w w' : Prop := exists fresh, objects w' = objects w ++ fresh.

(** A computation that leaves the heap as it is. *)
Definition heap_stable {A} (c : M St A) : Prop :=
  forall w, objects (c w).2 = objects w.
End HeapOnly.

Definition gather_failed (description : string) (names : list string)
  : list (string * DatabaseResult) :=
  map (fun n => (n, mkDatabaseResult n false VNone (Some description) 0)) names.

(** Spec-side definitions for the insert and delete comparators *)

Definition has_len (v : value) : bool :=
  match py_len v with Ok _ => true | Raise _ => false end.






(** ** Examples *)

(** An instance of [str] for the examples: Python's [str] on [None],
    booleans, integers and strings, which is all the examples convert;
    other values are only given the name of their class. *)
Definition example_str (v : value) : string :=
  match v with
  | VNone => "None"
  | VBool true => "True"
  | VBool false => "False"
  | VInt z => pretty z
  | VStr s => s
  | _ => type_name v
  end.

Definition succeeded (db_name : string) (payload : value) : DatabaseResult :=
  mkDatabaseResult db_name true payload None 0.

Definition raised (db_name : string) (description : string) : DatabaseResult :=
  mkDatabaseResult db_name false VNone (Some description) 0.

Definition with_ids (ids : list Z) : value := VDict [("ids", VList (map VInt ids))].

(** Three adapters answer a search, a fourth one fails. *)
Definition search_results : list (string * DatabaseResult) :=
  [ ("a", succeeded "a" (with_ids [1; 2; 3]%Z));
    ("b", succeeded "b" (with_ids [1; 2; 9]%Z));
    ("c", succeeded "c" (with_ids [9; 10; 11]%Z)) ].

Definition search_results_and_failure : list (string * DatabaseResult) :=
  search_results ++ [("d", raised "d" "timeout")].

(** Two adapters answer a batch of two queries; the second adapter has one
    answer only. *)
Definition batch_results : list (string * DatabaseResult) :=
  [ ("a", succeeded "a" (VList [with_ids [1; 2; 3]%Z; with_ids [4]%Z]));
    ("b", succeeded "b" (VList [with_ids [9; 10; 11]%Z])) ].

(** Two adapters answer a batch of three queries; the second adapter has
    two answers only. *)
Definition batch_overlap_results : list (string * DatabaseResult) :=
  [ ("a", succeeded "a" (VList [with_ids [1; 2; 3]%Z; with_ids [1; 2; 3]%Z;
                                with_ids [4]%Z]));
    ("b", succeeded "b" (VList [with_ids [1; 2; 9]%Z; with_ids [1; 8; 9]%Z])) ].

(** Two adapters report insert counts 5 and 4. *)
Definition insert_results : list (string * DatabaseResult) :=
  [ ("a", succeeded "a" (VDict [("insert_count", VInt 5)]));
    ("b", succeeded "b" (VDict [("insert_count", VInt 4)])) ].

(** Three adapters answer an insert: with a count, with a status and the
    list of the identifiers, and with a payload that is no dictionary. *)
Definition insert_shapes_results : list (string * DatabaseResult) :=
  [ ("a", succeeded "a" (VDict [("insert_count", VInt 5)]));
    ("b", succeeded "b" (VDict [("status", VStr "ok");
                                ("insert_ids", VList [VStr "x"; VStr "y"])]));
    ("c", succeeded "c" (VList [])) ].

(** One adapter reports the count 1, the other only a status. *)
Definition insert_status_results : list (string * DatabaseResult) :=
  [ ("a", succeeded "a" (VDict [("insert_count", VInt 1)]));
    ("b", succeeded "b" (VDict [("status", VStr "success")])) ].

Definition delete_results : list (string * DatabaseResult) :=
  [ ("a", succeeded "a" (VDict [("status", VStr "SUCCESS")]));
    ("b", succeeded "b" (VDict [("status", VStr "ok")]));
    ("c", succeeded "c" (VDict [("status", VStr "error")])) ].

(** Two adapters that both report the status error. *)
Definition delete_error_results : list (string * DatabaseResult) :=
  [ ("a", succeeded "a" (VDict [("status", VStr "error")]));
    ("b", succeeded "b" (VDict [("status", VStr "error")])) ].

(** A world that holds the given results and, after them, the dictionary
    from their adapter names to them. *)
Definition world_of (m : list (string * DatabaseResult)) : world unit :=
  mkWorld (map (fun s => OResult s.2) m
           ++ [ODict (combine (dict_keys m) (seq 0 (length m)))]) tt.

(** An adapter that answers every call with the same payload. *)
Definition constant_client (payload : value) : Client unit :=
  mkClient (fun _ _ _ _ s => (Ok payload, s))
           (fun _ _ _ _ s => (Ok payload, s))
           (fun _ _ s => (Ok payload, s)).

(** A runtime whose clock stands still and whose [gather] works. *)
Definition quiet_runtime : Runtime unit :=
  mkRuntime (fun s => (0%Q, s)) (fun s => (None, s)).

(** A runtime whose [gather] raises. *)
Definition broken_runtime : Runtime unit :=
  mkRuntime (fun s => (0%Q, s))
            (fun s => (Some (mkExn Exception "event loop is closed"), s)).

(** Two adapters whose delete answers carry a number as status. *)
Definition numeric_status_clients : clients_dict unit :=
  [ ("a", constant_client (VDict [("status", VInt 5)]));
    ("b", constant_client (VDict [("status", VInt 5)])) ].

Definition delete_inputs : value := VDict [("ids", VList [VStr "1"])].

(** An adapter whose every call raises. *)
Definition failing_client (description : string) : Client unit :=
  mkClient (fun _ _ _ _ s => (Raise (mkExn Exception description), s))
           (fun _ _ _ _ s => (Raise (mkExn Exception description), s))
           (fun _ _ s => (Raise (mkExn Exception description), s)).

(** The same two adapters and a third one that fails. *)
Definition numeric_status_and_failing_clients : clients_dict unit :=
  numeric_status_clients ++ [("c", failing_client "connection refused")].

(** The results of a delete on these three adapters. *)
Definition numeric_status_and_failure : list (string * DatabaseResult) :=
  [ ("a", succeeded "a" (VDict [("status", VInt 5)]));
    ("b", succeeded "b" (VDict [("status", VInt 5)]));
    ("c", raised "c" "connection refused") ].

(** The claims as the specification states them, for the counterexamples *)






(** * Further definitions *)

(** ** The response formats the extractor recognises *)

(** The same identifiers in each of the recognised formats. *)
Definition milvus_format (ids : list value) : value :=
  VDict [("data", VList (map (fun v => VDict [("id", v)]) ids))].

Definition ids_format (ids : list value) : value :=
  VDict [("ids", VList ids)].

Definition qdrant_format (ids : list value) : value :=
  VDict [("points", VList (map (fun v => VDict [("id", v)]) ids))].

Definition weaviate_format (class : string) (ids : list value) : value :=
  VDict [("Get",
          VDict [(class,
                  VList (map (fun v => VDict [("_additional", VDict [("id", v)])])
                             ids))])].

Definition chroma_format (ids : list value) : value := VList [VList ids].

(** [n] levels of [{"result": ...}] around a payload. *)
Fixpoint result_wrapped (n : nat) (payload : value) : value :=
  match n with
  | O => payload
  | S n' => VDict [("result", result_wrapped n' payload)]
  end.

(** The nesting depth of a payload. *)
Fixpoint depth (v : value) : nat :=
  match v with
  | VList items => S (list_max (map depth items))
  | VDict entries => S (list_max (map (fun e => depth (snd e)) entries))
  | _ => 0
  end.

(** Payloads within the default limits of the interpreter: nested at most
    100 levels deep, far less than the recursion limit of 1000 allows, and
    without integers of more than 4300 digits.  On these neither [str] nor
    the recursion of the extractor fails. *)
Definition within_limits (v : value) : bool :=
  (depth v <=? 100)%nat && printable v.

Definition type_or_attribute_error (e : exn) : Prop :=
  exn_class e = TypeError \/ exn_class e = AttributeError.

(** A payload that lists the identifiers [ids] in one of the five response
    formats. *)
Definition lists_ids (ids : list value) (payload : value) : Prop :=
  payload = milvus_format ids \/ payload = ids_format ids
  \/ payload = qdrant_format ids
  \/ (exists class, payload = weaviate_format class ids)
  \/ payload = chroma_format ids.

(** The payloads on which the insert comparator raises: a dictionary whose
    [insert_count] is unhashable, or one without [insert_count] and with a
    [status] whose [insert_ids] has no length. *)
Definition insert_raising_payload (data : value) : bool :=
  match data with
  | VDict d =>
      match dict_get "insert_count" d with
      | Some count => negb (hashable count)
      | None =>
          match dict_get "status" d, dict_get "insert_ids" d with
          | Some _, Some insert_ids => negb (has_len insert_ids)
          | _, _ => false
          end
      end
  | _ => false
  end.

(** The payloads on which the delete comparator raises: a dictionary whose
    [status] is not a string. *)
Definition delete_raising_payload (data : value) : bool :=
  match data with
  | VDict d =>
      match dict_get "status" d with
      | Some (VStr _) | None => false
      | Some _ => true
      end
  | _ => false
  end.

(** The entry of [inputs] an operation cannot do without: [inputs[key]] in
    the branch of [_safe_execute] for that operation. *)
Definition required_key (operation : string) : option string :=
  if String.eqb operation "insert" || String.eqb operation "batch_insert"
  then Some "vectors"
  else if String.eqb operation "search" then Some "query_vector"
  else if String.eqb operation "delete" then Some "ids"
  else if String.eqb operation "batch_search" then Some "query_vectors"
  else if String.eqb operation "mixed_operations" then Some "operations"
  else None.

(** The [DatabaseResult] of [_safe_execute] for an outcome of the [try]
    block. *)
Definition result_of_outcome (db_name : string) (outcome : result value)
           (elapsed : Q) : DatabaseResult :=
  match outcome with
  | Ok payload => mkDatabaseResult db_name true payload None elapsed
  | Raise e => mkDatabaseResult db_name false VNone (Some (exn_str e)) elapsed
  end.

(** The sub-operations the [mixed_operations] loop of [_safe_execute]
    executes: those whose [type] is insert, search or delete. *)
Definition known_sub_operation (op : value) : bool :=
  match py_getitem op "type" with
  | Ok type =>
      value_is_str "insert" type || value_is_str "search" type
      || value_is_str "delete" type
  | Raise _ => false
  end.

(** An entry of the [mixed_operations] payload:
    [{'operation': op['type'], 'result': result}]. *)
Definition mixed_entry (entry : value) : Prop :=
  exists type result,
    entry = VDict [("operation", VStr type); ("result", result)]
    /\ In type ["insert"; "search"; "delete"].

(** What the payload of a successful [batch_search] or [mixed_operations]
    looks like, given the inputs. *)
Definition batch_search_payload (inputs payload : value) : Prop :=
  exists query_vectors queries answers,
    py_getitem inputs "query_vectors" = Ok query_vectors
    /\ py_iter query_vectors = Ok queries
    /\ payload = VList answers /\ length answers = length queries.

Definition mixed_operations_payload (inputs payload : value) : Prop :=
  exists operations ops entries,
    py_getitem inputs "operations" = Ok operations
    /\ py_iter operations = Ok ops
    /\ payload = VList entries
    /\ length entries = length (List.filter known_sub_operation ops)
    /\ Forall mixed_entry entries.

(** The [DatabaseResult] invariant of the orchestrator: the result carries
    the name of its adapter; a successful one has no error and a payload of
    the shape the operation produces; a failed one has the payload [None]
    and an error text. *)
Definition payload_shape (operation : string) (inputs payload : value) : Prop :=
  (operation = "batch_search" -> batch_search_payload inputs payload)
  /\ (operation = "mixed_operations" -> mixed_operations_payload inputs payload).

Definition well_formed_result (operation : string) (inputs : value)
           (db_name : string) (r : DatabaseResult) : Prop :=
  database r = db_name
  /\ (if success r
      then error r = None /\ payload_shape operation inputs (data r)
      else data r = VNone /\ exists description, error r = Some description).

(** ** The driving loop ([main.py]) *)

Fixpoint zeros (n : nat) : string :=
  match n with
  | O => EmptyString
  | S n' => String "0" (zeros n')
  end.

(** The format [0<width>d] of a number that is not negative: its decimal
    digits, padded with zeros on the left up to the width. *)
Definition zero_padded (width : nat) (i : nat) : string :=
  let digits := pretty i in
  zeros (width - String.length digits) ++ digits.

(** [f"test_{i:04d}"] *)
Definition test_id_of (i : nat) : string := "test_" ++ zero_padded 4 i.

(** The number a string of decimal digits stands for. *)
Definition digit_value (c : Ascii.ascii) : N :=
  (N.of_nat (Ascii.nat_of_ascii c) - 48)%N.

Fixpoint decimal_value (acc : N) (digits : string) : N :=
  match digits with
  | EmptyString => acc
  | String c digits' => decimal_value (acc * 10 + digit_value c) digits'
  end.

Section Driver.
Context (py_str : value -> string) {St : Type} (rt : Runtime St).
Local Open Scope monad_scope.

(** [VDBMSFuzzer.run_fuzz_test]; [generate_test] is
    [self.fuzz_generator.generate_test], [clients] the adapters of
    [self.differential_tester]. *)
Definition run_fuzz_test (generate_test : M St (string * value))
           (clients : clients_dict St) (num_tests : Z) : M St (list TestResult) :=
  for_each (seq 0 (Z.to_nat num_tests))
    (fun i results =>
       test <- generate_test ;;
       result <- run_test py_str rt clients (test_id_of i) test.1 test.2 ;;
       ret (results ++ [result])) [].
End Driver.

(** Two adapters return the identifiers 1 and 2, one in the Milvus layout,
    the other in the Chroma layout and in the opposite order. *)
Definition format_results : list (string * DatabaseResult) :=
  [ ("a", succeeded "a" (milvus_format [VInt 1; VInt 2]));
    ("b", succeeded "b" (chroma_format [VInt 2; VInt 1])) ].

(** Two adapters whose answers share no identifier, in both orders. *)
Definition disjoint_results : list (string * DatabaseResult) :=
  [ ("a", succeeded "a" (with_ids [1; 2; 3]%Z));
    ("c", succeeded "c" (with_ids [9; 10; 11]%Z)) ].

Definition disjoint_results_swapped : list (string * DatabaseResult) :=
  [ ("c", succeeded "c" (with_ids [9; 10; 11]%Z));
    ("a", succeeded "a" (with_ids [1; 2; 3]%Z)) ].

(** A payload with a status beside the wrapped answer. *)
Definition wrapped_payload : list (string * value) :=
  [("status", VStr "ok"); ("result", with_ids [7]%Z)].

(** One adapter reports a list as [insert_count], the other the count 1. *)
Definition insert_unhashable_results : list (string * DatabaseResult) :=
  [ ("a", succeeded "a" (VDict [("insert_count", VList [VInt 1])]));
    ("b", succeeded "b" (VDict [("insert_count", VInt 1)])) ].

(** Inputs of a mixed_operations test: an insert, a sub-operation of a type
    [_safe_execute] does not know, and a delete. *)
Definition mixed_inputs : value :=
  VDict [("operations",
          VList [VDict [("type", VStr "insert"); ("vectors", VList [VInt 1]);
                        ("id", VStr "1")];
                 VDict [("type", VStr "flush")];
                 VDict [("type", VStr "delete"); ("ids", VList [VStr "1"])]])].

(** Two adapters that answer every call, each with its own payload. *)
Definition answering_clients : clients_dict unit :=
  [ ("a", constant_client (VDict [("status", VStr "ok")]));
    ("b", constant_client VNone) ].

(** A generator that always asks for the same search. *)
Definition constant_generator : M unit (string * value) :=
  ret ("search", VDict [("query_vector", VList [])]).

(** ** The fuzz input generator ([fuzz_generator.py]) *)

(** [@dataclass class FuzzConfig]; a probability is the rational number its
    float denotes. *)
Record FuzzConfig : Type := mkFuzzConfig {
  vector_dimension : Z;
  max_vectors_per_batch : Z;
  max_metadata_size : Z;
  probability_invalid_vector : Q;
  probability_large_vector : Q;
  probability_negative_floats : Q;
  probability_special_chars : Q
}.

(** The rational numbers that the float literals [0.7], [0.2], [0.1],
    [0.05] and [0.01] of the source denote. *)
Definition float_0_7 : Q := 3152519739159347 # 4503599627370496.
Definition float_0_2 : Q := 3602879701896397 # 18014398509481984.
Definition float_0_1 : Q := 3602879701896397 # 36028797018963968.
Definition float_0_05 : Q := 3602879701896397 # 72057594037927936.
Definition float_0_01 : Q := 5764607523034235 # 576460752303423488.

(** [FuzzConfig()] *)
Definition default_config : FuzzConfig :=
  mkFuzzConfig 128 100 10 float_0_1 float_0_05 float_0_1 float_0_05.

(** What the generator takes from the module [random]: the next float of
    [random.random], as the rational it denotes; the next float of
    [random.uniform]; and the next raw number, which [randint], [choice] and
    [choices] reduce to their range. *)
Record Random (St : Type) : Type := mkRandom {
  random_random : St -> Q * St;
  random_uniform : Z -> Z -> St -> pyfloat * St;
  random_bits : St -> N * St
}.
Arguments mkRandom {St} _ _ _.
Arguments random_random {St} _ _.
Arguments random_uniform {St} _ _ _ _.
Arguments random_bits {St} _ _.

(** [string.ascii_letters + string.digits] *)
Definition letters_and_digits : string :=
  "abcdefghijklmnopqrstuvwxyzABCDEFGHIJKLMNOPQRSTUVWXYZ0123456789".

(** [range(n)] *)
Definition range (n : Z) : list Z := map Z.of_nat (seq 0 (Z.to_nat n)).

Section Generator.
Context {St : Type} (rnd : Random St) (config : FuzzConfig).
Local Open Scope monad_scope.

(** [random.randint(a, b)]: a number from [a] to [b], both included; a
    [ValueError] when there is none (its text is that of CPython 3.11). *)
Definition randint (a b : Z) : M St Z :=
  if (b <? a)%Z then
    raise (value_error ("empty range for randrange() (" ++ pretty a ++ ", "
                        ++ pretty (b + 1)%Z ++ ", " ++ pretty (b + 1 - a)%Z
                        ++ ")"))
  else
    n <- external (random_bits rnd) ;;
    ret (a + Z.of_N (n mod Z.to_N (b - a + 1)))%Z.

(** [random.choice(xs)] *)
Definition choice {A} (xs : list A) : M St A :=
  match xs with
  | [] => raise (mkExn IndexError "Cannot choose from an empty sequence")
  | x :: _ =>
      n <- external (random_bits rnd) ;;
      ret (nth (N.to_nat n mod length xs) xs x)
  end.

(** [random.random() < p] *)
Definition random_lt (p : Q) : M St bool :=
  x <- external (random_random rnd) ;; ret (Qltb x p).

(** [random.uniform(a, b)] *)
Definition uniform (a b : Z) : M St value :=
  f <- external (random_uniform rnd a b) ;; ret (VFloat f).

(** [[body for _ in range(n)]] *)
Definition list_of (n : Z) (body : M St value) : M St (list value) :=
  for_each (range n) (fun _ items => x <- body ;; ret (items ++ [x])) [].

(** [''.join(random.choices(population, k=k))] *)
Definition choices_joined (population : string) (k : Z) : M St value :=
  cs <- for_each (range k)
          (fun _ cs =>
             c <- choice (String.list_ascii_of_string population) ;;
             ret (cs ++ [c])) [] ;;
  ret (VStr (String.string_of_list_ascii cs)).

(** [f"id_{random.randint(0, 1000000)}"] *)
Definition random_id : M St value :=
  n <- randint 0 1000000 ;; ret (VStr ("id_" ++ pretty n)).

(** [_generate_vector] *)
Definition _generate_vector (dimension : option Z) : M St value :=
  let dimension :=
    match dimension with
    | None => vector_dimension config
    | Some d => d
    end in
  invalid <- random_lt (probability_invalid_vector config) ;;
  if invalid then
    empty <- random_lt (1 # 2) ;;
    if empty then ret (VList [])
    else
      n <- randint 1 256 ;;
      vector <- list_of n (uniform (-1) 1) ;;
      ret (VList vector)
  else
    large <- random_lt (probability_large_vector config) ;;
    dimension <- (if large then randint 256 1000 else ret dimension) ;;
    vector <- list_of dimension
                (negative <- random_lt (probability_negative_floats config) ;;
                 if negative then uniform (-10) 10 else uniform (-1) 1) ;;
    infinities <- random_lt float_0_01 ;;
    let vector :=
      if infinities then vector ++ [VFloat (FInf false); VFloat (FInf true)]
      else vector in
    nan <- random_lt float_0_01 ;;
    let vector := if nan then vector ++ [VFloat FNan] else vector in
    ret (VList vector).

(** One field of [_generate_metadata]: the value stored under
    [f'field_{i}']. *)
Definition metadata_field (field_type : string) : M St (option value) :=
  if String.eqb field_type "string" then
    special <- random_lt (probability_special_chars config) ;;
    if special then
      k <- randint 1 50 ;;
      s <- choices_joined (letters_and_digits ++ "!@#$%^&*()") k ;;
      ret (Some s)
    else
      k <- randint 1 20 ;;
      s <- choices_joined letters_and_digits k ;;
      ret (Some s)
  else if String.eqb field_type "number" then
    n <- randint (-1000000) 1000000 ;; ret (Some (VInt n))
  else if String.eqb field_type "boolean" then
    b <- choice [true; false] ;; ret (Some (VBool b))
  else if String.eqb field_type "list" then
    k <- randint 1 10 ;;
    items <- list_of k (n <- randint 0 100 ;; ret (VInt n)) ;;
    ret (Some (VList items))
  else if String.eqb field_type "nested" then
    v <- choice [VStr "nested_string"; VInt 42; VBool true] ;;
    ret (Some (VDict [("nested_value", v)]))
  else ret None.

(** [_generate_metadata] *)
Definition _generate_metadata : M St value :=
  num_fields <- randint 0 (max_metadata_size config) ;;
  metadata <- for_each (range num_fields)
    (fun i metadata =>
       field_type <- choice ["string"; "number"; "boolean"; "list"; "nested"] ;;
       field <- metadata_field field_type ;;
       ret (match field with
            | Some v => dict_set ("field_" ++ pretty i) v metadata
            | None => metadata
            end)) [] ;;
  ret (VDict metadata).

(** [_generate_collection_name] *)
Definition _generate_collection_name : M St value :=
  invalid <- random_lt float_0_1 ;;
  if invalid then
    name <- choice [""; "invalid-name"; "123"; "name with spaces"; "!@#$%"] ;;
    ret (VStr name)
  else
    n <- randint 1 1000 ;;
    ret (VStr ("test_collection_" ++ pretty n)).

(** [_generate_insert_params] *)
Definition _generate_insert_params : M St value :=
  num_vectors <- randint 1 (max_vectors_per_batch config) ;;
  vectors <- list_of num_vectors (_generate_vector None) ;;
  ids <- list_of num_vectors random_id ;;
  metadata <- list_of num_vectors
                (some <- random_lt float_0_7 ;;
                 if some then _generate_metadata else ret VNone) ;;
  collection_name <- _generate_collection_name ;;
  ret (VDict [("vectors", VList vectors); ("ids", VList ids);
              ("metadata", VList metadata);
              ("collection_name", collection_name)]).

(** [_generate_search_params] *)
Definition _generate_search_params : M St value :=
  query_vector <- _generate_vector None ;;
  limit <- randint 1 100 ;;
  metric_type <- choice ["L2"; "cosine"; "ip"] ;;
  collection_name <- _generate_collection_name ;;
  ret (VDict [("query_vector", query_vector); ("limit", VInt limit);
              ("metric_type", VStr metric_type);
              ("collection_name", collection_name)]).

(** [_generate_delete_params] *)
Definition _generate_delete_params : M St value :=
  num_ids <- randint 1 50 ;;
  ids <- list_of num_ids random_id ;;
  invalid <- random_lt float_0_2 ;;
  let ids :=
    if invalid
    then ids ++ [VStr "invalid_id_1"; VStr "nonexistent_id"; VStr ""]
    else ids in
  collection_name <- _generate_collection_name ;;
  ret (VDict [("ids", VList ids); ("collection_name", collection_name)]).

(** [_generate_batch_insert_params] *)
Definition _generate_batch_insert_params : M St value := _generate_insert_params.

(** [_generate_batch_search_params] *)
Definition _generate_batch_search_params : M St value :=
  num_queries <- randint 1 10 ;;
  query_vectors <- list_of num_queries (_generate_vector None) ;;
  limit <- randint 1 50 ;;
  metric_type <- choice ["L2"; "cosine"; "ip"] ;;
  collection_name <- _generate_collection_name ;;
  ret (VDict [("query_vectors", VList query_vectors); ("limit", VInt limit);
              ("metric_type", VStr metric_type);
              ("collection_name", collection_name)]).

(** One iteration of the loop of [_generate_mixed_operations_params]: the
    new value of [op_params], given the one the iteration before left. *)
Definition mixed_sub_operation (op_params : option value) : M St value :=
  op_type <- choice ["insert"; "search"; "delete"] ;;
  if String.eqb op_type "insert" then
    vector <- _generate_vector None ;;
    id <- random_id ;;
    ret (VDict [("type", VStr "insert"); ("vectors", VList [vector]);
                ("id", id)])
  else if String.eqb op_type "search" then
    query_vector <- _generate_vector None ;;
    limit <- randint 1 20 ;;
    ret (VDict [("type", VStr "search"); ("query_vector", query_vector);
                ("limit", VInt limit)])
  else if String.eqb op_type "delete" then
    id <- random_id ;;
    ret (VDict [("type", VStr "delete"); ("ids", VList [id])])
  else
    match op_params with
    | Some previous => ret previous
    | None =>
        raise (mkExn Exception
                 "local variable 'op_params' referenced before assignment")
    end.

(** [_generate_mixed_operations_params] *)
Definition _generate_mixed_operations_params : M St value :=
  num_operations <- randint 2 10 ;;
  looped <- for_each (range num_operations)
    (fun _ '(op_params, operations) =>
       op_params <- mixed_sub_operation op_params ;;
       ret (Some op_params, operations ++ [op_params])) (None, []) ;;
  collection_name <- _generate_collection_name ;;
  ret (VDict [("operations", VList looped.2);
              ("collection_name", collection_name)]).

(** [self.operations] *)
Definition operations : list string :=
  ["insert"; "search"; "delete"; "batch_insert"; "batch_search";
   "mixed_operations"].

(** [generate_test] *)
Definition generate_test : M St (string * value) :=
  operation <- choice operations ;;
  if String.eqb operation "insert" then
    inputs <- _generate_insert_params ;; ret ("insert", inputs)
  else if String.eqb operation "search" then
    inputs <- _generate_search_params ;; ret ("search", inputs)
  else if String.eqb operation "delete" then
    inputs <- _generate_delete_params ;; ret ("delete", inputs)
  else if String.eqb operation "batch_insert" then
    inputs <- _generate_batch_insert_params ;; ret ("batch_insert", inputs)
  else if String.eqb operation "batch_search" then
    inputs <- _generate_batch_search_params ;; ret ("batch_search", inputs)
  else if String.eqb operation "mixed_operations" then
    inputs <- _generate_mixed_operations_params ;;
    ret ("mixed_operations", inputs)
  else ret ("unknown", VDict []).
End Generator.

(** [c] returns, in every state, and what it returns satisfies [P]. *)
Definition returns {St A} (c : M St A) (P : A -> Prop) : Prop :=
  forall w, exists a w', c w = (Ok a, w') /\ P a.

Definition isinstance_float (v : value) : bool :=
  match v with VFloat _ => true | _ => false end.

Definition isinstance_str (v : value) : bool :=
  match v with VStr _ => true | _ => false end.

(** A list of floats. *)
Definition float_vector (v : value) : bool :=
  match v with
  | VList items => forallb isinstance_float items
  | _ => false
  end.

(** The sub-operations [_generate_mixed_operations_params] builds. *)
Definition generated_sub_operation (op : value) : Prop :=
  (exists vector id,
     op = VDict [("type", VStr "insert"); ("vectors", VList [vector]); ("id", id)]
     /\ float_vector vector = true /\ isinstance_str id = true)
  \/ (exists query_vector limit,
        op = VDict [("type", VStr "search"); ("query_vector", query_vector);
                    ("limit", VInt limit)]
        /\ float_vector query_vector = true /\ (1 <= limit <= 20)%Z)
  \/ (exists id,
        op = VDict [("type", VStr "delete"); ("ids", VList [id])]
        /\ isinstance_str id = true).

(** The inputs [_generate_insert_params] builds. *)
Definition generated_insert_inputs (config : FuzzConfig) (inputs : value) : Prop :=
  exists vectors ids metadata name,
    inputs = VDict [("vectors", VList vectors); ("ids", VList ids);
                    ("metadata", VList metadata); ("collection_name", VStr name)]
    /\ length ids = length vectors /\ length metadata = length vectors
    /\ (1 <= Z.of_nat (length vectors) <= max_vectors_per_batch config)%Z
    /\ Forall (fun v => float_vector v = true) vectors
    /\ Forall (fun v => isinstance_str v = true) ids
    /\ Forall (fun v => v = VNone \/ isinstance_dict v = true) metadata.

(** The inputs [_generate_mixed_operations_params] builds. *)
Definition generated_mixed_inputs (inputs : value) : Prop :=
  exists ops name,
    inputs = VDict [("operations", VList ops); ("collection_name", VStr name)]
    /\ (2 <= length ops <= 10)%nat
    /\ Forall generated_sub_operation ops.

(** Inputs that carry the entry their operation needs and a collection
    name. *)
Definition ready_for (operation : string) (inputs : value) : Prop :=
  exists d key v name,
    inputs = VDict d
    /\ required_key operation = Some key /\ dict_get key d = Some v
    /\ dict_get "collection_name" d = Some (VStr name).

(** The parameters with which the source builds a [FuzzConfig] that
    [_generate_insert_params] and [_generate_metadata] can work with. *)
Definition usable_config (config : FuzzConfig) : Prop :=
  (1 <= max_vectors_per_batch config)%Z /\ (0 <= max_metadata_size config)%Z.

(** Inputs on which the [try] block of [_safe_execute] reaches the end
    whenever the adapter answers: the entry the operation needs is there,
    the query vectors of a batch_search are a list, the sub-operations of
    mixed_operations are as the generator builds them. *)
Definition runnable (operation : string) (inputs : value) : Prop :=
  ready_for operation inputs
  /\ (operation = "batch_search" ->
      exists d queries,
        inputs = VDict d /\ dict_get "query_vectors" d = Some (VList queries))
  /\ (operation = "mixed_operations" -> generated_mixed_inputs inputs).

(** An adapter that answers every call. *)
Definition answers {St} (client : Client St) : Prop :=
  (forall collection_name vectors ids metadata s,
     exists payload s',
       insert_vectors client collection_name vectors ids metadata s
       = (Ok payload, s'))
  /\ (forall collection_name query_vector limit metric_type s,
        exists payload s',
          search_vectors client collection_name query_vector limit metric_type s
          = (Ok payload, s'))
  /\ (forall collection_name ids s,
        exists payload s',
          delete_vectors client collection_name ids s = (Ok payload, s')).

(** A source of random numbers that always gives the same ones. *)
Definition fixed_random : Random unit :=
  mkRandom (fun s => (1 # 2, s)) (fun _ _ s => (FFinite false 0 0, s))
           (fun s => (0%N, s)).

(** The scenarios of [generate_edge_case_test]. *)
Definition edge_cases : list string :=
  ["empty_vector"; "very_large_vector"; "nan_values"; "inf_values";
   "very_large_batch"; "empty_metadata"; "malformed_id";
   "nonexistent_collection"].

Section GeneratorEdgeCases.
Context {St : Type} (rnd : Random St) (config : FuzzConfig).
Local Open Scope monad_scope.

(** [[special if i % 10 == 0 else random.uniform(-1, 1)
      for i in range(self.config.vector_dimension)]] *)
Definition special_vector (special : pyfloat) : M St (list value) :=
  for_each (range (vector_dimension config))
    (fun i items =>
       x <- (if (i mod 10 =? 0)%Z then ret (VFloat special)
             else uniform rnd (-1) 1) ;;
       ret (items ++ [x])) [].

(** [generate_edge_case_test] *)
Definition generate_edge_case_test : M St (string * value) :=
  edge_case <- choice rnd edge_cases ;;
  if String.eqb edge_case "empty_vector" then
    collection_name <- _generate_collection_name rnd ;;
    ret ("insert",
         VDict [("vectors", VList [VList []]); ("ids", VList [VStr "empty_id"]);
                ("metadata", VList [VDict []]);
                ("collection_name", collection_name)])
  else if String.eqb edge_case "very_large_vector" then
    vector <- list_of 10000%Z (uniform rnd (-1) 1) ;;
    collection_name <- _generate_collection_name rnd ;;
    ret ("insert",
         VDict [("vectors", VList [VList vector]);
                ("ids", VList [VStr "large_vector_id"]);
                ("metadata", VList [VDict []]);
                ("collection_name", collection_name)])
  else if String.eqb edge_case "nan_values" then
    vector <- special_vector FNan ;;
    collection_name <- _generate_collection_name rnd ;;
    ret ("search",
         VDict [("query_vector", VList vector); ("limit", VInt 10);
                ("metric_type", VStr "L2");
                ("collection_name", collection_name)])
  else if String.eqb edge_case "inf_values" then
    vector <- special_vector (FInf false) ;;
    collection_name <- _generate_collection_name rnd ;;
    ret ("search",
         VDict [("query_vector", VList vector); ("limit", VInt 10);
                ("metric_type", VStr "L2");
                ("collection_name", collection_name)])
  else if String.eqb edge_case "very_large_batch" then
    vectors <- list_of 1000%Z
                 (vector <- list_of (vector_dimension config)
                                    (uniform rnd (-1) 1) ;;
                  ret (VList vector)) ;;
    let ids := map (fun i => VStr ("id_" ++ pretty i)) (range 1000%Z) in
    let metadata := map (fun _ => VDict []) (range 1000%Z) in
    collection_name <- _generate_collection_name rnd ;;
    ret ("batch_insert",
         VDict [("vectors", VList vectors); ("ids", VList ids);
                ("metadata", VList metadata);
                ("collection_name", collection_name)])
  else if String.eqb edge_case "empty_metadata" then
    vector <- _generate_vector rnd config None ;;
    collection_name <- _generate_collection_name rnd ;;
    ret ("insert",
         VDict [("vectors", VList [vector]);
                ("ids", VList [VStr "empty_metadata_id"]);
                ("metadata", VList [VDict []]);
                ("collection_name", collection_name)])
  else if String.eqb edge_case "malformed_id" then
    collection_name <- _generate_collection_name rnd ;;
    ret ("delete",
         VDict [("ids", VList [VStr ""; VStr "invalid@id"; VStr "id with spaces"]);
                ("collection_name", collection_name)])
  else if String.eqb edge_case "nonexistent_collection" then
    vector <- _generate_vector rnd config None ;;
    ret ("search",
         VDict [("query_vector", vector); ("limit", VInt 10);
                ("metric_type", VStr "L2");
                ("collection_name", VStr "nonexistent_collection")])
  else ret ("unknown", VDict []).
End GeneratorEdgeCases.

(** * Lemmas and theorems *)

Lemma dict_find_get {A B} (f : A -> B) k d :
  dict_find f k d = option_map f (dict_get k d).
Proof.
  induction d as [|[k' v] d IH]; simpl; [done|].
  by destruct (String.eqb k k').
Qed.

(** ** Reasoning about dictionaries *)

Lemma String_eqb_eq_iff (a b : string) : String.eqb a b = true <-> a = b.
Proof. apply String.eqb_eq. Qed.

Section DictFacts.
Context {A : Type}.
Implicit Types (d : list (string * A)) (k : string) (v : A).

Lemma dict_get_None k d : k ∉ dict_keys d -> dict_get k d = None.
Proof.
  induction d as [|[k' v'] d IH]; simpl; [done|].
  intros Hk. destruct (String.eqb_spec k k') as [->|Hne].
  - exfalso. apply Hk. left.
  - apply IH. intros Hin. apply Hk. by right.
Qed.

Lemma dict_set_fresh k v d :
  k ∉ dict_keys d -> dict_set k v d = d ++ [(k, v)].
Proof.
  induction d as [|[k' v'] d IH]; simpl; [done|].
  intros Hk. destruct (String.eqb_spec k k') as [->|Hne].
  - exfalso. apply Hk. left.
  - f_equal. apply IH. intros Hin. apply Hk. by right.
Qed.

Lemma dict_keys_app d1 d2 : dict_keys (d1 ++ d2) = dict_keys d1 ++ dict_keys d2.
Proof. apply map_app. Qed.

Lemma dict_get_head k v d : dict_get k ((k, v) :: d) = Some v.
Proof. simpl. by rewrite String.eqb_refl. Qed.
End DictFacts.

(** A loop that stores one entry per key of a dictionary builds the
    dictionary of the selected entries, in order. *)
Lemma fold_dict_set {X A} (key : X -> string) (f : X -> option A) (xs : list X)
      (acc : list (string * A)) :
  NoDup (dict_keys acc ++ map key xs) ->
  fold_left (fun acc x => match f x with
                          | Some v => dict_set (key x) v acc
                          | None => acc
                          end) xs acc
  = acc ++ omap (fun x => match f x with Some v => Some (key x, v) | None => None end) xs.
Proof.
  revert acc. induction xs as [|x xs IH]; intros acc Hnd; simpl.
  - by rewrite app_nil_r.
  - apply NoDup_app in Hnd as (Hacc & Hdisj & Hxs).
    apply NoDup_cons in Hxs as [Hx Hxs].
    assert (Hfresh : key x ∉ dict_keys acc).
    { intros Hin. apply (Hdisj _ Hin). left. }
    destruct (f x) as [v|].
    + rewrite IH.
      * rewrite dict_set_fresh by done. by rewrite <- app_assoc.
      * rewrite dict_set_fresh by done. rewrite dict_keys_app. simpl.
        rewrite <- app_assoc. simpl.
        apply NoDup_app. split; [done|]. split.
        -- intros k Hk [->|Hin]%elem_of_cons; [done|].
           apply (Hdisj _ Hk). by right.
        -- by apply NoDup_cons.
    + apply IH. apply NoDup_app. split; [done|]. split; [|done].
      intros k Hk Hin. apply (Hdisj _ Hk). by right.
Qed.

Section MonadFacts.
Context {St : Type}.
Implicit Types (w : world St) (m : list (string * DatabaseResult)).

Lemma extends_refl w : extends w w.
Proof. split; [|done]. exists []. by rewrite app_nil_r. Qed.

Lemma extends_trans w1 w2 w3 : extends w1 w2 -> extends w2 w3 -> extends w1 w3.
Proof.
  intros [[f1 H1] O1] [[f2 H2] O2]. split; [|congruence].
  exists (f1 ++ f2). by rewrite H2, H1, app_assoc.
Qed.

Lemma extends_lookup w w' (l : loc) (o : object) :
  extends w w' -> objects w !! l = Some o -> objects w' !! l = Some o.
Proof. intros [[f ->] _] H. by apply lookup_app_l_Some. Qed.

Lemma holds_results_extends w w' es m :
  extends w w' -> holds_results w es m -> holds_results w' es m.
Proof.
  intros Hext Hes. eapply Forall2_impl; [exact Hes|].
  intros e s [? ?]. split; [done|]. by eapply extends_lookup.
Qed.

Lemma results_at_extends w w' l m :
  extends w w' -> results_at w l m -> results_at w' l m.
Proof.
  intros Hext (Hnd & es & Hl & Hes). split; [done|].
  exists es. split; [by eapply extends_lookup|by eapply holds_results_extends].
Qed.

Lemma holds_results_keys w es m : holds_results w es m -> dict_keys es = dict_keys m.
Proof.
  induction 1 as [|e s es m [He _] _ IH]; simpl; [done|]. by rewrite He, IH.
Qed.

Lemma allocates_only_ret {A} (a : A) : allocates_only (St:=St) (ret a).
Proof. intros w. apply extends_refl. Qed.

Lemma allocates_only_raise {A} e : allocates_only (St:=St) (raise (A:=A) e).
Proof. intros w. apply extends_refl. Qed.

Lemma allocates_only_lift {A} (r : result A) : allocates_only (St:=St) (lift r).
Proof. intros w. apply extends_refl. Qed.

Lemma allocates_only_alloc o : allocates_only (St:=St) (alloc o).
Proof. intros w. split; [|done]. by exists [o]. Qed.

Lemma allocates_only_get_dict attr l : allocates_only (St:=St) (get_dict attr l).
Proof.
  intros w. unfold get_dict.
  destruct (objects w !! l) as [[]|]; apply extends_refl.
Qed.

Lemma allocates_only_get_result attr l : allocates_only (St:=St) (get_result attr l).
Proof.
  intros w. unfold get_result.
  destruct (objects w !! l) as [[]|]; apply extends_refl.
Qed.

Lemma allocates_only_bind {A B} (c : M St A) (k : A -> M St B) :
  allocates_only c -> (forall a, allocates_only (k a)) -> allocates_only (bind c k).
Proof.
  intros Hc Hk w. unfold bind. specialize (Hc w).
  destruct (c w) as [[a|e] w1]; [|done].
  eapply extends_trans; [exact Hc|apply Hk].
Qed.

Lemma allocates_only_try_except {A} (c : M St A) (h : exn -> M St A) :
  allocates_only c -> (forall e, allocates_only (h e)) ->
  allocates_only (try_except c h).
Proof.
  intros Hc Hh w. unfold try_except. specialize (Hc w).
  destruct (c w) as [[a|e] w1]; [done|].
  eapply extends_trans; [exact Hc|apply Hh].
Qed.

Lemma allocates_only_for_each {A X} (xs : list X) (body : X -> A -> M St A) acc :
  (forall x a, allocates_only (body x a)) -> allocates_only (for_each xs body acc).
Proof.
  intros Hbody. revert acc. induction xs as [|x xs IH]; intros acc; simpl.
  - apply allocates_only_ret.
  - apply allocates_only_bind; [apply Hbody|apply IH].
Qed.

(** A loop over the entries of a dictionary whose body only reads the
    [DatabaseResult] of its entry computes a fold over the results held. *)
Lemma for_each_reads {A} (body : string * loc -> A -> M St A)
      (step : string -> DatabaseResult -> A -> result A) w es m acc :
  holds_results w es m ->
  (forall k l r a, objects w !! l = Some (OResult r) ->
                   body (k, l) a w = (step k r a, w)) ->
  for_each es body acc w = (fold_result (fun s => step s.1 s.2) m acc, w).
Proof.
  intros Hes Hbody. revert acc.
  induction Hes as [|[k l] [k' r] es m [Hk Hl] _ IH]; intros acc; simpl in *.
  - done.
  - subst k'. unfold bind. rewrite (Hbody k l r acc Hl).
    destruct (step k r acc) as [a|e]; simpl; [apply IH|done].
Qed.

Lemma bind_ok {A B} (c : M St A) (k : A -> M St B) w a w' :
  c w = (Ok a, w') -> bind c k w = k a w'.
Proof. intros H. unfold bind. by rewrite H. Qed.

Lemma bind_raise {A B} (c : M St A) (k : A -> M St B) w e w' :
  c w = (Raise e, w') -> bind c k w = (Raise e, w').
Proof. intros H. unfold bind. by rewrite H. Qed.

Lemma get_data_at w l r :
  objects w !! l = Some (OResult r) -> get_data (St:=St) l w = (Ok (data r), w).
Proof. intros H. unfold get_data, bind, get_result. by rewrite H. Qed.

Lemma get_success_at w l r :
  objects w !! l = Some (OResult r) -> get_success (St:=St) l w = (Ok (success r), w).
Proof. intros H. unfold get_success, bind, get_result. by rewrite H. Qed.

Lemma dict_items_at w l es :
  objects w !! l = Some (ODict es) -> dict_items (St:=St) l w = (Ok es, w).
Proof. intros H. unfold dict_items, get_dict. by rewrite H. Qed.
End MonadFacts.

Ltac frame_step :=
  lazymatch goal with
  | |- allocates_only (bind _ _) => apply allocates_only_bind; [|intros ?]
  | |- allocates_only (ret _) => apply allocates_only_ret
  | |- allocates_only (raise _) => apply allocates_only_raise
  | |- allocates_only (lift _) => apply allocates_only_lift
  | |- allocates_only (alloc _) => apply allocates_only_alloc
  | |- allocates_only (get_dict _ _) => apply allocates_only_get_dict
  | |- allocates_only (get_result _ _) => apply allocates_only_get_result
  | |- allocates_only (try_except _ _) =>
      apply allocates_only_try_except; [|intros ?]
  | |- allocates_only (for_each _ _ _) =>
      apply allocates_only_for_each; intros ? ?
  | |- allocates_only ((match ?x with _ => _ end) _) => destruct x; cbn beta iota
  | |- allocates_only (match ?x with _ => _ end) => destruct x
  | |- allocates_only ((fun _ => _) _) => cbn beta
  | |- allocates_only ((fun _ => _) _ _) => cbn beta
  end.

Ltac frame := repeat frame_step.

Section Frame.
Context (py_str : value -> string) {St : Type}.

Lemma allocates_only_dict_comprehension (keep : loc -> M St bool) results :
  (forall v, allocates_only (keep v)) ->
  allocates_only (dict_comprehension keep results).
Proof.
  intros Hkeep. unfold dict_comprehension, dict_items. frame. apply Hkeep.
Qed.

Lemma allocates_only_comparator operation results :
  allocates_only (comparator_for (St:=St) py_str operation results).
Proof.
  unfold comparator_for.
  destruct (dict_get operation (result_comparators py_str)) as [c|] eqn:Hc.
  - unfold result_comparators in Hc. simpl in Hc.
    repeat match type of Hc with
           | (if ?b then _ else _) = _ => destruct b
           end;
      try discriminate; injection Hc as <-.
    + unfold _compare_insert_results, dict_items, get_data. frame.
    + unfold _compare_search_results, search_ids_of, dict_items, get_data. frame.
    + unfold _compare_delete_results, dict_items, get_data. frame.
    + unfold _compare_insert_results, dict_items, get_data. frame.
    + unfold _compare_batch_search_results, compare_query, query_ids_of,
        dict_truth, dict_items, get_data. frame.
    + unfold _compare_mixed_operation_results, dict_items, get_data. frame.
  - unfold _compare_generic_results, dict_items, get_success. frame.
Qed.

Lemma allocates_only_compare_results operation results :
  allocates_only (_compare_results (St:=St) py_str operation results).
Proof.
  unfold _compare_results.
  apply allocates_only_bind;
    [apply allocates_only_dict_comprehension; intros v; unfold get_success; frame|].
  intros successful_results.
  apply allocates_only_bind;
    [apply allocates_only_dict_comprehension; intros v; unfold get_success; frame|].
  intros failed_results.
  unfold dict_truth, dict_key_list, dict_len.
  frame; apply allocates_only_comparator.
Qed.
End Frame.

Lemma fold_result_ok {A X} (g : A -> X -> A) (xs : list X) (acc : A) :
  fold_result (fun x a => Ok (g a x)) xs acc = Ok (fold_left g xs acc).
Proof. revert acc. induction xs as [|x xs IH]; intros acc; simpl; [done|apply IH]. Qed.

Lemma collect_keys {A} (f : string -> DatabaseResult -> result (option A)) m d :
  collect f m = Ok d -> forall k, k ∈ dict_keys d -> k ∈ dict_keys m.
Proof.
  revert d. induction m as [|[k0 r] m IH]; intros d; simpl.
  - intros [= <-] k Hk. done.
  - destruct (f k0 r) as [o|e]; simpl; [|done].
    destruct (collect f m) as [rest|e]; simpl; [|done].
    intros [= <-] k Hk. specialize (IH rest eq_refl k).
    destruct o; simpl in *.
    + apply elem_of_cons in Hk as [->|Hk]; [left|right; auto].
    + right; auto.
Qed.

(** A loop that stores at most one entry per adapter builds the dictionary
    of the collected entries. *)
Lemma fold_result_collect {A} (f : string -> DatabaseResult -> result (option A))
      (m : list (string * DatabaseResult)) (acc : list (string * A)) :
  NoDup (dict_keys acc ++ dict_keys m) ->
  fold_result (fun s a => rbind (f s.1 s.2) (fun o =>
                 Ok (match o with Some v => dict_set s.1 v a | None => a end)))
              m acc
  = rmap (app acc) (collect f m).
Proof.
  revert acc. induction m as [|[k r] m IH]; intros acc Hnd; simpl.
  - unfold rmap. simpl. by rewrite app_nil_r.
  - apply NoDup_app in Hnd as (Hacc & Hdisj & Hm).
    simpl in Hm. apply NoDup_cons in Hm as [Hk Hm].
    assert (Hfresh : k ∉ dict_keys acc).
    { intros Hin. apply (Hdisj _ Hin). left. }
    destruct (f k r) as [[v|]|e]; simpl; [| |done].
    + rewrite dict_set_fresh by done. rewrite IH.
      * destruct (collect f m) as [rest|e]; simpl; [|done].
        unfold rmap. simpl. by rewrite <- app_assoc.
      * rewrite dict_keys_app. simpl. rewrite <- app_assoc. simpl.
        apply NoDup_app. split; [done|]. split.
        -- intros k' Hk' [->|Hin]%elem_of_cons; [done|].
           apply (Hdisj _ Hk'). by right.
        -- by apply NoDup_cons.
    + rewrite IH.
      * by destruct (collect f m).
      * apply NoDup_app. split; [done|]. split; [|done].
        intros k' Hk' Hin. apply (Hdisj _ Hk'). by right.
Qed.

Lemma collect_total {A} (g : DatabaseResult -> A) m :
  collect (fun _ r => Ok (Some (g r))) m = Ok (map (fun s => (s.1, g s.2)) m).
Proof. induction m as [|[k r] m IH]; simpl; [done|]. by rewrite IH. Qed.

Section Runs.
Context (py_str : value -> string) {St : Type}.
Implicit Types (w : world St) (m : list (string * DatabaseResult)).

Lemma for_each_pure {A X} (body : X -> A -> M St A) (step : X -> A -> result A)
      xs acc w :
  (forall x a, body x a w = (step x a, w)) ->
  for_each xs body acc w = (fold_result step xs acc, w).
Proof.
  intros Hbody. revert acc. induction xs as [|x xs IH]; intros acc; simpl; [done|].
  unfold bind. rewrite Hbody. destruct (step x acc); simpl; [apply IH|done].
Qed.

(** A loop of the comparators: one read of [result.data] (or of
    [v.success]) per adapter, then at most one entry stored. *)
Lemma collect_loop {A} (body : string * loc -> list (string * A) -> M St (list (string * A)))
      (f : string -> DatabaseResult -> result (option A)) w m es :
  NoDup (dict_keys m) -> holds_results w es m ->
  (forall k l r a, objects w !! l = Some (OResult r) ->
     body (k, l) a w
     = (rbind (f k r) (fun o =>
          Ok (match o with Some v => dict_set k v a | None => a end)), w)) ->
  for_each es body [] w = (collect f m, w).
Proof.
  intros Hnd Hes Hbody.
  rewrite (for_each_reads body
             (fun k r a => rbind (f k r) (fun o =>
                Ok (match o with Some v => dict_set k v a | None => a end)))
             w es m []) by done.
  rewrite (fold_result_collect f m []) by done.
  unfold rmap. by destruct (collect f m).
Qed.
End Runs.

Lemma compare_with_reference_others message reference_db reference_ids
      (search_results : list (string * gset string)) :
  reference_db ∉ dict_keys search_results ->
  compare_with_reference message reference_db reference_ids search_results
  = flat_map (fun s => if differ_significantly reference_ids s.2
                       then [message reference_db s.1
                                     (overlap_percent reference_ids s.2)]
                       else []) search_results.
Proof.
  intros Hfresh. unfold compare_with_reference.
  induction search_results as [|[db ids] rest IH]; simpl; [done|].
  assert (Hne : String.eqb db reference_db = false).
  { apply String.eqb_neq. intros ->. apply Hfresh. left. }
  rewrite Hne. simpl. f_equal. apply IH.
  intros Hin. apply Hfresh. by right.
Qed.

Lemma forallb_of_map {X Y} (p : Y -> bool) (g : X -> Y) (xs : list X) :
  forallb p (map g xs) = forallb (fun x => p (g x)) xs.
Proof. induction xs as [|x xs IH]; simpl; [done|]. by rewrite IH. Qed.

Lemma flat_map_of_map {X Y Z} (f : Y -> list Z) (g : X -> Y) (xs : list X) :
  flat_map f (map g xs) = flat_map (fun x => f (g x)) xs.
Proof. induction xs as [|x xs IH]; simpl; [done|]. by rewrite IH. Qed.

Section ComparatorRuns.
Context (py_str : value -> string) {St : Type}.
Implicit Types (w : world St) (m : list (string * DatabaseResult)).

Lemma generic_run w l m :
  results_at w l m ->
  _compare_generic_results l w
  = (Ok (if forallb (fun s => success s.2) m then []
         else [OperationStatusMismatch (map (fun s => (s.1, success s.2)) m)]), w).
Proof.
  intros (Hnd & es & Hl & Hes). unfold _compare_generic_results, bind.
  rewrite (dict_items_at w l es Hl).
  rewrite (collect_loop _ (fun _ r => Ok (Some (success r))) w m es Hnd Hes).
  - rewrite collect_total. unfold dict_values. rewrite map_map. simpl.
    rewrite forallb_of_map. unfold ret. simpl.
    by destruct (forallb _ m).
  - intros k l0 r a Hr. unfold bind. by rewrite (get_success_at w l0 r Hr).
Qed.

Lemma search_run w l m :
  results_at w l m ->
  _compare_search_results py_str l w = (Ok (search_expected py_str m), w).
Proof.
  intros (Hnd & es & Hl & Hes). unfold _compare_search_results, bind.
  rewrite (dict_items_at w l es Hl).
  rewrite (collect_loop _ (fun _ r => Ok (Some (id_set py_str (data r)))) w m es Hnd Hes).
  - rewrite collect_total.
    destruct m as [|[reference_db reference] others]; simpl; [done|].
    rewrite String.eqb_refl. unfold ret. f_equal. f_equal.
    simpl in Hnd. apply NoDup_cons in Hnd as [Hfresh _].
    rewrite compare_with_reference_others.
    + unfold flag_pairs. by rewrite flat_map_of_map.
    + unfold dict_keys in *. rewrite map_map. simpl. done.
  - intros k l0 r a Hr. unfold search_ids_of, try_except, bind.
    rewrite (get_data_at w l0 r Hr). unfold lift, id_set.
    by destruct (_extract_search_result_ids py_str (data r)).
Qed.
End ComparatorRuns.

Lemma fold_left_app_flat_map {X Y} (g : X -> list Y) (xs : list X) (acc : list Y) :
  fold_left (fun a x => a ++ g x) xs acc = acc ++ flat_map g xs.
Proof.
  revert acc. induction xs as [|x xs IH]; intros acc; simpl.
  - by rewrite app_nil_r.
  - by rewrite IH, app_assoc.
Qed.

Lemma py_set_len_hashable (vs : list value) :
  forallb hashable vs = true -> py_set_len vs = Ok (distinct_values vs).
Proof.
  intros H. unfold py_set_len.
  destruct (List.find _ vs) as [v|] eqn:Hf; [|done].
  apply find_some in Hf as [Hin Hv].
  rewrite forallb_forall in H. rewrite (H v Hin) in Hv. done.
Qed.

Lemma insert_count_of_spec db_name data success_counts :
  insert_count_of db_name data success_counts
  = rbind (accepted_count data) (fun o =>
      Ok (match o with
          | Some v => dict_set db_name v success_counts
          | None => success_counts
          end)).
Proof.
  unfold insert_count_of, accepted_count.
  destruct data as [| | | | | |d]; try done. simpl.
  unfold dict_contains.
  destruct (dict_get "insert_count" d) as [c|]; simpl; [done|].
  destruct (dict_get "status" d) as [st|]; simpl; [|done].
  by destruct (py_len _).
Qed.

Lemma delete_status_of_spec db_name data success_status :
  delete_status_of db_name data success_status
  = rbind (delete_status data) (fun v => Ok (dict_set db_name v success_status)).
Proof.
  unfold delete_status_of, delete_status.
  destruct data as [| | | | | |d]; try done. simpl.
  by destruct (py_lower _).
Qed.

Section ComparatorRuns2.
Context (py_str : value -> string) {St : Type}.
Implicit Types (w : world St) (m : list (string * DatabaseResult)).

Lemma insert_run w l m :
  results_at w l m ->
  _compare_insert_results l w
  = (rbind (collect (fun _ r => accepted_count (data r)) m) (fun success_counts =>
     rbind (py_set_len (dict_values success_counts)) (fun distinct =>
     if (1 <? distinct)%nat
     then rmap (fun message => [message]) (insert_count_message success_counts)
     else Ok [])),
     w).
Proof.
  intros (Hnd & es & Hl & Hes). unfold _compare_insert_results, bind.
  rewrite (dict_items_at w l es Hl).
  rewrite (collect_loop _ (fun _ r => accepted_count (data r)) w m es Hnd Hes).
  - destruct (collect _ m) as [counts|e]; simpl; [|done].
    unfold lift. destruct (py_set_len _) as [n|e]; simpl; [|done].
    destruct (1 <? n)%nat; [|done].
    by destruct (insert_count_message counts).
  - intros k l0 r a Hr. unfold bind. rewrite (get_data_at w l0 r Hr).
    unfold lift. by rewrite insert_count_of_spec.
Qed.

Lemma delete_run w l m :
  results_at w l m ->
  _compare_delete_results l w
  = (rbind (collect (fun _ r => rmap Some (delete_status (data r))) m)
       (fun success_status =>
          Ok (if forallb py_truth (dict_values success_status) then []
              else [DeleteStatusMismatch success_status])),
     w).
Proof.
  intros (Hnd & es & Hl & Hes). unfold _compare_delete_results, bind.
  rewrite (dict_items_at w l es Hl).
  rewrite (collect_loop _ (fun _ r => rmap Some (delete_status (data r))) w m es Hnd Hes).
  - destruct (collect _ m) as [st|e]; simpl; [|done].
    unfold ret. by destruct (forallb _ _).
  - intros k l0 r a Hr. unfold bind. rewrite (get_data_at w l0 r Hr).
    unfold lift. rewrite delete_status_of_spec. unfold rmap.
    by destruct (delete_status (data r)).
Qed.

Lemma mixed_run w l m :
  results_at w l m ->
  _compare_mixed_operation_results l w
  = (let operation_counts := map (fun s => (s.1, operation_count_of (data s.2))) m in
     Ok (if (1 <? distinct_values (dict_values operation_counts))%nat
         then [MixedCountMismatch operation_counts] else []), w).
Proof.
  intros (Hnd & es & Hl & Hes). unfold _compare_mixed_operation_results, bind.
  rewrite (dict_items_at w l es Hl).
  rewrite (collect_loop _ (fun _ r => Ok (Some (operation_count_of (data r)))) w m es Hnd Hes).
  - rewrite collect_total. cbv zeta. unfold lift.
    rewrite py_set_len_hashable.
    + by destruct (1 <? _)%nat.
    + unfold dict_values. rewrite map_map. simpl. rewrite forallb_of_map.
      apply forallb_forall. intros [k r] _. simpl.
      unfold operation_count_of. by destruct (data r).
  - intros k l0 r a Hr. unfold bind. by rewrite (get_data_at w l0 r Hr).
Qed.

Lemma compare_query_run w l reference others query_idx inconsistencies :
  results_at w l (reference :: others) ->
  compare_query py_str l reference.1 query_idx inconsistencies w
  = (Ok (inconsistencies ++
         flag_pairs (BatchSearchResultsDiffer query_idx)
                    (query_id_set py_str query_idx) reference others), w).
Proof.
  intros (Hnd & es & Hl & Hes). unfold compare_query, bind.
  rewrite (dict_items_at w l es Hl).
  rewrite (collect_loop _ (fun _ r => Ok (Some (query_id_set py_str query_idx (data r))))
                        w _ es Hnd Hes).
  - rewrite collect_total. destruct reference as [reference_db reference].
    cbn [map fst snd length].
    destruct others as [|other others].
    + simpl. unfold ret. by rewrite app_nil_r.
    + cbn [length Nat.ltb Nat.leb]. rewrite dict_get_head. unfold ret.
      f_equal. f_equal. f_equal.
      simpl in Hnd. apply NoDup_cons in Hnd as [Hfresh _].
      unfold compare_with_reference at 1. cbn [flat_map fst snd].
      rewrite String.eqb_refl. cbn [negb andb app].
      fold (compare_with_reference (BatchSearchResultsDiffer query_idx)
              reference_db (query_id_set py_str query_idx (data reference))
              (map (fun s : string * DatabaseResult =>
                      (s.1, query_id_set py_str query_idx (data s.2)))
                   (other :: others))).
      rewrite compare_with_reference_others.
      * unfold flag_pairs. by rewrite flat_map_of_map.
      * unfold dict_keys in *. rewrite map_map. done.
  - intros k l0 r a Hr. unfold query_ids_of, try_except, bind.
    rewrite (get_data_at w l0 r Hr). unfold query_id_set, id_set.
    destruct (data r) as [| | | | |lst|]; try done.
    destruct (lst !! query_idx) as [answer|]; [|done].
    unfold lift. by destruct (_extract_search_result_ids py_str answer).
Qed.

Lemma batch_search_run w l m :
  results_at w l m ->
  _compare_batch_search_results py_str l w = (Ok (batch_search_expected py_str m), w).
Proof.
  intros Hat. pose proof Hat as (Hnd & es & Hl & Hes).
  unfold _compare_batch_search_results, bind, dict_truth, bind.
  unfold get_dict at 1. rewrite Hl. unfold ret at 1.
  destruct Hes as [|[k l0] [k' reference] es m [Hk Hl0] Hes]; simpl in *; [done|].
  subst k'. rewrite (dict_items_at w l _ Hl).
  rewrite (get_data_at w l0 reference Hl0).
  destruct (data reference) as [| | | | |lst|] eqn:Hdata; try done.
  rewrite (for_each_pure _
             (fun query_idx acc =>
                Ok (acc ++ flag_pairs (BatchSearchResultsDiffer query_idx)
                                      (query_id_set py_str query_idx)
                                      (k, reference) m))).
  - rewrite (fold_result_ok (fun acc query_idx => acc ++ _)).
    by rewrite fold_left_app_flat_map.
  - intros query_idx acc.
    exact (compare_query_run w l (k, reference) m query_idx acc Hat).
Qed.
End ComparatorRuns2.

Lemma dict_keys_filter_elem {A} (p : string * A -> bool) (d : list (string * A)) k :
  k ∈ dict_keys (List.filter p d) -> k ∈ dict_keys d.
Proof.
  induction d as [|[k' v] d IH]; simpl; [done|].
  destruct (p (k', v)); simpl.
  - intros [->|Hin]%elem_of_cons; [left|right; auto].
  - intros Hin. right; auto.
Qed.

Lemma NoDup_dict_keys_filter {A} (p : string * A -> bool) (d : list (string * A)) :
  NoDup (dict_keys d) -> NoDup (dict_keys (List.filter p d)).
Proof.
  induction d as [|[k v] d IH]; simpl; [done|].
  intros [Hk Hd]%NoDup_cons. destruct (p (k, v)); simpl; [|auto].
  apply NoDup_cons. split; [|auto].
  intros Hin. apply Hk. by eapply dict_keys_filter_elem.
Qed.

Section CompareRun.
Context (py_str : value -> string) {St : Type}.
Implicit Types (w : world St) (m : list (string * DatabaseResult)).

Lemma comprehension_loop (p : DatabaseResult -> bool) (keep : loc -> M St bool)
      w es m acc macc :
  (forall l r, objects w !! l = Some (OResult r) -> keep l w = (Ok (p r), w)) ->
  holds_results w es m -> holds_results w acc macc ->
  NoDup (dict_keys acc ++ dict_keys es) ->
  exists selected,
    for_each es (fun '(k, v) acc =>
                   bind (keep v) (fun b => ret (if b then dict_set k v acc else acc)))
             acc w = (Ok selected, w)
    /\ holds_results w selected (macc ++ List.filter (fun s => p s.2) m).
Proof.
  intros Hkeep Hes. revert acc macc.
  induction Hes as [|[k l] [k' r] es m [Hk Hl] Hes IH]; intros acc macc Hacc Hnd.
  - simpl. exists acc. split; [done|]. by rewrite app_nil_r.
  - simpl in *. subst k'.
    apply NoDup_app in Hnd as (Hnacc & Hdisj & Hnes).
    apply NoDup_cons in Hnes as [Hfresh Hnes].
    assert (Hk : k ∉ dict_keys acc).
    { intros Hin. apply (Hdisj _ Hin). left. }
    unfold bind at 1. unfold bind at 1. rewrite (Hkeep l r Hl). unfold ret at 1.
    destruct (p r) eqn:Hp.
    + rewrite dict_set_fresh by done.
      destruct (IH (acc ++ [(k, l)]) (macc ++ [(k, r)])) as (sel & Hrun & Hsel).
      * apply Forall2_app; [done|]. by repeat constructor.
      * rewrite dict_keys_app. simpl. rewrite <- app_assoc. simpl.
        apply NoDup_app. split; [done|]. split.
        -- intros k' Hk' [->|Hin]%elem_of_cons; [done|].
           apply (Hdisj _ Hk'). by right.
        -- by apply NoDup_cons.
      * exists sel. split; [done|]. by rewrite <- app_assoc in Hsel.
    + destruct (IH acc macc) as (sel & Hrun & Hsel); [done| |by exists sel].
      apply NoDup_app. split; [done|]. split; [|done].
      intros k' Hk' Hin. apply (Hdisj _ Hk'). by right.
Qed.

Lemma dict_comprehension_run (p : DatabaseResult -> bool) (keep : loc -> M St bool)
      w l m :
  (forall l r, objects w !! l = Some (OResult r) -> keep l w = (Ok (p r), w)) ->
  results_at w l m ->
  exists selected,
    dict_comprehension keep l w
    = (Ok (length (objects w)),
       mkWorld (objects w ++ [ODict selected]) (outside w))
    /\ holds_results w selected (List.filter (fun s => p s.2) m).
Proof.
  intros Hkeep (Hnd & es & Hl & Hes).
  destruct (comprehension_loop p keep w es m [] [] Hkeep Hes) as (sel & Hrun & Hsel).
  - constructor.
  - simpl. by rewrite (holds_results_keys w es m Hes).
  - exists sel. split; [|done].
    unfold dict_comprehension.
    rewrite (bind_ok _ _ _ _ _ (dict_items_at w l es Hl)).
    by rewrite (bind_ok _ _ _ _ _ Hrun).
Qed.

Lemma extends_alloc w o : extends w (mkWorld (objects w ++ [o]) (outside w)).
Proof. split; [|done]. by exists [o]. Qed.

Lemma lookup_alloc w o :
  objects (mkWorld (objects w ++ [o]) (outside w)) !! length (objects w) = Some o.
Proof. simpl. by apply list_lookup_middle. Qed.

Lemma get_dict_at attr w l es :
  objects w !! l = Some (ODict es) -> get_dict (St:=St) attr l w = (Ok es, w).
Proof. intros H. unfold get_dict. by rewrite H. Qed.

Lemma compare_results_run operation w l m :
  results_at w l m ->
  exists w1 successful_results,
    extends w w1 /\ results_at w1 successful_results (successful m) /\
    _compare_results py_str operation l w
    = if (length (successful m) <? 2)%nat then (Ok (divergence m), w1)
      else let (r, w2) := comparator_for py_str operation successful_results w1 in
           (rmap (app (divergence m)) r, w2).
Proof.
  intros Hat.
  destruct (dict_comprehension_run success get_success w l m) as (ss & Hrun1 & Hss);
    [intros; by apply get_success_at|done|].
  set (w0 := mkWorld (objects w ++ [ODict ss]) (outside w)) in *.
  assert (Hext0 : extends w w0) by apply extends_alloc.
  destruct (dict_comprehension_run (fun r => negb (success r))
              (fun v => bind (get_success v) (fun b => ret (negb b))) w0 l m)
    as (fs & Hrun2 & Hfs).
  { intros l0 r Hr. unfold bind. by rewrite (get_success_at _ l0 r Hr). }
  { by eapply results_at_extends. }
  set (w1 := mkWorld (objects w0 ++ [ODict fs]) (outside w0)) in *.
  assert (Hext1 : extends w0 w1) by apply extends_alloc.
  assert (Hs : objects w1 !! length (objects w) = Some (ODict ss)).
  { eapply extends_lookup; [exact Hext1|]. apply lookup_alloc. }
  assert (Hf : objects w1 !! length (objects w0) = Some (ODict fs)).
  { apply lookup_alloc. }
  exists w1, (length (objects w)). split; [by eapply extends_trans|]. split.
  { split; [by apply NoDup_dict_keys_filter, Hat|].
    exists ss. split; [done|].
    eapply holds_results_extends; [|exact Hss]. by eapply extends_trans. }
  unfold _compare_results. unfold bind at 1. rewrite Hrun1.
  unfold bind at 1. fold w0. rewrite Hrun2. fold w1.
  unfold bind at 1. unfold dict_truth at 1. unfold bind at 1.
  rewrite (get_dict_at _ w1 _ ss Hs). unfold ret at 1.
  assert (Hlen_s : length ss = length (successful m)).
  { by apply Forall2_length in Hss. }
  assert (Hlen_f : length fs = length (failed m)).
  { by apply Forall2_length in Hfs. }
  assert (Hkeys_s : dict_keys ss = dict_keys (successful m)).
  { by apply (holds_results_keys w). }
  assert (Hkeys_f : dict_keys fs = dict_keys (failed m)).
  { by apply (holds_results_keys w0). }
  unfold divergence.
  destruct (successful m) as [|s1 sm] eqn:Hsm.
  - destruct ss; [|done]. simpl.
    unfold bind at 1. unfold ret at 1. unfold bind at 1. unfold ret at 1.
    unfold bind at 1. unfold dict_len, bind. rewrite (get_dict_at _ w1 _ [] Hs).
    done.
  - destruct ss as [|se ss]; [done|]. cbn [length Nat.eqb negb].
    unfold bind at 1. unfold dict_truth at 1. unfold bind at 1.
    rewrite (get_dict_at _ w1 _ fs Hf). unfold ret at 1.
    destruct (failed m) as [|f1 fm] eqn:Hfm.
    + destruct fs; [|done]. simpl Nat.eqb. cbn [negb].
      unfold bind at 1. unfold ret at 1.
      unfold bind at 1. unfold dict_len at 1. unfold bind at 1.
      rewrite (get_dict_at _ w1 _ _ Hs). unfold ret at 1.
      simpl in Hlen_s. injection Hlen_s as Hlen_s. cbn [length].
      rewrite Hlen_s.
      destruct (S (length sm) <? 2)%nat; [done|].
      unfold bind. destruct (comparator_for _ _ _ _) as [[r|e] w2]; done.
    + destruct fs as [|fe fs]; [done|]. cbn [length Nat.eqb negb].
      unfold bind at 1. unfold bind at 1. unfold dict_key_list at 1.
      unfold bind at 1. rewrite (get_dict_at _ w1 _ _ Hs). unfold ret at 1.
      unfold bind at 1. unfold dict_key_list at 1.
      unfold bind at 1. rewrite (get_dict_at _ w1 _ _ Hf). unfold ret at 1.
      unfold ret at 1.
      unfold bind at 1. unfold dict_len at 1. unfold bind at 1.
      rewrite (get_dict_at _ w1 _ _ Hs). unfold ret at 1.
      rewrite Hkeys_s, Hkeys_f.
      simpl in Hlen_s. injection Hlen_s as Hlen_s. cbn [length].
      rewrite Hlen_s.
      destruct (S (length sm) <? 2)%nat; [done|].
      unfold bind. destruct (comparator_for _ _ _ _) as [[r|e] w2]; done.
Qed.
End CompareRun.


Section HeapFacts.
Context {St : Type}.
Implicit Types (w : world St) (m : list (string * DatabaseResult)).

Lemma grows_refl w : grows w w.
Proof. exists []. by rewrite app_nil_r. Qed.

Lemma grows_trans w1 w2 w3 : grows w1 w2 -> grows w2 w3 -> grows w1 w3.
Proof. intros [f1 H1] [f2 H2]. exists (f1 ++ f2). by rewrite H2, H1, app_assoc. Qed.

Lemma extends_grows w w' : extends w w' -> grows w w'.
Proof. by intros [H _]. Qed.

Lemma grows_same_objects w w' : objects w' = objects w -> grows w w'.
Proof. intros H. exists []. by rewrite app_nil_r. Qed.

Lemma grows_lookup w w' (l : loc) (o : object) :
  grows w w' -> objects w !! l = Some o -> objects w' !! l = Some o.
Proof. intros [f ->] H. by apply lookup_app_l_Some. Qed.

Lemma holds_results_grows w w' es m :
  grows w w' -> holds_results w es m -> holds_results w' es m.
Proof.
  intros Hg Hes. eapply Forall2_impl; [exact Hes|].
  intros e s [? ?]. split; [done|]. by eapply grows_lookup.
Qed.

Lemma results_at_grows w w' l m :
  grows w w' -> results_at w l m -> results_at w' l m.
Proof.
  intros Hg (Hnd & es & Hl & Hes). split; [done|].
  exists es. split; [by eapply grows_lookup|by eapply holds_results_grows].
Qed.

Lemma heap_stable_ret {A} (a : A) : heap_stable (St:=St) (ret a).
Proof. done. Qed.
Lemma heap_stable_raise {A} e : heap_stable (St:=St) (raise (A:=A) e).
Proof. done. Qed.
Lemma heap_stable_lift {A} (r : result A) : heap_stable (St:=St) (lift r).
Proof. done. Qed.
Lemma heap_stable_external {A} (f : St -> A * St) : heap_stable (external f).
Proof. intros w. unfold external. by destruct (f (outside w)). Qed.

Lemma heap_stable_bind {A B} (c : M St A) (k : A -> M St B) :
  heap_stable c -> (forall a, heap_stable (k a)) -> heap_stable (bind c k).
Proof.
  intros Hc Hk w. unfold bind. specialize (Hc w).
  destruct (c w) as [[a|e] w1]; simpl in *; [|done].
  by rewrite Hk.
Qed.

Lemma heap_stable_for_each {A X} (xs : list X) (body : X -> A -> M St A) acc :
  (forall x a, heap_stable (body x a)) -> heap_stable (for_each xs body acc).
Proof.
  intros Hbody. revert acc. induction xs as [|x xs IH]; intros acc; simpl.
  - apply heap_stable_ret.
  - apply heap_stable_bind; [apply Hbody|apply IH].
Qed.
End HeapFacts.

Ltac stable_step :=
  lazymatch goal with
  | |- heap_stable (bind _ _) => apply heap_stable_bind; [|intros ?]
  | |- heap_stable (ret _) => apply heap_stable_ret
  | |- heap_stable (raise _) => apply heap_stable_raise
  | |- heap_stable (lift _) => apply heap_stable_lift
  | |- heap_stable (external _) => apply heap_stable_external
  | |- heap_stable (for_each _ _ _) => apply heap_stable_for_each; intros ? ?
  | |- heap_stable (match ?x with _ => _ end) => destruct x
  | |- heap_stable ((fun _ => _) _) => cbn beta
  end.

Section OrchestratorFacts.
Context (py_str : value -> string) {St : Type} (rt : Runtime St).
Implicit Types (w : world St) (m : list (string * DatabaseResult)).

Lemma heap_stable_now : heap_stable (St:=St) (now rt).
Proof. apply heap_stable_external. Qed.

Lemma heap_stable_execute_operation (client : Client St) operation inputs :
  heap_stable (execute_operation client operation inputs).
Proof.
  unfold execute_operation, batch_search_data, mixed_step, await_call.
  repeat stable_step.
Qed.

(** [_safe_execute] always returns a new [DatabaseResult] that carries the
    adapter's name. *)
Lemma safe_execute_run db_name (client : Client St) operation inputs w :
  exists s r,
    _safe_execute rt db_name client operation inputs w
    = (Ok (length (objects w)), mkWorld (objects w ++ [OResult r]) s)
    /\ database r = db_name.
Proof.
  unfold _safe_execute, bind at 1.
  pose proof (heap_stable_now w) as Hnow.
  destruct (now rt w) as [[start_time|e] w0] eqn:Hstart; simpl in Hnow.
  2:{ unfold now, external in Hstart. destruct (time_time rt (outside w)). done. }
  unfold try_except, bind at 1.
  pose proof (heap_stable_execute_operation client operation inputs w0) as Hexec.
  destruct (execute_operation client operation inputs w0) as [[d|e] w1];
    simpl in Hexec.
  - unfold bind. pose proof (heap_stable_now w1) as Hnow1.
    destruct (now rt w1) as [[end_time|e] w2] eqn:Hend; simpl in Hnow1.
    2:{ unfold now, external in Hend. destruct (time_time rt (outside w1)). done. }
    unfold alloc. rewrite Hnow1, Hexec, Hnow. by eexists _, _.
  - unfold bind. pose proof (heap_stable_now w1) as Hnow1.
    destruct (now rt w1) as [[end_time|e'] w2] eqn:Hend; simpl in Hnow1.
    2:{ unfold now, external in Hend. destruct (time_time rt (outside w1)). done. }
    unfold alloc. rewrite Hnow1, Hexec, Hnow. by eexists _, _.
Qed.

Lemma now_run w : exists t s, now rt w = (Ok t, mkWorld (objects w) s).
Proof. unfold now, external. destruct (time_time rt (outside w)). by eexists _, _. Qed.

Lemma tasks_of_clients {T} (g : string -> Client St -> T)
      (clients : clients_dict St) (acc : list (string * T)) :
  NoDup (dict_keys acc ++ dict_keys clients) ->
  fold_left (fun tasks '(db_name, client) => dict_set db_name (g db_name client) tasks)
            clients acc
  = acc ++ map (fun c => (c.1, g c.1 c.2)) clients.
Proof.
  revert acc. induction clients as [|[k c] clients IH]; intros acc Hnd; simpl.
  - by rewrite app_nil_r.
  - apply NoDup_app in Hnd as (Hacc & Hdisj & Hcs).
    simpl in Hcs. apply NoDup_cons in Hcs as [Hk Hcs].
    assert (Hfresh : k ∉ dict_keys acc).
    { intros Hin. apply (Hdisj _ Hin). left. }
    rewrite dict_set_fresh by done. rewrite IH.
    + by rewrite <- app_assoc.
    + rewrite dict_keys_app. simpl. rewrite <- app_assoc. simpl.
      apply NoDup_app. split; [done|]. split.
      * intros k' Hk' [->|Hin]%elem_of_cons; [done|].
        apply (Hdisj _ Hk'). by right.
      * by apply NoDup_cons.
Qed.

(** Running the tasks one after the other creates one [DatabaseResult] per
    task. *)
Lemma gather_loop (tasks : list (string * M St loc)) w outcomes0 :
  Forall (fun t => forall w, exists s r,
            t.2 w = (Ok (length (objects w)), mkWorld (objects w ++ [OResult r]) s)
            /\ database r = t.1) tasks ->
  exists w' es m,
    for_each (dict_values tasks)
             (fun task outcomes => bind (settle task) (fun o => ret (outcomes ++ [o])))
             outcomes0 w
    = (Ok (outcomes0 ++ map Ok (map snd es)), w')
    /\ grows w w' /\ holds_results w' es m
    /\ dict_keys es = dict_keys tasks.
Proof.
  intros Htasks. revert w outcomes0.
  induction Htasks as [|[k task] tasks Htask _ IH]; intros w outcomes0; simpl.
  - exists w, [], []. rewrite app_nil_r.
    split; [done|]. split; [apply grows_refl|]. split; [constructor|done].
  - destruct (Htask w) as (s & r & Hrun & Hdb). simpl in Hrun, Hdb.
    set (w1 := mkWorld (objects w ++ [OResult r]) s) in *.
    assert (Hbody : bind (settle task) (fun o => ret (outcomes0 ++ [o])) w
                    = (Ok (outcomes0 ++ [Ok (length (objects w))]), w1)).
    { unfold bind, settle. by rewrite Hrun. }
    rewrite (bind_ok _ _ _ _ _ Hbody).
    destruct (IH w1 (outcomes0 ++ [Ok (length (objects w))]))
      as (w' & es & m & Hloop & Hg & Hes & Hkeys).
    exists w', ((k, length (objects w)) :: es), ((k, r) :: m).
    split; [|split; [|split]].
    + rewrite Hloop. simpl. by rewrite <- app_assoc.
    + eapply grows_trans; [|exact Hg]. by exists [OResult r].
    + constructor; [|done]. split; [done|]. simpl.
      eapply grows_lookup; [exact Hg|]. subst w1. simpl.
      by apply list_lookup_middle.
    + simpl. by rewrite Hkeys.
Qed.

Lemma collect_results_loop (names : list string) (locs pre : list loc)
      (acc : list (string * loc)) w :
  length names = length locs -> NoDup (dict_keys acc ++ names) ->
  for_each (combine (seq (length pre) (length names)) names)
           (collect_result (St:=St) (map Ok (pre ++ locs))) acc w
  = (Ok (acc ++ combine names locs), w).
Proof.
  revert locs pre acc.
  induction names as [|n names IH]; intros locs pre acc Hlen Hnd; simpl.
  - by rewrite app_nil_r.
  - destruct locs as [|l locs]; [done|]. simpl in Hlen. injection Hlen as Hlen.
    apply NoDup_app in Hnd as (Hacc & Hdisj & Hns).
    apply NoDup_cons in Hns as [Hn Hns].
    assert (Hfresh : n ∉ dict_keys acc).
    { intros Hin. apply (Hdisj _ Hin). left. }
    assert (Hbody : collect_result (St:=St) (map Ok (pre ++ l :: locs))
                                   (length pre, n) acc w
                    = (Ok (acc ++ [(n, l)]), w)).
    { unfold collect_result. rewrite list_lookup_fmap.
      rewrite (list_lookup_middle pre locs l (length pre) eq_refl). simpl.
      unfold ret. by rewrite dict_set_fresh. }
    rewrite (bind_ok _ _ _ _ _ Hbody).
    replace (pre ++ l :: locs) with ((pre ++ [l]) ++ locs)
      by (by rewrite <- app_assoc).
    replace (S (length pre)) with (length (pre ++ [l]))
      by (rewrite length_app; simpl; lia).
    rewrite IH.
    + by rewrite <- app_assoc.
    + done.
    + rewrite dict_keys_app. simpl. rewrite <- app_assoc. simpl.
      apply NoDup_app. split; [done|]. split.
      * intros k' Hk' [->|Hin]%elem_of_cons; [done|].
        apply (Hdisj _ Hk'). by right.
      * by apply NoDup_cons.
Qed.

(** The loop of the [except] branch creates one failed [DatabaseResult] per
    adapter. *)
Lemma failed_loop (names : list string) (description : string)
      (acc : list (string * loc)) macc w :
  holds_results w acc macc -> NoDup (dict_keys acc ++ names) ->
  exists w' es,
    for_each names
      (fun db_name db_results =>
         bind (alloc (failed_result db_name description))
              (fun l => ret (dict_set db_name l db_results))) acc w
    = (Ok es, w')
    /\ extends w w'
    /\ holds_results w' es
         (macc ++ map (fun n => (n, mkDatabaseResult n false VNone (Some description) 0))
                      names).
Proof.
  revert acc macc w.
  induction names as [|n names IH]; intros acc macc w Hacc Hnd; simpl.
  - exists w, acc. rewrite app_nil_r. split; [done|]. split; [apply extends_refl|done].
  - apply NoDup_app in Hnd as (Hnacc & Hdisj & Hns).
    apply NoDup_cons in Hns as [Hn Hns].
    assert (Hfresh : n ∉ dict_keys acc).
    { intros Hin. apply (Hdisj _ Hin). left. }
    set (r := mkDatabaseResult n false VNone (Some description) 0).
    set (w1 := mkWorld (objects w ++ [failed_result n description]) (outside w)).
    assert (Hext : extends w w1) by apply extends_alloc.
    assert (Hbody : bind (alloc (failed_result n description))
                         (fun l => ret (dict_set n l acc)) w
                    = (Ok (acc ++ [(n, length (objects w))]), w1)).
    { unfold bind, alloc, ret. by rewrite dict_set_fresh. }
    rewrite (bind_ok _ _ _ _ _ Hbody).
    destruct (IH (acc ++ [(n, length (objects w))]) (macc ++ [(n, r)]) w1)
      as (w' & es & Hloop & Hext' & Hes).
    + apply Forall2_app.
      * by eapply holds_results_extends.
      * constructor; [|constructor]. split; [done|]. apply lookup_alloc.
    + rewrite dict_keys_app. simpl. rewrite <- app_assoc. simpl.
      apply NoDup_app. split; [done|]. split.
      * intros k' Hk' [->|Hin]%elem_of_cons; [done|].
        apply (Hdisj _ Hk'). by right.
      * by apply NoDup_cons.
    + exists w', es. split; [done|]. split; [by eapply extends_trans|].
      by rewrite <- app_assoc in Hes.
Qed.

Lemma combine_fst_snd {X Y} (l : list (X * Y)) : combine (map fst l) (map snd l) = l.
Proof. induction l as [|[x y] l IH]; simpl; [done|]. by rewrite IH. Qed.

Lemma gather_failed_keys description names :
  dict_keys (gather_failed description names) = names.
Proof.
  unfold gather_failed, dict_keys. rewrite map_map. simpl. apply map_id.
Qed.

(** [_execute_on_all_databases] always returns a new dictionary with one
    [DatabaseResult] per configured adapter. *)
Lemma execute_run (clients : clients_dict St) operation inputs w :
  NoDup (dict_keys clients) ->
  exists w' l m fault s,
    _execute_on_all_databases rt clients operation inputs w = (Ok l, w')
    /\ grows w w' /\ results_at w' l m
    /\ dict_keys m = dict_keys clients
    /\ (gather_fault rt s).1 = fault
    /\ (forall e, fault = Some e ->
          m = gather_failed ("Gather error: " ++ exn_str e) (dict_keys clients)).
Proof.
  intros Hnd. unfold _execute_on_all_databases. cbv zeta.
  rewrite (tasks_of_clients
             (fun db_name client => _safe_execute rt db_name client operation inputs)
             clients []) by done.
  rewrite app_nil_l.
  set (tasks := map _ clients).
  assert (Hkeys_tasks : dict_keys tasks = dict_keys clients).
  { subst tasks. unfold dict_keys. rewrite map_map. done. }
  rewrite Hkeys_tasks.
  destruct (gather_loop tasks w []) as (w1 & es & m & Hloop & Hg1 & Hes & Hkeys).
  { subst tasks. apply Forall_forall. intros t [c [-> Hc]]%list_elem_of_fmap w0.
    simpl. apply safe_execute_run. }
  rewrite app_nil_l in Hloop.
  destruct (gather_fault rt (outside w1)) as [fault s2] eqn:Hfault.
  set (w2 := mkWorld (objects w1) s2).
  assert (Hg2 : grows w1 w2) by (by apply grows_same_objects).
  assert (Hgather : asyncio_gather rt (dict_values tasks) w
                    = match fault with
                      | Some e => (Raise e, w2)
                      | None => (Ok (map Ok (map snd es)), w2)
                      end).
  { unfold asyncio_gather. rewrite (bind_ok _ _ _ _ _ Hloop).
    unfold bind, external. rewrite Hfault. by destruct fault. }
  assert (Hndm : NoDup (dict_keys m)).
  { rewrite <- (holds_results_keys _ _ _ Hes). by rewrite Hkeys, Hkeys_tasks. }
  destruct fault as [e|].
  - (* the machinery raised *)
    unfold try_except. rewrite (bind_raise _ _ _ _ _ Hgather).
    destruct (failed_loop (dict_keys clients) ("Gather error: " ++ exn_str e) [] [] w2)
      as (w3 & es' & Hfl & Hext & Hes'); [constructor|done|].
    rewrite (bind_ok _ _ _ _ _ Hfl). unfold alloc.
    rewrite app_nil_l in Hes'.
    eexists _, _, (gather_failed _ (dict_keys clients)), (Some e), (outside w1).
    split; [done|]. split; [|split; [|split; [|split]]].
    + eapply grows_trans; [exact Hg1|]. eapply grows_trans; [exact Hg2|].
      eapply grows_trans; [by apply extends_grows|]. by exists [ODict es'].
    + split; [by rewrite gather_failed_keys|].
      exists es'. split; [by apply list_lookup_middle|].
      eapply holds_results_grows; [|exact Hes']. by exists [ODict es'].
    + apply gather_failed_keys.
    + by rewrite Hfault.
    + by intros e' [= <-].
  - (* every task settled *)
    unfold try_except. rewrite (bind_ok _ _ _ _ _ Hgather).
    assert (Hcollect :
      for_each (enumerate (dict_keys clients))
               (collect_result (St:=St) (map Ok (map snd es))) [] w2
      = (Ok es, w2)).
    { unfold enumerate.
      pose proof (collect_results_loop (dict_keys clients) (map snd es) [] [] w2)
        as Hloop2.
      simpl in Hloop2. rewrite Hloop2.
      - rewrite <- Hkeys_tasks, <- Hkeys. unfold dict_keys.
        by rewrite combine_fst_snd.
      - rewrite <- Hkeys_tasks, <- Hkeys. unfold dict_keys.
        by rewrite !length_map.
      - done. }
    rewrite (bind_ok _ _ _ _ _ Hcollect). unfold alloc.
    eexists _, _, m, None, (outside w1).
    split; [done|]. split; [|split; [|split; [|split]]].
    + eapply grows_trans; [exact Hg1|]. eapply grows_trans; [exact Hg2|].
      by exists [ODict es].
    + split; [done|]. exists es. split; [by apply list_lookup_middle|].
      eapply holds_results_grows; [|exact Hes].
      eapply grows_trans; [exact Hg2|]. by exists [ODict es].
    + rewrite <- (holds_results_keys _ _ _ Hes). by rewrite Hkeys.
    + by rewrite Hfault.
    + done.
Qed.
End OrchestratorFacts.


Lemma Forall_flat_map {X Y} (P : Y -> Prop) (f : X -> list Y) (xs : list X) :
  (forall x, Forall P (f x)) -> Forall P (flat_map f xs).
Proof.
  intros Hf. induction xs as [|x xs IH]; simpl; [constructor|].
  apply Forall_app. split; [apply Hf|apply IH].
Qed.

Lemma flag_pairs_no_divergence message ids_of reference others :
  (forall a b q, is_divergence (message a b q) = false) ->
  Forall (fun i => is_divergence i = false)
         (flag_pairs message ids_of reference others).
Proof.
  intros Hmsg. unfold flag_pairs. apply Forall_flat_map. intros s.
  destruct (differ_significantly _ _); repeat constructor. apply Hmsg.
Qed.

Section ComparatorTotal.
Context (py_str : value -> string) {St : Type}.
Implicit Types (w : world St) (m : list (string * DatabaseResult)).

(** On a dictionary of [DatabaseResult]s every comparator leaves the world
    as it is, emits no success/failure divergence, and only the insert and
    delete comparators can raise. *)
Lemma comparator_run operation w l m :
  results_at w l m ->
  exists r,
    comparator_for py_str operation l w = (r, w)
    /\ (~ In operation ["insert"; "batch_insert"; "delete"] ->
        exists incs, r = Ok incs)
    /\ (forall incs, r = Ok incs ->
        Forall (fun i => is_divergence i = false) incs).
Proof.
  intros Hat. unfold comparator_for, result_comparators. simpl.
  destruct (String.eqb_spec operation "insert") as [->|Hn1].
  { rewrite (insert_run w l m Hat). eexists. split; [done|]. split.
    - intros Hnot. exfalso. apply Hnot. simpl. auto.
    - intros incs. destruct (collect _ m) as [c|]; simpl; [|done].
      destruct (py_set_len _) as [n|]; simpl; [|done].
      destruct (1 <? n)%nat; [|intros [= <-]; constructor].
      unfold insert_count_message.
      destruct (forallb _ _); simpl; [|done].
      intros [= <-]. repeat constructor. }
  destruct (String.eqb_spec operation "search") as [->|Hn2].
  { rewrite (search_run py_str w l m Hat). eexists. split; [done|]. split.
    - by eexists.
    - intros incs [= <-]. unfold search_expected.
      destruct m as [|reference others]; [constructor|].
      by apply flag_pairs_no_divergence. }
  destruct (String.eqb_spec operation "delete") as [->|Hn3].
  { rewrite (delete_run w l m Hat). eexists. split; [done|]. split.
    - intros Hnot. exfalso. apply Hnot. simpl. auto.
    - intros incs. destruct (collect _ m) as [c|]; simpl; [|done].
      intros [= <-]. destruct (forallb _ _); repeat constructor. }
  destruct (String.eqb_spec operation "batch_insert") as [->|Hn4].
  { rewrite (insert_run w l m Hat). eexists. split; [done|]. split.
    - intros Hnot. exfalso. apply Hnot. simpl. auto.
    - intros incs. destruct (collect _ m) as [c|]; simpl; [|done].
      destruct (py_set_len _) as [n|]; simpl; [|done].
      destruct (1 <? n)%nat; [|intros [= <-]; constructor].
      unfold insert_count_message.
      destruct (forallb _ _); simpl; [|done].
      intros [= <-]. repeat constructor. }
  destruct (String.eqb_spec operation "batch_search") as [->|Hn5].
  { rewrite (batch_search_run py_str w l m Hat). eexists. split; [done|]. split.
    - by eexists.
    - intros incs [= <-]. unfold batch_search_expected.
      destruct m as [|reference others]; [constructor|].
      destruct (data reference.2); try constructor.
      apply Forall_flat_map. intros idx. by apply flag_pairs_no_divergence. }
  destruct (String.eqb_spec operation "mixed_operations") as [->|Hn6].
  { rewrite (mixed_run w l m Hat). eexists. split; [done|]. split.
    - by eexists.
    - intros incs [= <-]. cbv zeta. destruct (1 <? _)%nat; repeat constructor. }
  rewrite (generic_run w l m Hat). eexists. split; [done|]. split.
  - by eexists.
  - intros incs [= <-]. destruct (forallb _ m); repeat constructor.
Qed.

(** An operation outside the six known kinds is compared by the generic
    fallback. *)
Lemma comparator_for_unknown operation :
  ~ In operation ["insert"; "search"; "delete"; "batch_insert"; "batch_search";
                  "mixed_operations"] ->
  comparator_for (St:=St) py_str operation = _compare_generic_results.
Proof.
  intros Hnot. unfold comparator_for, result_comparators. simpl.
  repeat match goal with
         | |- context [String.eqb operation ?s] =>
             destruct (String.eqb_spec operation s) as [->|?];
             [exfalso; apply Hnot; simpl; tauto|]
         end.
  done.
Qed.
End ComparatorTotal.

Section RunTest.
Context (py_str : value -> string) {St : Type} (rt : Runtime St).
Implicit Types (w : world St) (m : list (string * DatabaseResult)).

Lemma time_loop (names : list string) (start_time : Q)
      (acc : list (string * Q)) w :
  NoDup (dict_keys acc ++ names) ->
  exists execution_time w',
    for_each names
      (fun name execution_time =>
         bind (now rt) (fun t =>
         ret (dict_set name (t - start_time)%Q execution_time))) acc w
    = (Ok execution_time, w')
    /\ objects w' = objects w
    /\ dict_keys execution_time = dict_keys acc ++ names.
Proof.
  revert acc w. induction names as [|n names IH]; intros acc w Hnd; simpl.
  - exists acc, w. by rewrite app_nil_r.
  - apply NoDup_app in Hnd as (Hacc & Hdisj & Hns).
    apply NoDup_cons in Hns as [Hn Hns].
    assert (Hfresh : n ∉ dict_keys acc).
    { intros Hin. apply (Hdisj _ Hin). left. }
    destruct (now_run rt w) as (t & s & Hnow).
    assert (Hbody : bind (now rt) (fun t => ret (dict_set n (t - start_time)%Q acc)) w
                    = (Ok (acc ++ [(n, (t - start_time)%Q)]), mkWorld (objects w) s)).
    { rewrite (bind_ok _ _ _ _ _ Hnow). unfold ret. by rewrite dict_set_fresh. }
    rewrite (bind_ok _ _ _ _ _ Hbody).
    destruct (IH (acc ++ [(n, (t - start_time)%Q)]) (mkWorld (objects w) s))
      as (et & w' & Hloop & Hobj & Hkeys).
    + rewrite dict_keys_app. simpl. rewrite <- app_assoc. simpl.
      apply NoDup_app. split; [done|]. split.
      * intros k' Hk' [->|Hin]%elem_of_cons; [done|].
        apply (Hdisj _ Hk'). by right.
      * by apply NoDup_cons.
    + exists et, w'. split; [done|]. split; [done|].
      rewrite Hkeys, dict_keys_app. simpl. by rewrite <- app_assoc.
Qed.

(** What [run_test] does once the comparison step has returned. *)
Lemma report_run tid op inp start_time incs w l m :
  results_at w l m ->
  exists t w',
    (bind (dict_key_list l) (fun names =>
     bind (for_each names
             (fun name execution_time =>
                bind (now rt) (fun t =>
                ret (dict_set name (t - start_time)%Q execution_time))) [])
          (fun execution_time =>
     bind (dict_items l) (fun items =>
     bind (for_each items
             (fun '(name, result) payloads =>
                bind (get_data result) (fun d => ret (dict_set name d payloads))) [])
          (fun payloads =>
     ret (mkTestResult tid op inp payloads incs execution_time))))))
      w
    = (Ok t, w')
    /\ objects w' = objects w
    /\ test_id t = tid /\ operation t = op
    /\ inputs t = inp
    /\ results t = map (fun s => (s.1, data s.2)) m
    /\ inconsistencies t = incs
    /\ dict_keys (test_execution_time t) = dict_keys m.
Proof.
  intros (Hnd & es & Hl & Hes).
  assert (Hkeys : dict_keys es = dict_keys m) by (by eapply holds_results_keys).
  assert (Hnames : dict_key_list (St:=St) l w = (Ok (dict_keys m), w)).
  { unfold dict_key_list. rewrite (bind_ok _ _ _ _ _ (get_dict_at _ w l es Hl)).
    unfold ret. by rewrite Hkeys. }
  rewrite (bind_ok _ _ _ _ _ Hnames).
  destruct (time_loop (dict_keys m) start_time [] w) as (et & w1 & Hloop & Hobj & Hk);
    [done|].
  rewrite (bind_ok _ _ _ _ _ Hloop).
  assert (Hg : grows w w1) by (by apply grows_same_objects).
  assert (Hl1 : objects w1 !! l = Some (ODict es)) by (by rewrite Hobj).
  rewrite (bind_ok _ _ _ _ _ (dict_items_at w1 l es Hl1)).
  assert (Hes1 : holds_results w1 es m) by (by eapply holds_results_grows).
  assert (Hpay :
    for_each es
      (fun '(name, result) payloads =>
         bind (get_data (St:=St) result) (fun d => ret (dict_set name d payloads)))
      [] w1
    = (Ok (map (fun s => (s.1, data s.2)) m), w1)).
  { rewrite (collect_loop _ (fun _ r => Ok (Some (data r))) w1 m es Hnd Hes1).
    - by rewrite collect_total.
    - intros k l0 r a Hr. by rewrite (bind_ok _ _ _ _ _ (get_data_at w1 l0 r Hr)). }
  rewrite (bind_ok _ _ _ _ _ Hpay). unfold ret.
  eexists _, _. split; [done|]. simpl. by rewrite Hk.
Qed.

Lemma run_test_run (clients : clients_dict St) tid op inp w :
  NoDup (dict_keys clients) ->
  exists l m fault s,
    results_at (run_test py_str rt clients tid op inp w).2 l m
    /\ dict_keys m = dict_keys clients
    /\ (gather_fault rt s).1 = fault
    /\ (forall e, fault = Some e ->
          m = gather_failed ("Gather error: " ++ exn_str e) (dict_keys clients))
    /\ match (run_test py_str rt clients tid op inp w).1 with
       | Ok t =>
           test_id t = tid /\ operation t = op
           /\ inputs t = inp
           /\ results t = map (fun s => (s.1, data s.2)) m
           /\ dict_keys (test_execution_time t) = dict_keys clients
           /\ (exists rest, inconsistencies t = divergence m ++ rest
                 /\ Forall (fun i => is_divergence i = false) rest
                 /\ ((length (successful m) < 2)%nat -> rest = []))
       | Raise e =>
           (2 <= length (successful m))%nat
           /\ In op ["insert"; "batch_insert"; "delete"]
       end.
Proof.
  intros Hnd. unfold run_test.
  destruct (now_run rt w) as (start_time & s0 & Hnow).
  rewrite (bind_ok _ _ _ _ _ Hnow).
  set (w0 := mkWorld (objects w) s0).
  destruct (execute_run rt clients op inp w0 Hnd)
    as (w1 & l & m & fault & s & Hexec & Hg1 & Hat1 & Hkeys & Hfault & Hfailed).
  rewrite (bind_ok _ _ _ _ _ Hexec).
  destruct (compare_results_run py_str op w1 l m Hat1)
    as (w2 & sl & Hext & Hsat & Hcmp).
  destruct (comparator_run py_str op w2 sl (successful m) Hsat)
    as (r & Hr & Htotal & Hnodiv).
  assert (Hat2 : results_at w2 l m) by (by eapply results_at_extends).
  exists l, m, fault, s.
  destruct (length (successful m) <? 2)%nat eqn:Hlen.
  - rewrite (bind_ok _ _ _ _ _ Hcmp).
    destruct (report_run tid op inp start_time (divergence m) w2 l m Hat2)
      as (t & w3 & Hrep & Hobj & Hid & Hop & Hin & Hres & Hinc & Htime).
    rewrite Hrep. simpl.
    split; [eapply results_at_grows; [by apply grows_same_objects|done]|].
    split; [done|]. split; [done|]. split; [done|].
    split; [done|]. split; [done|]. split; [done|]. split; [done|].
    split; [by rewrite Htime|].
    exists []. rewrite app_nil_r. split; [done|]. split; [constructor|done].
  - rewrite Hr in Hcmp. apply Nat.ltb_ge in Hlen.
    destruct r as [rest|e]; simpl in Hcmp.
    + rewrite (bind_ok _ _ _ _ _ Hcmp).
      destruct (report_run tid op inp start_time
                           (divergence m ++ rest) w2 l m Hat2)
        as (t & w3 & Hrep & Hobj & Hid & Hop & Hin & Hres & Hinc & Htime).
      rewrite Hrep. simpl.
      split; [eapply results_at_grows; [by apply grows_same_objects|done]|].
      split; [done|]. split; [done|]. split; [done|].
      split; [done|]. split; [done|]. split; [done|]. split; [done|].
      split; [by rewrite Htime|].
      exists rest. split; [done|]. split; [by apply Hnodiv|]. lia.
    + rewrite (bind_raise _ _ _ _ _ Hcmp). simpl.
      split; [done|]. split; [done|]. split; [done|]. split; [done|].
      split; [done|].
      destruct (decide (In op ["insert"; "batch_insert"; "delete"]))
        as [Hin|Hnot]; [done|].
      destruct (Htotal Hnot) as [incs Hincs]. done.
Qed.
End RunTest.


(** ** The overlap rule *)

Lemma Qltb_lt (x y : Q) : Qltb x y = true <-> (x < y)%Q.
Proof.
  unfold Qltb. rewrite negb_true_iff. split.
  - intros H. apply Qnot_le_lt. intros Hle.
    apply Qle_bool_iff in Hle. congruence.
  - intros H. destruct (Qle_bool y x) eqn:E; [|done].
    apply Qle_bool_iff in E. by apply Qlt_not_le in H.
Qed.

Lemma Zpos_of_nat (n : nat) : n <> 0%nat -> Z.pos (Pos.of_nat n) = Z.of_nat n.
Proof.
  destruct n as [|n]; [done|]. intros _.
  by rewrite <- Pos.of_nat_succ, Znat.Zpos_P_of_succ_nat, Nat2Z.inj_succ.
Qed.

Lemma overlap_percent_ratio (reference_ids ids : gset string) :
  (0 < Nat.max (size reference_ids) (size ids))%nat ->
  (overlap_percent reference_ids ids
   == inject_Z (Z.of_nat (size (reference_ids ∩ ids)))
      / inject_Z (Z.of_nat (Nat.max (size reference_ids) (size ids))) * 100)%Q.
Proof.
  intros Hpos. unfold overlap_percent.
  destruct (Nat.eqb_spec (Nat.max (size reference_ids) (size ids)) 0) as [E|E]; [lia|].
  rewrite Qmake_Qdiv.
  by rewrite (Zpos_of_nat _ E).
Qed.

Lemma overlap_percent_lt_50 (reference_ids ids : gset string) :
  (0 < Nat.max (size reference_ids) (size ids))%nat ->
  (overlap_percent reference_ids ids < 50)%Q
  <-> (2 * size (reference_ids ∩ ids) < Nat.max (size reference_ids) (size ids))%nat.
Proof.
  intros Hpos. unfold overlap_percent.
  destruct (Nat.eqb_spec (Nat.max (size reference_ids) (size ids)) 0) as [E|E]; [lia|].
  set (k := size (reference_ids ∩ ids)).
  set (n := Nat.max (size reference_ids) (size ids)) in *.
  unfold Qlt, Qmult. simpl.
  assert (Hn : Z.pos (Pos.of_nat n * 1) = Z.of_nat n).
  { rewrite Pos.mul_1_r. by apply Zpos_of_nat. }
  rewrite Hn. lia.
Qed.

Lemma differ_significantly_spec (reference_ids ids : gset string) :
  differ_significantly reference_ids ids = true
  <-> (overlap_percent reference_ids ids < 50)%Q
      /\ reference_ids <> ∅ /\ ids <> ∅.
Proof.
  unfold differ_significantly.
  rewrite !andb_true_iff, Qltb_lt, !Nat.ltb_lt.
  assert (Hne : forall X : gset string, (0 < size X)%nat <-> X <> ∅).
  { intros X. split.
    - intros Hpos ->. rewrite size_empty in Hpos. lia.
    - intros Hne. destruct (size X) eqn:E; [|lia].
      exfalso. apply Hne. apply leibniz_equiv. by apply size_empty_iff. }
  rewrite !Hne. tauto.
Qed.

Lemma successful_all_succeeded m : forallb (fun s => success s.2) (successful m) = true.
Proof.
  unfold successful. apply forallb_forall. intros s Hs.
  by apply filter_In in Hs as [_ Hs].
Qed.

Lemma divergence_length m : (length (divergence m) <= 1)%nat.
Proof. unfold divergence. destruct (successful m), (failed m); simpl; lia. Qed.

Section Claims.
Context (py_str : value -> string) {St : Type}.
Implicit Types (w : world St) (m : list (string * DatabaseResult)).

(** What the comparison step does with the cross-cutting rule.  For a
    dictionary holding the results [m]: the rule yields exactly one
    inconsistency, naming the adapters that succeeded and those that failed,
    when both sets are non-empty, and nothing otherwise; with fewer than two
    successes the step returns just that (at most one entry) and calls no
    comparator; otherwise it calls the comparator of the operation on the
    successful results and, if the comparator returns, returns the rule's
    entries followed by the comparator's, none of which is a success/failure
    divergence; if the comparator raises, so does the step, and the rule's
    entry is lost. *)
Lemma compare_results_rule_then_comparator operation w l m :
  results_at w l m ->
  (successful m <> [] -> failed m <> [] ->
   divergence m
   = [SuccessFailureDivergence (dict_keys (successful m)) (dict_keys (failed m))])
  /\ (successful m = [] \/ failed m = [] -> divergence m = [])
  /\ ((length (successful m) < 2)%nat ->
      (_compare_results py_str operation l w).1 = Ok (divergence m)
      /\ (length (divergence m) <= 1)%nat)
  /\ ((2 <= length (successful m))%nat ->
      exists w1 successful_results r,
        results_at w1 successful_results (successful m)
        /\ comparator_for py_str operation successful_results w1 = (r, w1)
        /\ _compare_results py_str operation l w
           = (rmap (app (divergence m)) r, w1)
        /\ (forall incs, r = Ok incs ->
            Forall (fun i => is_divergence i = false) incs)).
Proof.
  intros Hat. split; [|split; [|split]].
  - unfold divergence. by destruct (successful m), (failed m).
  - unfold divergence. intros [-> | ->]; [done|]. by destruct (successful m).
  - intros Hlt.
    destruct (compare_results_run py_str operation w l m Hat)
      as (w1 & sl & _ & _ & Hrun).
    apply Nat.ltb_lt in Hlt. rewrite Hlt in Hrun. rewrite Hrun.
    split; [done|apply divergence_length].
  - intros Hge.
    destruct (compare_results_run py_str operation w l m Hat)
      as (w1 & sl & _ & Hsat & Hrun).
    destruct (comparator_run py_str operation w1 sl (successful m) Hsat)
      as (r & Hr & _ & Hnodiv).
    apply Nat.ltb_ge in Hge. rewrite Hge, Hr in Hrun.
    by exists w1, sl, r.
Qed.

(** C3. The search comparator extracts one identifier set per adapter,
    takes the first adapter in iteration order as reference and, for every
    other adapter, emits an inconsistency naming the pair and the overlap
    percentage exactly when the overlap [|intersection| / max(|reference|,
    |other|) * 100] is below 50 and both sets are non-empty.  Reference
    {1,2,3} against {1,2,9} is not flagged, against {9,10,11} it is, and two
    empty sets are never flagged. *)
Theorem search_overlap_rule w l m :
  results_at w l m ->
  _compare_search_results py_str l w = (Ok (search_expected py_str m), w)
  /\ (forall reference_ids ids : gset string,
        differ_significantly reference_ids ids = true
        <-> (overlap_percent reference_ids ids < 50)%Q
            /\ reference_ids <> ∅ /\ ids <> ∅)
  /\ (forall reference_ids ids : gset string,
        (0 < Nat.max (size reference_ids) (size ids))%nat ->
        (overlap_percent reference_ids ids
         == inject_Z (Z.of_nat (size (reference_ids ∩ ids)))
            / inject_Z (Z.of_nat (Nat.max (size reference_ids) (size ids)))
            * 100)%Q)
  /\ differ_significantly (list_to_set ["1"; "2"; "3"]) (list_to_set ["1"; "2"; "9"])
     = false
  /\ differ_significantly (list_to_set ["1"; "2"; "3"]) (list_to_set ["9"; "10"; "11"])
     = true
  /\ differ_significantly ∅ ∅ = false.
Proof.
  intros Hat. split; [by apply search_run|].
  split; [apply differ_significantly_spec|].
  split; [apply overlap_percent_ratio|].
  by vm_compute.
Qed.

(** C8. The batch_search comparator, when the reference adapter (the first
    in iteration order) holds a list, applies the per-pair overlap rule for
    every query index below the length of that list; an adapter whose
    payload has no answer at an index has the empty identifier set there.
    At an index it emits an inconsistency naming the pair, the index and the
    percentage exactly when the overlap [|intersection| / max(|reference|,
    |other|) * 100] is below 50 and both sets are non-empty: reference
    {1,2,3} against {1,2,9} is not flagged, against {1,8,9} it is, and a set
    against the empty set is never flagged. *)
Theorem batch_overlap_rule_per_query w l m :
  results_at w l m ->
  _compare_batch_search_results py_str l w = (Ok (batch_search_expected py_str m), w)
  /\ (forall query_idx answers answer,
        answers !! query_idx = Some answer ->
        query_id_set py_str query_idx (VList answers) = id_set py_str answer)
  /\ (forall query_idx answers,
        (length answers <= query_idx)%nat ->
        query_id_set py_str query_idx (VList answers) = ∅)
  /\ (forall query_idx data,
        isinstance_list data = false -> query_id_set py_str query_idx data = ∅)
  /\ (forall reference_ids ids : gset string,
        differ_significantly reference_ids ids = true
        <-> (overlap_percent reference_ids ids < 50)%Q
            /\ reference_ids <> ∅ /\ ids <> ∅)
  /\ (forall reference_ids ids : gset string,
        (0 < Nat.max (size reference_ids) (size ids))%nat ->
        (overlap_percent reference_ids ids
         == inject_Z (Z.of_nat (size (reference_ids ∩ ids)))
            / inject_Z (Z.of_nat (Nat.max (size reference_ids) (size ids)))
            * 100)%Q)
  /\ differ_significantly (list_to_set ["1"; "2"; "3"]) (list_to_set ["1"; "2"; "9"])
     = false
  /\ differ_significantly (list_to_set ["1"; "2"; "3"]) (list_to_set ["1"; "8"; "9"])
     = true
  /\ differ_significantly (list_to_set ["4"]) ∅ = false.
Proof.
  intros Hat. split; [by apply batch_search_run|]. split; [|split; [|split]].
  - intros query_idx answers answer H. simpl. by rewrite H.
  - intros query_idx answers H. simpl.
    by rewrite (lookup_ge_None_2 answers query_idx H).
  - by intros query_idx [| | | | | |].
  - split; [apply differ_significantly_spec|].
    split; [apply overlap_percent_ratio|]. by vm_compute.
Qed.

(** C9. The comparison step does not mutate the results it reads: after
    [_compare_results] every object that existed before is unchanged (the
    step only creates objects), so the dictionary still maps the same adapter
    names to the same [DatabaseResult]s. *)
Theorem compare_results_reads_only operation l w :
  (exists fresh,
     objects (_compare_results py_str operation l w).2 = objects w ++ fresh)
  /\ outside (_compare_results py_str operation l w).2 = outside w
  /\ (forall l' o, objects w !! l' = Some o ->
        objects (_compare_results py_str operation l w).2 !! l' = Some o)
  /\ (forall m, results_at w l m ->
        results_at (_compare_results py_str operation l w).2 l m).
Proof.
  pose proof (allocates_only_compare_results py_str operation l w) as Hext.
  split; [apply Hext|]. split; [apply Hext|]. split.
  - intros l' o. by apply extends_lookup.
  - intros m. by apply results_at_extends.
Qed.

(** C10. An operation outside the six known kinds is compared by the
    generic fallback, which only sees successful results: it emits nothing,
    and the step returns at most the success/failure divergence entry. *)
Theorem unknown_operation_generic operation w l m :
  ~ In operation ["insert"; "search"; "delete"; "batch_insert"; "batch_search";
                  "mixed_operations"] ->
  results_at w l m ->
  comparator_for (St:=St) py_str operation = _compare_generic_results
  /\ (forall w1 successful_results,
        results_at w1 successful_results (successful m) ->
        _compare_generic_results successful_results w1 = (Ok [], w1))
  /\ (_compare_results py_str operation l w).1 = Ok (divergence m)
  /\ (length (divergence m) <= 1)%nat.
Proof.
  intros Hunknown Hat.
  assert (Hgen : forall w1 sl, results_at w1 sl (successful m) ->
                 _compare_generic_results sl w1 = (Ok [], w1)).
  { intros w1 sl Hsat. rewrite (generic_run w1 sl _ Hsat).
    by rewrite successful_all_succeeded. }
  split; [by apply comparator_for_unknown|]. split; [done|].
  split; [|apply divergence_length].
  destruct (compare_results_run py_str operation w l m Hat)
    as (w1 & sl & _ & Hsat & Hrun).
  rewrite Hrun. destruct (length (successful m) <? 2)%nat; [done|].
  rewrite (comparator_for_unknown py_str operation Hunknown), (Hgen w1 sl Hsat).
  simpl. by rewrite app_nil_r.
Qed.
End Claims.


(** ** Distinct integer counts *)

Lemma signed_mantissa_int (z : Z) : signed_mantissa (z <? 0)%Z (Z.abs_N z) = z.
Proof.
  unfold signed_mantissa. rewrite N2Z.inj_abs_N.
  destruct (Z.ltb_spec z 0); lia.
Qed.

Lemma scalar_eqb_int (x y : Z) : scalar_eqb (VInt x) (VInt y) = Z.eqb x y.
Proof.
  unfold scalar_eqb, numeric, float_eqb.
  rewrite !signed_mantissa_int. simpl. by rewrite !Z.mul_1_r.
Qed.

Lemma set_add_int (z : Z) (acc : list Z) :
  set_add_value (VInt z) (map VInt acc)
  = map VInt (if decide (z ∈ acc) then acc else acc ++ [z]).
Proof.
  induction acc as [|a acc IH]; cbn [map set_add_value].
  - destruct (decide (z ∈ [])) as [Hin|_]; [|done]. by apply elem_of_nil in Hin.
  - rewrite scalar_eqb_int. destruct (Z.eqb_spec z a) as [->|Hne].
    + destruct (decide (a ∈ a :: acc)) as [_|Hnin]; [done|].
      exfalso. apply Hnin. left.
    + rewrite IH. destruct (decide (z ∈ acc)) as [Hin|Hnin].
      * destruct (decide (z ∈ a :: acc)) as [_|Hnin]; [done|].
        exfalso. apply Hnin. by right.
      * destruct (decide (z ∈ a :: acc)) as [Hin|_]; [|done].
        by apply elem_of_cons in Hin as [?|?].
Qed.

Lemma fold_set_add_int (zs acc : list Z) :
  NoDup acc ->
  exists acc',
    fold_left (fun s v => set_add_value v s) (map VInt zs) (map VInt acc)
    = map VInt acc'
    /\ NoDup acc' /\ (forall z, z ∈ acc' <-> z ∈ acc \/ z ∈ zs).
Proof.
  revert acc. induction zs as [|z zs IH]; intros acc Hnd; cbn [map fold_left].
  - exists acc. split; [done|]. split; [done|]. intros z. rewrite elem_of_nil. tauto.
  - rewrite set_add_int.
    destruct (decide (z ∈ acc)) as [Hin|Hnin].
    + destruct (IH acc Hnd) as (acc' & Hfold & Hnd' & Hel).
      exists acc'. split; [done|]. split; [done|].
      intros y. rewrite Hel, elem_of_cons. split; [tauto|].
      intros [?|[->|?]]; tauto.
    + destruct (IH (acc ++ [z])) as (acc' & Hfold & Hnd' & Hel).
      { apply NoDup_app. split; [done|]. split; [|apply NoDup_singleton].
        intros y Hy ->%list_elem_of_singleton. done. }
      exists acc'. split; [done|]. split; [done|].
      intros y. rewrite Hel, elem_of_app, list_elem_of_singleton, elem_of_cons.
      tauto.
Qed.

(** More than one distinct value among integer counts: two of the counts
    differ. *)
Lemma distinct_values_ints (zs : list Z) :
  (1 < distinct_values (map VInt zs))%nat
  <-> exists x y, x ∈ zs /\ y ∈ zs /\ x <> y.
Proof.
  unfold distinct_values.
  destruct (fold_set_add_int zs [] (NoDup_nil_2)) as (acc & Hfold & Hnd & Hel).
  simpl in Hfold. rewrite Hfold, length_map.
  assert (Hel' : forall z, z ∈ acc <-> z ∈ zs).
  { intros z. rewrite Hel, elem_of_nil. tauto. }
  split.
  - intros Hlen. destruct acc as [|a [|b acc]]; simpl in Hlen; [lia|lia|].
    exists a, b. split; [apply Hel'; left|]. split; [apply Hel'; right; left|].
    apply NoDup_cons in Hnd as [Ha _]. intros ->. apply Ha. left.
  - intros (x & y & Hx & Hy & Hne).
    apply Hel' in Hx, Hy.
    destruct acc as [|a [|b acc]]; simpl; [|exfalso|lia].
    + by apply elem_of_nil in Hx.
    + apply list_elem_of_singleton in Hx, Hy. congruence.
Qed.








Section Claims2.
Context (py_str : value -> string) {St : Type}.
Implicit Types (w : world St) (m : list (string * DatabaseResult)).



(** C6, amended.  The extractor is a total function that returns a sequence
    of strings or raises.  The payload [{"data": []}], a dictionary with none
    of the keys data, ids, result, Get and points, and a payload that is
    neither a dictionary nor a list yield the empty sequence.  Where the
    extractor raises, the search and batch_search comparators use the empty
    identifier set, and they never raise. *)
Theorem extractor_tolerance :
  _extract_search_result_ids py_str (VDict [("data", VList [])]) = Ok []
  /\ (forall d,
        dict_get "data" d = None -> dict_get "ids" d = None ->
        dict_get "result" d = None -> dict_get "Get" d = None ->
        dict_get "points" d = None ->
        _extract_search_result_ids py_str (VDict d) = Ok [])
  /\ (forall data,
        isinstance_dict data = false -> isinstance_list data = false ->
        _extract_search_result_ids py_str data = Ok [])
  /\ (forall data e,
        _extract_search_result_ids py_str data = Raise e ->
        id_set py_str data = ∅)
  /\ (forall w l m,
        results_at w l m ->
        _compare_search_results py_str l w = (Ok (search_expected py_str m), w)
        /\ _compare_batch_search_results py_str l w
           = (Ok (batch_search_expected py_str m), w)).
Proof.
  split; [done|]. split; [|split; [|split]].
  - intros d H1 H2 H3 H4 H5. simpl. unfold dict_get_list.
    rewrite H1, H2, H4, H5, dict_find_get, H3. done.
  - by intros [| | | | | |].
  - intros data e H. unfold id_set. by rewrite H.
  - intros w l m Hat. split; [by apply search_run|by apply batch_search_run].
Qed.
End Claims2.


Lemma successful_gather_failed description names :
  successful (gather_failed description names) = [].
Proof. induction names as [|n names IH]; simpl; [done|apply IH]. Qed.

Lemma gather_failed_payloads description names :
  map (fun s : string * DatabaseResult => (s.1, data s.2))
      (gather_failed description names)
  = map (fun n => (n, VNone)) names.
Proof. unfold gather_failed. by rewrite map_map. Qed.

Section Claims3.
Context (py_str : value -> string) {St : Type} (rt : Runtime St).
Implicit Types (w : world St) (m : list (string * DatabaseResult)).

(** X20. What [run_test] guarantees about the per-adapter maps: either it
    returns a [TestResult] whose [results] and [execution_time] maps have
    exactly
    the configured adapter names as keys, or the insert or delete comparator
    raised, which needs an insert, batch_insert or delete operation and at
    least two adapters that succeeded. *)
Theorem run_test_one_entry_per_adapter (clients : clients_dict St) tid op inp w :
  NoDup (dict_keys clients) ->
  match (run_test py_str rt clients tid op inp w).1 with
  | Ok t =>
      dict_keys (results t) = dict_keys clients
      /\ dict_keys (test_execution_time t) = dict_keys clients
  | Raise e =>
      In op ["insert"; "batch_insert"; "delete"]
      /\ exists l m,
           results_at (run_test py_str rt clients tid op inp w).2 l m
           /\ dict_keys m = dict_keys clients
           /\ (2 <= length (successful m))%nat
  end.
Proof.
  intros Hnd.
  destruct (run_test_run py_str rt clients tid op inp w Hnd)
    as (l & m & fault & s & Hat & Hkeys & _ & _ & Hres).
  destruct (run_test py_str rt clients tid op inp w).1 as [t|e].
  - destruct Hres as (_ & _ & _ & Hr & Ht & _). split; [|done].
    rewrite Hr. unfold dict_keys in *. rewrite map_map. simpl. done.
  - destruct Hres as [Hge Hin]. split; [done|]. by exists l, m.
Qed.

(** C7. If [asyncio.gather] itself raises, [_execute_on_all_databases]
    returns a dictionary that marks every configured adapter as failed with
    the description "Gather error: ...", and [run_test] still returns a
    [TestResult]: one [None] payload and one duration per adapter, no
    inconsistency. *)
Theorem gather_failure_degrades (clients : clients_dict St) tid op inp w e :
  NoDup (dict_keys clients) ->
  (forall s, (gather_fault rt s).1 = Some e) ->
  (exists w1 l,
     _execute_on_all_databases rt clients op inp w = (Ok l, w1)
     /\ results_at w1 l
          (gather_failed ("Gather error: " ++ exn_str e) (dict_keys clients)))
  /\ exists t,
       (run_test py_str rt clients tid op inp w).1 = Ok t
       /\ results t = map (fun n => (n, VNone)) (dict_keys clients)
       /\ dict_keys (test_execution_time t) = dict_keys clients
       /\ inconsistencies t = [].
Proof.
  intros Hnd Hfault. split.
  - destruct (execute_run rt clients op inp w Hnd)
      as (w1 & l & m & fault & s & Hexec & _ & Hat & _ & Hf & Hfailed).
    rewrite Hfault in Hf. subst fault.
    exists w1, l. split; [done|]. by rewrite <- (Hfailed e eq_refl).
  - destruct (run_test_run py_str rt clients tid op inp w Hnd)
      as (l & m & fault & s & _ & _ & Hf & Hfailed & Hres).
    rewrite Hfault in Hf. subst fault.
    rewrite (Hfailed e eq_refl) in Hres.
    rewrite successful_gather_failed in Hres.
    destruct (run_test py_str rt clients tid op inp w).1 as [t|e'].
    + destruct Hres as (_ & _ & _ & Hr & Ht & rest & Hinc & _ & Hrest).
      exists t. split; [done|]. split; [by rewrite Hr, gather_failed_payloads|].
      split; [done|]. rewrite Hinc, Hrest by (simpl; lia).
      unfold divergence. by rewrite successful_gather_failed.
    + destruct Hres as [Hge _]. simpl in Hge. lia.
Qed.
End Claims3.


Lemma world_of_results_at (m : list (string * DatabaseResult)) :
  NoDup (dict_keys m) -> results_at (world_of m) (length m) m.
Proof.
  intros Hnd. split; [done|].
  exists (combine (dict_keys m) (seq 0 (length m))). split.
  - unfold world_of. simpl. apply list_lookup_middle. by rewrite length_map.
  - unfold world_of, holds_results. simpl.
    set (tail := [ODict _]). clearbody tail. clear Hnd.
    assert (H : forall pre,
      Forall2 (fun (e : string * loc) (s : string * DatabaseResult) =>
                 e.1 = s.1 /\
                 (pre ++ map (fun s => OResult s.2) m ++ tail) !! e.2
                 = Some (OResult s.2))
              (combine (dict_keys m) (seq (length pre) (length m))) m).
    { induction m as [|s m IH]; intros pre; simpl; [constructor|].
      constructor.
      - split; [done|]. simpl. by apply list_lookup_middle.
      - specialize (IH (pre ++ [OResult s.2])).
        rewrite length_app in IH. simpl in IH.
        rewrite Nat.add_1_r in IH. rewrite <- app_assoc in IH. exact IH. }
    exact (H []).
Qed.

Lemma example_keys_NoDup :
  NoDup (dict_keys search_results_and_failure)
  /\ NoDup (dict_keys search_results) /\ NoDup (dict_keys batch_results)
  /\ NoDup (dict_keys batch_overlap_results)
  /\ NoDup (dict_keys insert_results) /\ NoDup (dict_keys insert_status_results)
  /\ NoDup (dict_keys insert_shapes_results)
  /\ NoDup (dict_keys delete_results) /\ NoDup (dict_keys delete_error_results)
  /\ NoDup (dict_keys numeric_status_clients).
Proof. repeat split; by apply (bool_decide_unpack _). Qed.


(** C1.  Two adapters answer a delete with the payload [{"status": 5}]: both
    calls succeed, the delete comparator evaluates [5.lower()], and
    [run_test] propagates the [AttributeError] instead of returning a
    [TestResult]. *)
Theorem run_test_number_status_raises :
  (run_test example_str quiet_runtime numeric_status_clients
            "test_0000" "delete" delete_inputs (mkWorld [] tt)).1
  = Raise (mkExn AttributeError "'int' object has no attribute 'lower'").
Proof. by vm_compute. Qed.

Lemma run_test_one_entry_per_adapter_witness :
  NoDup (dict_keys numeric_status_clients)
  /\ match (run_test example_str quiet_runtime numeric_status_clients
                     "test_0000" "search" delete_inputs (mkWorld [] tt)).1 with
     | Ok t =>
         dict_keys (results t) = ["a"; "b"]
         /\ dict_keys (test_execution_time t) = ["a"; "b"]
     | Raise e =>
         In "search" ["insert"; "batch_insert"; "delete"]
         /\ exists l m,
              results_at (run_test example_str quiet_runtime numeric_status_clients
                                   "test_0000" "search" delete_inputs
                                   (mkWorld [] tt)).2 l m
              /\ dict_keys m = ["a"; "b"]
              /\ (2 <= length (successful m))%nat
     end.
Proof.
  split; [apply example_keys_NoDup|].
  apply (run_test_one_entry_per_adapter example_str quiet_runtime
           numeric_status_clients "test_0000" "search" delete_inputs
           (mkWorld [] tt)).
  apply example_keys_NoDup.
Defined.

(** C2.  Adapters [a] and [b] answer a delete with the payload
    [{"status": 5}] and adapter [c] fails.  The cross-cutting rule has one
    entry to emit, naming [a] and [b] as succeeded and [c] as failed.  The
    comparison step builds it, then calls the delete comparator, which
    evaluates [5.lower()] and raises: [_compare_results] propagates the
    [AttributeError] and the entry is lost, and so does [run_test].  For a
    search on the same results the step returns the entry. *)
Theorem compare_results_divergence_lost :
  divergence numeric_status_and_failure
  = [SuccessFailureDivergence ["a"; "b"] ["c"]]
  /\ (_compare_results example_str "delete" 3
        (world_of numeric_status_and_failure)).1
     = Raise (mkExn AttributeError "'int' object has no attribute 'lower'")
  /\ (_compare_results example_str "search" 3
        (world_of numeric_status_and_failure)).1
     = Ok [SuccessFailureDivergence ["a"; "b"] ["c"]]
  /\ (run_test example_str quiet_runtime numeric_status_and_failing_clients
                "test_0000" "delete" delete_inputs (mkWorld [] tt)).1
     = Raise (mkExn AttributeError "'int' object has no attribute 'lower'").
Proof. by vm_compute. Qed.

Lemma search_overlap_rule_witness :
  results_at (world_of search_results) 3 search_results
  /\ _compare_search_results example_str 3 (world_of search_results)
     = (Ok [SearchResultsDiffer "a" "c" (0 # 3)], world_of search_results).
Proof.
  assert (H : results_at (world_of search_results) 3 search_results).
  { apply (world_of_results_at search_results), example_keys_NoDup. }
  split; [exact H|].
  rewrite (proj1 (search_overlap_rule example_str _ _ _ H)). by vm_compute.
Defined.

Lemma batch_overlap_rule_per_query_witness :
  results_at (world_of batch_overlap_results) 2 batch_overlap_results
  /\ _compare_batch_search_results example_str 2 (world_of batch_overlap_results)
     = (Ok [BatchSearchResultsDiffer 1 "a" "b" (100 # 3)],
        world_of batch_overlap_results).
Proof.
  assert (H : results_at (world_of batch_overlap_results) 2 batch_overlap_results).
  { apply (world_of_results_at batch_overlap_results), example_keys_NoDup. }
  split; [exact H|].
  rewrite (proj1 (batch_overlap_rule_per_query example_str _ _ _ H)). by vm_compute.
Defined.

Lemma compare_results_reads_only_witness :
  results_at (_compare_results example_str "search" 4
                (world_of search_results_and_failure)).2
             4 search_results_and_failure.
Proof.
  apply (compare_results_reads_only example_str "search" 4
           (world_of search_results_and_failure)).
  apply (world_of_results_at search_results_and_failure), example_keys_NoDup.
Defined.

Lemma unknown_operation_generic_witness :
  ~ In "unknown" ["insert"; "search"; "delete"; "batch_insert"; "batch_search";
                  "mixed_operations"]
  /\ results_at (world_of search_results_and_failure) 4 search_results_and_failure
  /\ (_compare_results example_str "unknown" 4
        (world_of search_results_and_failure)).1
     = Ok [SuccessFailureDivergence ["a"; "b"; "c"] ["d"]].
Proof.
  assert (Hop : ~ In "unknown" ["insert"; "search"; "delete"; "batch_insert";
                                "batch_search"; "mixed_operations"]).
  { simpl. intros [H|[H|[H|[H|[H|[H|[]]]]]]]; discriminate H. }
  assert (H : results_at (world_of search_results_and_failure) 4
                         search_results_and_failure).
  { apply (world_of_results_at search_results_and_failure), example_keys_NoDup. }
  split; [exact Hop|]. split; [exact H|].
  apply (unknown_operation_generic example_str "unknown" _ _ _ Hop H).
Defined.





(** C6 as stated fails: a [points] list that holds a number makes the
    extractor raise [TypeError], where the claim has the empty sequence. *)
Lemma extract_points_number_raises :
  _extract_search_result_ids example_str (VDict [("points", VList [VInt 1])])
  = Raise (type_error "argument of type 'int' is not iterable")
  /\ ~ exists result_ids,
         _extract_search_result_ids example_str (VDict [("points", VList [VInt 1])])
         = Ok result_ids.
Proof. split; [reflexivity|]. intros [ids H]. discriminate H. Qed.

Lemma extractor_tolerance_witness :
  _extract_search_result_ids example_str (VDict [("data", VList [])]) = Ok []
  /\ id_set example_str (VDict [("points", VList [VInt 1])]) = ∅.
Proof.
  split.
  - exact (proj1 (extractor_tolerance example_str (St:=unit))).
  - apply (extractor_tolerance example_str (St:=unit))
      with (e := type_error "argument of type 'int' is not iterable").
    reflexivity.
Defined.

Lemma gather_failure_degrades_witness :
  NoDup (dict_keys numeric_status_clients)
  /\ (forall s, (gather_fault broken_runtime s).1
                = Some (mkExn Exception "event loop is closed"))
  /\ exists t,
       (run_test example_str broken_runtime numeric_status_clients
                 "test_0000" "delete" delete_inputs (mkWorld [] tt)).1 = Ok t
       /\ results t = [("a", VNone); ("b", VNone)]
       /\ dict_keys (test_execution_time t) = ["a"; "b"]
       /\ inconsistencies t = [].
Proof.
  split; [apply example_keys_NoDup|]. split; [reflexivity|].
  apply (gather_failure_degrades example_str broken_runtime numeric_status_clients
           "test_0000" "delete" delete_inputs (mkWorld [] tt)
           (mkExn Exception "event loop is closed")).
  - apply example_keys_NoDup.
  - reflexivity.
Defined.

(** * Further properties of the code *)

Section ExtractorFacts.
Context (py_str : value -> string).

Lemma extend_each_point_dicts (ids : list value) :
  extend_each (extract_point py_str) (map (fun v => VDict [("id", v)]) ids)
  = Ok (map py_str ids).
Proof. induction ids as [|v ids IH]; simpl; [done|]. by rewrite IH. Qed.

Lemma extend_each_additional_dicts (ids : list value) :
  extend_each (extract_additional py_str)
              (map (fun v => VDict [("_additional", VDict [("id", v)])]) ids)
  = Ok (map py_str ids).
Proof. induction ids as [|v ids IH]; simpl; [done|]. by rewrite IH. Qed.

Lemma flat_map_milvus_dicts (ids : list value) :
  flat_map (extract_milvus_item py_str) (map (fun v => VDict [("id", v)]) ids)
  = map py_str ids.
Proof. induction ids as [|v ids IH]; simpl; [done|]. by rewrite IH. Qed.

Lemma extract_milvus_format (ids : list value) :
  _extract_search_result_ids py_str (milvus_format ids) = Ok (map py_str ids).
Proof. simpl. by rewrite flat_map_milvus_dicts. Qed.

Lemma extract_ids_format (ids : list value) :
  _extract_search_result_ids py_str (ids_format ids) = Ok (map py_str ids).
Proof. done. Qed.

Lemma extract_qdrant_format (ids : list value) :
  _extract_search_result_ids py_str (qdrant_format ids) = Ok (map py_str ids).
Proof. simpl. by rewrite extend_each_point_dicts. Qed.

Lemma extract_weaviate_format (class : string) (ids : list value) :
  _extract_search_result_ids py_str (weaviate_format class ids)
  = Ok (map py_str ids).
Proof.
  unfold weaviate_format. simpl.
  rewrite extend_each_additional_dicts. simpl. by rewrite app_nil_r.
Qed.

Lemma extract_chroma_format (ids : list value) :
  _extract_search_result_ids py_str (chroma_format ids) = Ok (map py_str ids).
Proof. simpl. by rewrite app_nil_r. Qed.

(** X1. The five response formats are normalised to the same sequence: the
    same identifiers sent in the Milvus, plain ids, Qdrant, Weaviate or
    Chroma layout are extracted as the same strings, in the same order. *)
Theorem extractor_normalises_formats (class : string) (ids : list value) :
  _extract_search_result_ids py_str (milvus_format ids) = Ok (map py_str ids)
  /\ _extract_search_result_ids py_str (ids_format ids) = Ok (map py_str ids)
  /\ _extract_search_result_ids py_str (qdrant_format ids) = Ok (map py_str ids)
  /\ _extract_search_result_ids py_str (weaviate_format class ids)
     = Ok (map py_str ids)
  /\ _extract_search_result_ids py_str (chroma_format ids) = Ok (map py_str ids).
Proof.
  split; [apply extract_milvus_format|].
  split; [apply extract_ids_format|].
  split; [apply extract_qdrant_format|].
  split; [apply extract_weaviate_format|apply extract_chroma_format].
Qed.
End ExtractorFacts.

(** Induction on payloads: a property of the scalars that passes from the
    elements to a list and from the entries to a dictionary holds of every
    payload. *)
Lemma value_induction (P : value -> Prop) :
  P VNone -> (forall b, P (VBool b)) -> (forall z, P (VInt z)) ->
  (forall f, P (VFloat f)) -> (forall s, P (VStr s)) ->
  (forall l, Forall P l -> P (VList l)) ->
  (forall d, Forall (fun e => P e.2) d -> P (VDict d)) ->
  forall v, P v.
Proof.
  intros HNone HBool HInt HFloat HStr HList HDict.
  fix IH 1. intros [| b | z | f | s | l | d].
  - exact HNone.
  - apply HBool.
  - apply HInt.
  - apply HFloat.
  - apply HStr.
  - apply HList. induction l as [|x l IHl]; constructor; [apply IH|exact IHl].
  - apply HDict. induction d as [|[k x] d IHd]; constructor; [apply IH|exact IHd].
Qed.

Lemma dict_get_elem {A} (k : string) (d : list (string * A)) (v : A) :
  dict_get k d = Some v -> (k, v) ∈ d.
Proof.
  induction d as [|[k' v'] d IH]; simpl; [done|].
  destruct (String.eqb_spec k k') as [->|Hne].
  - intros [= ->]. left.
  - intros H. right. auto.
Qed.

Section ExtractorErrors.
Context (py_str : value -> string).

Lemma extract_point_class point e :
  extract_point py_str point = Raise e -> exn_class e = TypeError.
Proof.
  unfold extract_point.
  destruct point as [| | | | s | l | d]; simpl; try (by intros [= <-]).
  - destruct (is_substring "id" s); simpl; [by intros [= <-]|done].
  - destruct (existsb (value_is_str "id") l); simpl; [by intros [= <-]|done].
  - unfold dict_contains. destruct (dict_get "id" d); simpl; done.
Qed.

Lemma extend_each_class {A} (body : A -> result (list string)) (xs : list A) e
      (P : exn -> Prop) :
  (forall x e, body x = Raise e -> P e) ->
  extend_each body xs = Raise e -> P e.
Proof.
  intros Hbody. induction xs as [|x xs IH]; simpl; [done|].
  destruct (body x) as [ids|e'] eqn:Hx; simpl.
  - destruct (extend_each body xs) as [rest|e'']; simpl; [done|].
    intros [= <-]. by apply IH.
  - intros [= <-]. by eapply Hbody.
Qed.

Lemma extract_additional_class item e :
  extract_additional py_str item = Raise e -> exn_class e = TypeError.
Proof.
  unfold extract_additional. destruct item as [| | | | | |i]; try done.
  destruct (dict_get "_additional" i); [apply extract_point_class|done].
Qed.

(** X2. On payloads within the default limits of the interpreter (nested
    at most 100 levels deep, integers of at most 4300 digits) the extractor
    unwraps every level of [{"result": ...}], and a dictionary that has a
    [result] entry but neither a [data] list nor an [ids] list is read as
    that entry, whatever other keys it has. *)
Theorem extractor_unwraps_result :
  (forall n payload,
     within_limits (result_wrapped n payload) = true ->
     _extract_search_result_ids py_str (result_wrapped n payload)
     = _extract_search_result_ids py_str payload)
  /\ (forall d nested,
        within_limits (VDict d) = true ->
        dict_get_list "data" d = None -> dict_get_list "ids" d = None ->
        dict_get "result" d = Some nested ->
        _extract_search_result_ids py_str (VDict d)
        = _extract_search_result_ids py_str nested).
Proof.
  split.
  - intros n payload _. induction n as [|n IH]; [done|]. simpl. apply IH.
  - intros d nested _ Hdata Hids Hres. simpl.
    by rewrite Hdata, Hids, dict_find_get, Hres.
Qed.

(** X3. On payloads within the default limits of the interpreter the
    extractor raises nothing but [TypeError] and [AttributeError]; it never
    raises on a list, nor on a dictionary whose [data] or [ids] entry is a
    list. *)
Theorem extractor_error_classes :
  (forall data e,
     within_limits data = true ->
     _extract_search_result_ids py_str data = Raise e ->
     type_or_attribute_error e)
  /\ (forall l,
        within_limits (VList l) = true ->
        exists result_ids,
          _extract_search_result_ids py_str (VList l) = Ok result_ids)
  /\ (forall d items,
        within_limits (VDict d) = true ->
        dict_get_list "data" d = Some items \/ dict_get_list "ids" d = Some items ->
        exists result_ids,
          _extract_search_result_ids py_str (VDict d) = Ok result_ids).
Proof.
  split; [|split].
  - intros data e _. revert e.
    induction data as [| | | | | l _ | d IH] using value_induction;
      intros e; try done.
    + simpl. by destruct l as [|[] l].
    + simpl. destruct (dict_get_list "data" d); [done|].
      destruct (dict_get_list "ids" d); [done|].
      rewrite dict_find_get.
      destruct (dict_get "result" d) as [nested|] eqn:Hres; simpl.
      { apply dict_get_elem in Hres. rewrite Forall_forall in IH.
        apply (IH _ Hres). }
      destruct (dict_get "Get" d) as [get_data|]; simpl.
      { destruct get_data as [| | | | | |g]; simpl;
          try (intros [= <-]; by right).
        intros H. left. revert H.
        apply (extend_each_class _ _ _ (fun e => exn_class e = TypeError)).
        intros [| | | | |c|] e'; try done.
        apply (extend_each_class _ _ _ (fun e => exn_class e = TypeError)).
        apply extract_additional_class. }
      destruct (dict_get_list "points" d); [|done].
      intros H. left. revert H.
      apply (extend_each_class _ _ _ (fun e => exn_class e = TypeError)).
      apply extract_point_class.
  - intros l _. simpl. destruct l as [|[] l]; by eexists.
  - intros d items _ [H|H]; simpl.
    + rewrite H. by eexists.
    + destruct (dict_get_list "data" d); [by eexists|]. rewrite H. by eexists.
Qed.
End ExtractorErrors.

Lemma overlap_percent_comm (a b : gset string) :
  overlap_percent a b = overlap_percent b a.
Proof.
  unfold overlap_percent.
  by rewrite (intersection_comm_L a b), (Nat.max_comm (size a) (size b)).
Qed.

Lemma differ_significantly_comm (a b : gset string) :
  differ_significantly a b = differ_significantly b a.
Proof.
  unfold differ_significantly. rewrite (overlap_percent_comm a b).
  by destruct (Qltb _ _), (0 <? size a)%nat, (0 <? size b)%nat.
Qed.

Lemma differ_significantly_same (a : gset string) : differ_significantly a a = false.
Proof.
  apply not_true_is_false. intros H.
  apply differ_significantly_spec in H as (Hlt & Hne & _).
  assert (Hpos : (0 < size a)%nat).
  { destruct (size a) eqn:E; [|lia]. exfalso. apply Hne.
    apply leibniz_equiv. by apply size_empty_iff. }
  apply overlap_percent_lt_50 in Hlt; [|lia].
  rewrite intersection_idemp_L in Hlt. lia.
Qed.

Lemma differ_significantly_empty (b : gset string) : differ_significantly ∅ b = false.
Proof.
  apply not_true_is_false. intros H.
  by apply differ_significantly_spec in H as (_ & Hne & _).
Qed.

Lemma flag_pairs_length message ids_of reference others :
  (length (flag_pairs message ids_of reference others) <= length others)%nat.
Proof.
  unfold flag_pairs. induction others as [|s others IH]; simpl; [lia|].
  rewrite length_app. destruct (differ_significantly _ _); simpl; lia.
Qed.

Lemma flag_pairs_names message ids_of reference others :
  Forall (fun i => exists db_name overlap,
            i = message reference.1 db_name overlap
            /\ db_name ∈ dict_keys others)
         (flag_pairs message ids_of reference others).
Proof.
  unfold flag_pairs. induction others as [|s others IH]; simpl; [constructor|].
  apply Forall_app. split.
  - destruct (differ_significantly _ _); repeat constructor.
    eexists _, _. split; [done|]. left.
  - eapply Forall_impl; [exact IH|].
    intros i (db & o & -> & Hdb). eexists _, _. split; [done|]. by right.
Qed.

Lemma flag_pairs_empty_reference message ids_of reference others :
  ids_of (data reference.2) = ∅ ->
  flag_pairs message ids_of reference others = [].
Proof.
  intros Hempty. unfold flag_pairs. rewrite Hempty.
  induction others as [|s others IH]; simpl; [done|].
  by rewrite differ_significantly_empty.
Qed.

Lemma flag_pairs_agree message ids_of reference others :
  (forall s, s ∈ others -> ids_of (data s.2) = ids_of (data reference.2)) ->
  flag_pairs message ids_of reference others = [].
Proof.
  unfold flag_pairs. induction others as [|s others IH]; intros H; simpl; [done|].
  rewrite (H s) by left. rewrite differ_significantly_same. simpl.
  apply IH. intros s' Hs'. apply H. by right.
Qed.

Lemma filter_sublist_of {X} (p : X -> bool) (xs : list X) :
  List.filter p xs `sublist_of` xs.
Proof.
  induction xs as [|x xs IH]; simpl; [constructor|].
  destruct (p x); by constructor.
Qed.

(** The entries of the per-pair rule: one for each of the adapters that
    differ significantly from the reference, in order. *)
Lemma flag_pairs_filter message ids_of reference others :
  flag_pairs message ids_of reference others
  = map (fun s => message reference.1 s.1
                    (overlap_percent (ids_of (data reference.2))
                                     (ids_of (data s.2))))
        (List.filter (fun s => differ_significantly (ids_of (data reference.2))
                                                    (ids_of (data s.2)))
                     others).
Proof.
  unfold flag_pairs. induction others as [|s others IH]; simpl; [done|].
  rewrite IH. by destruct (differ_significantly _ _).
Qed.

Section SearchFacts.
Context (py_str : value -> string) {St : Type}.
Implicit Types (w : world St) (m : list (string * DatabaseResult)).

Lemma id_set_lists_ids ids payload :
  lists_ids ids payload -> id_set py_str payload = list_to_set (map py_str ids).
Proof.
  unfold id_set.
  intros [->|[->|[->|[[class ->]| ->]]]].
  - by rewrite extract_milvus_format.
  - by rewrite extract_ids_format.
  - by rewrite extract_qdrant_format.
  - by rewrite extract_weaviate_format.
  - by rewrite extract_chroma_format.
Qed.

(** X4. The search comparator compares every other adapter with the first
    one only: it returns at most one entry per other adapter (the entries
    are those of a sub-list [flagged] of the other adapters, whose names are
    distinct, one entry each and in the same order), each entry names the
    first adapter as the reference, and when the reference adapter's
    identifier set is empty nothing is flagged, whatever the others
    returned. *)
Theorem search_compares_with_reference_only w l reference others :
  results_at w l (reference :: others) ->
  exists incs flagged,
    _compare_search_results py_str l w = (Ok incs, w)
    /\ flagged `sublist_of` others
    /\ NoDup (dict_keys flagged)
    /\ incs = map (fun s => SearchResultsDiffer reference.1 s.1
                              (overlap_percent (id_set py_str (data reference.2))
                                               (id_set py_str (data s.2))))
                  flagged
    /\ (length incs <= length others)%nat
    /\ Forall (fun i => exists db_name overlap,
                 i = SearchResultsDiffer reference.1 db_name overlap
                 /\ db_name ∈ dict_keys others) incs
    /\ (id_set py_str (data reference.2) = ∅ -> incs = []).
Proof.
  intros Hat. rewrite (search_run py_str w l _ Hat).
  destruct Hat as [Hnd _]. simpl in Hnd. apply NoDup_cons in Hnd as [_ Hnd].
  eexists _, (List.filter _ others). split; [done|]. simpl.
  split; [apply filter_sublist_of|].
  split; [by apply NoDup_dict_keys_filter|].
  split; [apply flag_pairs_filter|].
  split; [apply flag_pairs_length|]. split; [apply flag_pairs_names|].
  apply flag_pairs_empty_reference.
Qed.

(** X5. Adapters that return the same identifiers are not flagged by the
    search comparator, whichever of the five response formats each one uses
    and in whatever order each one lists the identifiers. *)
Theorem search_same_ids_any_format w l m (ids : list value) :
  results_at w l m ->
  (forall s, s ∈ m ->
     exists listed, listed ≡ₚ ids /\ lists_ids listed (data s.2)) ->
  _compare_search_results py_str l w = (Ok [], w).
Proof.
  intros Hat Hsame. rewrite (search_run py_str w l _ Hat). f_equal. f_equal.
  assert (Hset : forall s, s ∈ m ->
            id_set py_str (data s.2) = list_to_set (map py_str ids)).
  { intros s Hs. destruct (Hsame s Hs) as (listed & Hperm & Hfmt).
    rewrite (id_set_lists_ids _ _ Hfmt).
    apply leibniz_equiv. intros x. rewrite !elem_of_list_to_set.
    by rewrite Hperm. }
  destruct m as [|reference others]; simpl; [done|].
  apply flag_pairs_agree. intros s Hs.
  rewrite (Hset s) by (by right). symmetry. apply Hset. left.
Qed.

(** X6. For two adapters the verdict of the search comparator does not
    depend on which of them comes first: it flags the pair in one order
    exactly when it flags it in the other, with the same overlap. *)
Theorem search_verdict_symmetric w l w' l' a b :
  results_at w l [a; b] -> results_at w' l' [b; a] ->
  forall overlap,
    (_compare_search_results py_str l w).1
    = Ok [SearchResultsDiffer a.1 b.1 overlap]
    <-> (_compare_search_results py_str l' w').1
        = Ok [SearchResultsDiffer b.1 a.1 overlap].
Proof.
  intros Hab Hba overlap.
  rewrite (search_run py_str w l _ Hab), (search_run py_str w' l' _ Hba).
  simpl. unfold flag_pairs. simpl.
  rewrite (differ_significantly_comm (id_set py_str (data b.2))),
          (overlap_percent_comm (id_set py_str (data b.2))).
  destruct (differ_significantly _ _); simpl; [|done].
  split; intros [= <-]; done.
Qed.
End SearchFacts.

Lemma collect_raise {A} (f : string -> DatabaseResult -> result (option A)) m e :
  collect f m = Raise e -> exists s, s ∈ m /\ f s.1 s.2 = Raise e.
Proof.
  induction m as [|s m IH]; simpl; [done|].
  destruct (f s.1 s.2) as [o|e'] eqn:Hs; simpl.
  - destruct (collect f m) as [rest|e'']; simpl; [done|].
    intros [= <-]. destruct IH as (s' & Hin & Hs'); [done|].
    exists s'. split; [by right|done].
  - intros [= <-]. exists s. split; [left|done].
Qed.

Lemma collect_ok_all {A} (f : string -> DatabaseResult -> result (option A)) m d :
  collect f m = Ok d -> forall s, s ∈ m -> exists o, f s.1 s.2 = Ok o.
Proof.
  revert d. induction m as [|s0 m IH]; intros d; simpl.
  - intros _ s Hs. by apply elem_of_nil in Hs.
  - destruct (f s0.1 s0.2) as [o|e'] eqn:Hs0; simpl; [|done].
    destruct (collect f m) as [rest|e'']; simpl; [|done].
    intros _ s [->|Hs]%elem_of_cons; [by eexists|]. by eapply IH.
Qed.

Lemma collect_values {A} (f : string -> DatabaseResult -> result (option A)) m d :
  collect f m = Ok d ->
  forall v, v ∈ dict_values d <-> exists s, s ∈ m /\ f s.1 s.2 = Ok (Some v).
Proof.
  revert d. induction m as [|s0 m IH]; intros d; simpl.
  - intros [= <-] v. split; [intros H; by apply elem_of_nil in H|].
    intros (s & Hs & _). by apply elem_of_nil in Hs.
  - destruct (f s0.1 s0.2) as [o|e'] eqn:Hs0; simpl; [|done].
    destruct (collect f m) as [rest|e'']; simpl; [|done].
    intros [= <-] v. specialize (IH rest eq_refl v).
    destruct o as [v0|]; simpl.
    + rewrite elem_of_cons, IH. split.
      * intros [->|(s & Hs & Hf)].
        -- exists s0. split; [left|done].
        -- exists s. split; [by right|done].
      * intros (s & [->|Hs]%elem_of_cons & Hf).
        -- left. congruence.
        -- right. by exists s.
    + rewrite IH. split.
      * intros (s & Hs & Hf). exists s. split; [by right|done].
      * intros (s & [->|Hs]%elem_of_cons & Hf); [congruence|]. by exists s.
Qed.

Lemma py_set_len_raise vs e :
  py_set_len vs = Raise e ->
  exn_class e = TypeError /\ exists v, v ∈ vs /\ hashable v = false.
Proof.
  unfold py_set_len.
  destruct (List.find _ vs) as [v|] eqn:Hfind; [|done].
  intros [= <-]. split; [done|].
  apply find_some in Hfind as [Hin Hv]. exists v.
  split; [by apply list_elem_of_In|]. by apply negb_true_iff in Hv.
Qed.

Lemma py_set_len_ok vs n :
  py_set_len vs = Ok n -> forall v, v ∈ vs -> hashable v = true.
Proof.
  unfold py_set_len.
  destruct (List.find _ vs) as [v|] eqn:Hfind; [done|].
  intros _ v Hv. apply list_elem_of_In in Hv.
  pose proof (find_none _ _ Hfind v Hv) as H. by apply negb_false_iff in H.
Qed.

Lemma py_len_raise v e : py_len v = Raise e -> exn_class e = TypeError.
Proof. destruct v; simpl; try done; by intros [= <-]. Qed.

Lemma accepted_count_raise data e :
  accepted_count data = Raise e ->
  exn_class e = TypeError /\ insert_raising_payload data = true.
Proof.
  unfold accepted_count, insert_raising_payload, has_len.
  destruct data as [| | | | | |d]; try done.
  destruct (dict_get "insert_count" d) as [c|]; [done|].
  destruct (dict_get "status" d) as [st|]; [|done].
  destruct (dict_get "insert_ids" d) as [ids|]; [|done].
  destruct (py_len ids) as [n|e'] eqn:Hlen; simpl; [done|].
  intros [= <-]. split; [by eapply py_len_raise|done].
Qed.

Lemma accepted_count_ok data o :
  accepted_count data = Ok o ->
  insert_raising_payload data = true -> exists c, o = Some c /\ hashable c = false.
Proof.
  unfold accepted_count, insert_raising_payload, has_len.
  destruct data as [| | | | | |d]; try done.
  destruct (dict_get "insert_count" d) as [c|].
  { intros [= <-] Hc. exists c. split; [done|]. by apply negb_true_iff in Hc. }
  destruct (dict_get "status" d) as [st|]; [|done].
  destruct (dict_get "insert_ids" d) as [ids|]; [|done].
  by destruct (py_len ids) as [n|e'].
Qed.

Lemma accepted_count_unhashable data c :
  accepted_count data = Ok (Some c) -> hashable c = false ->
  insert_raising_payload data = true.
Proof.
  unfold accepted_count, insert_raising_payload, has_len.
  destruct data as [| | | | | |d]; try (by intros [= <-]).
  destruct (dict_get "insert_count" d) as [c'|].
  { intros [= <-] Hc. by rewrite Hc. }
  destruct (dict_get "status" d) as [st|]; [|done].
  destruct (dict_get "insert_ids" d) as [ids|]; simpl.
  - destruct (py_len ids) as [n|e']; simpl; [|done]. by intros [= <-].
  - by intros [= <-].
Qed.

Lemma delete_status_raise data e :
  delete_status data = Raise e ->
  exn_class e = AttributeError /\ delete_raising_payload data = true.
Proof.
  unfold delete_status, delete_raising_payload.
  destruct data as [| | | | | |d]; try done.
  destruct (dict_get "status" d) as [[| | | |s| |]|]; simpl; try done;
    by intros [= <-].
Qed.

Lemma delete_status_ok data v :
  delete_status data = Ok v -> delete_raising_payload data = false.
Proof.
  unfold delete_status, delete_raising_payload.
  destruct data as [| | | | | |d]; try done.
  by destruct (dict_get "status" d) as [[| | | |s| |]|].
Qed.

Lemma forallb_false_elem {X} (p : X -> bool) (xs : list X) :
  forallb p xs = false -> exists x, x ∈ xs /\ p x = false.
Proof.
  induction xs as [|x xs IH]; simpl; [done|].
  destruct (p x) eqn:Hx; simpl.
  - intros H. destruct (IH H) as (y & Hy & Hpy). exists y. split; [by right|done].
  - intros _. exists x. split; [left|done].
Qed.

Lemma insert_count_message_raise (success_counts : list (string * value)) e :
  insert_count_message success_counts = Raise e ->
  exn_class e = ValueError
  /\ exists count, count ∈ dict_values success_counts /\ printable count = false.
Proof.
  unfold insert_count_message.
  destruct (forallb printable (map snd success_counts)) eqn:H; [done|].
  intros [= <-]. split; [done|]. by apply forallb_false_elem.
Qed.

Section ComparatorErrors.
Context (py_str : value -> string) {St : Type}.
Implicit Types (w : world St) (m : list (string * DatabaseResult)).

(** X8. The insert comparator raises a [TypeError] exactly when some
    adapter's payload is a dictionary with an unhashable [insert_count], or
    one without [insert_count] whose [status] comes with an [insert_ids]
    that has no length.  The only other exception it raises is the
    [ValueError] of the mismatch message, which needs a count that is an
    integer of more than 4300 digits.  Without such payloads and such counts
    it returns. *)
Theorem insert_comparator_raises_exactly_when w l m :
  results_at w l m ->
  ((exists e, (_compare_insert_results l w).1 = Raise e /\ exn_class e = TypeError)
   <-> exists s, s ∈ m /\ insert_raising_payload (data s.2) = true)
  /\ (forall e, (_compare_insert_results l w).1 = Raise e ->
        exn_class e = TypeError
        \/ (exn_class e = ValueError
            /\ exists s count,
                 s ∈ m /\ accepted_count (data s.2) = Ok (Some count)
                 /\ printable count = false))
  /\ ((forall s, s ∈ m -> insert_raising_payload (data s.2) = false) ->
      (forall s count,
         s ∈ m -> accepted_count (data s.2) = Ok (Some count) ->
         printable count = true) ->
      exists incs, (_compare_insert_results l w).1 = Ok incs).
Proof.
  intros Hat. rewrite (insert_run w l m Hat). simpl.
  destruct (collect _ m) as [counts|e0] eqn:Hc; simpl.
  - pose proof (collect_values _ m counts Hc) as Hvals.
    destruct (py_set_len (dict_values counts)) as [n|e1] eqn:Hn; simpl.
    + assert (Hnone : ~ exists s, s ∈ m /\ insert_raising_payload (data s.2) = true).
      { intros (s & Hs & Hraise).
        destruct (collect_ok_all _ m counts Hc s Hs) as [o Ho].
        destruct (accepted_count_ok _ _ Ho Hraise) as (c & -> & Hunh).
        assert (Hin : c ∈ dict_values counts) by (apply Hvals; by exists s).
        rewrite (py_set_len_ok _ _ Hn c Hin) in Hunh. done. }
      destruct (1 <? n)%nat.
      2:{ split; [split; [by intros (e & He & _)|done]|].
          split; [done|]. intros _ _. by eexists. }
      destruct (insert_count_message counts) as [msg|e2] eqn:Hmsg; simpl.
      { split; [split; [by intros (e & He & _)|done]|].
        split; [done|]. intros _ _. by eexists. }
      apply insert_count_message_raise in Hmsg as (Hclass & c & Hcin & Hc').
      apply Hvals in Hcin as (s & Hs & Hf).
      split; [|split].
      * split; [|done]. intros (e & [= <-] & He). congruence.
      * intros e [= <-]. right. split; [done|]. by exists s, c.
      * intros _ Hprint. rewrite (Hprint s c Hs Hf) in Hc'. done.
    + apply py_set_len_raise in Hn as (Hclass & v & Hv & Hunh).
      apply Hvals in Hv as (s & Hs & Hf).
      assert (Hp : insert_raising_payload (data s.2) = true)
        by (by eapply accepted_count_unhashable).
      split; [|split].
      * split; [intros _; by exists s|]. intros _. by eexists.
      * intros e [= <-]. by left.
      * intros Hnone. rewrite (Hnone s Hs) in Hp. done.
  - apply collect_raise in Hc as (s & Hs & Hf).
    apply accepted_count_raise in Hf as [Hclass Hp].
    split; [|split].
    + split; [intros _; by exists s|]. intros _. by eexists.
    + intros e [= <-]. by left.
    + intros Hnone. rewrite (Hnone s Hs) in Hp. done.
Qed.

(** X9. The delete comparator raises exactly when some adapter's payload is
    a dictionary whose [status] is not a string; what it raises is an
    [AttributeError]. *)
Theorem delete_comparator_raises_exactly_when w l m :
  results_at w l m ->
  ((exists e, (_compare_delete_results l w).1 = Raise e)
   <-> exists s, s ∈ m /\ delete_raising_payload (data s.2) = true)
  /\ (forall e, (_compare_delete_results l w).1 = Raise e ->
        exn_class e = AttributeError).
Proof.
  intros Hat. rewrite (delete_run w l m Hat). simpl.
  destruct (collect _ m) as [st|e0] eqn:Hc; simpl.
  - split; [|done]. split; [by intros [e He]|].
    intros (s & Hs & Hraise). exfalso.
    destruct (collect_ok_all _ m st Hc s Hs) as [o Ho].
    unfold rmap in Ho. destruct (delete_status (data s.2)) as [v|] eqn:Hv; [|done].
    apply delete_status_ok in Hv. congruence.
  - apply collect_raise in Hc as (s & Hs & Hf).
    unfold rmap in Hf.
    destruct (delete_status (data s.2)) as [v|e1] eqn:Hv; [done|].
    injection Hf as <-. apply delete_status_raise in Hv as [Hclass Hp].
    split; [|by intros e [= <-]].
    split; [|by eexists]. intros _. by exists s.
Qed.

(** X7. The batch_search comparator is bounded by the reference adapter: a
    reference payload that is no list yields nothing, and for a list every
    entry names the first adapter as the reference and a query index below
    the length of the reference list, so answers another adapter has beyond
    that length are never compared. *)
Theorem batch_search_bounded_by_reference w l reference others :
  results_at w l (reference :: others) ->
  exists incs,
    _compare_batch_search_results py_str l w = (Ok incs, w)
    /\ match data reference.2 with
       | VList answers =>
           Forall (fun i => exists query_idx db_name overlap,
                     i = BatchSearchResultsDiffer query_idx reference.1
                                                  db_name overlap
                     /\ (query_idx < length answers)%nat
                     /\ db_name ∈ dict_keys others) incs
           /\ (length incs <= length answers * length others)%nat
       | _ => incs = []
       end.
Proof.
  intros Hat. rewrite (batch_search_run py_str w l _ Hat). eexists.
  split; [done|]. simpl.
  destruct (data reference.2) as [| | | | |answers|]; try done.
  split.
  - apply Forall_forall. intros i Hi.
    apply list_elem_of_In, in_flat_map in Hi as (idx & Hidx & Hi).
    apply in_seq in Hidx. apply list_elem_of_In in Hi.
    pose proof (flag_pairs_names (BatchSearchResultsDiffer idx)
                  (query_id_set py_str idx) reference others) as Hnames.
    rewrite Forall_forall in Hnames.
    destruct (Hnames i Hi) as (db & o & -> & Hdb). eexists _, _, _.
    split; [done|]. split; [lia|done].
  - generalize 0%nat as start.
    induction (length answers) as [|n IH]; intros start; simpl; [lia|].
    rewrite length_app.
    pose proof (flag_pairs_length (BatchSearchResultsDiffer start)
                  (query_id_set py_str start) reference others).
    specialize (IH (S start)). lia.
Qed.

(** X10. The mixed_operations comparator counts the entries of a list
    payload and counts 0 for any other payload; it never raises, and it
    emits one entry, listing every adapter's count, exactly when two
    adapters' counts differ. *)
Theorem mixed_count_rule w l m :
  results_at w l m ->
  let count (r : DatabaseResult) : nat :=
    match data r with VList entries => length entries | _ => 0%nat end in
  exists incs,
    _compare_mixed_operation_results l w = (Ok incs, w)
    /\ ((exists a b, a ∈ m /\ b ∈ m /\ count a.2 <> count b.2) ->
        incs = [MixedCountMismatch
                  (map (fun s => (s.1, VInt (Z.of_nat (count s.2)))) m)])
    /\ ((forall a b, a ∈ m -> b ∈ m -> count a.2 = count b.2) -> incs = []).
Proof.
  intros Hat count. rewrite (mixed_run w l m Hat). cbv zeta.
  eexists. split; [done|].
  assert (Hcounts : map (fun s : string * DatabaseResult =>
                           (s.1, operation_count_of (data s.2))) m
                    = map (fun s => (s.1, VInt (Z.of_nat (count s.2)))) m).
  { apply map_ext. intros [k r]. simpl. unfold operation_count_of, count.
    by destruct (data r). }
  rewrite Hcounts. unfold dict_values. rewrite map_map. simpl.
  rewrite <- (map_map (fun s : string * DatabaseResult => Z.of_nat (count s.2)) VInt).
  destruct (1 <? distinct_values _)%nat eqn:Hd.
  - split; [done|]. intros Hall. exfalso.
    apply Nat.ltb_lt, distinct_values_ints in Hd as (x & y & Hx & Hy & Hne).
    apply list_elem_of_fmap in Hx as (a & -> & Ha).
    apply list_elem_of_fmap in Hy as (b & -> & Hb).
    apply Hne. by rewrite (Hall a b Ha Hb).
  - split; [|done]. intros (a & b & Ha & Hb & Hne). exfalso.
    apply Nat.ltb_ge in Hd.
    assert (1 < distinct_values (map VInt (map (fun s : string * DatabaseResult =>
                                                  Z.of_nat (count s.2)) m)))%nat; [|lia].
    apply distinct_values_ints.
    exists (Z.of_nat (count a.2)), (Z.of_nat (count b.2)).
    split; [apply list_elem_of_fmap; by exists a|].
    split; [apply list_elem_of_fmap; by exists b|]. lia.
Qed.
End ComparatorErrors.

Section SafeExecute.
Context {St : Type} (rt : Runtime St).
Implicit Types (w : world St) (client : Client St).

(** [_safe_execute] reads the clock, runs the [try] block, reads the clock
    again and creates the result of the block's outcome. *)
Lemma safe_execute_outcome db_name client operation inputs w :
  exists outcome s1,
    execute_operation client operation inputs
                      (mkWorld (objects w) (time_time rt (outside w)).2)
    = (outcome, mkWorld (objects w) s1)
    /\ _safe_execute rt db_name client operation inputs w
       = (Ok (length (objects w)),
          mkWorld (objects w ++
                     [OResult (result_of_outcome db_name outcome
                                 ((time_time rt s1).1
                                  - (time_time rt (outside w)).1))])
                  (time_time rt s1).2).
Proof.
  unfold _safe_execute, bind at 1, now at 1, external at 1.
  destruct (time_time rt (outside w)) as [t0 s0] eqn:Ht0. simpl.
  pose proof (heap_stable_execute_operation client operation inputs
                (mkWorld (objects w) s0)) as Hexec.
  unfold try_except, bind at 1.
  destruct (execute_operation client operation inputs (mkWorld (objects w) s0))
    as [outcome [objs s1]] eqn:Hrun.
  simpl in Hexec. subst objs. exists outcome, s1. split; [done|].
  destruct outcome as [payload|e]; unfold bind, now, external, alloc; simpl;
    by destruct (time_time rt s1).
Qed.

(** X11. [_safe_execute] never raises and always creates one new
    [DatabaseResult] that carries the adapter's name: a successful one with
    the payload and no error when the operation returned, a failed one with
    the payload [None] and the text of the exception when it raised. *)
Theorem safe_execute_contains_failures db_name client operation inputs w :
  exists r s,
    _safe_execute rt db_name client operation inputs w
    = (Ok (length (objects w)), mkWorld (objects w ++ [OResult r]) s)
    /\ database r = db_name
    /\ match (execute_operation client operation inputs (now rt w).2).1 with
       | Ok payload => success r = true /\ data r = payload /\ error r = None
       | Raise e =>
           success r = false /\ data r = VNone /\ error r = Some (exn_str e)
       end.
Proof.
  destruct (safe_execute_outcome db_name client operation inputs w)
    as (outcome & s1 & Hexec & Hrun).
  eexists _, _. split; [exact Hrun|].
  unfold now, external. destruct (time_time rt (outside w)) as [t0 s0].
  simpl in *. rewrite Hexec. simpl. by destruct outcome.
Qed.

Lemma required_key_None operation :
  required_key operation = None ->
  ~ In operation ["insert"; "search"; "delete"; "batch_insert"; "batch_search";
                  "mixed_operations"].
Proof.
  unfold required_key. intros H Hin. simpl in Hin.
  repeat destruct Hin as [<-|Hin]; try done.
Qed.

(** The [try] block stops before any adapter call when the operation is
    unknown or the entry it needs is missing. *)
Lemma execute_operation_rejects client operation d w :
  match required_key operation with
  | Some key =>
      dict_get key d = None ->
      execute_operation client operation (VDict d) w = (Raise (key_error key), w)
  | None =>
      execute_operation client operation (VDict d) w
      = (Raise (mkExn Exception ("Unknown operation: " ++ operation)), w)
  end.
Proof.
  unfold required_key, execute_operation.
  unfold bind at 1. simpl.
  destruct (String.eqb operation "insert" || String.eqb operation "batch_insert").
  { intros Hk. unfold bind, lift. simpl. by rewrite Hk. }
  destruct (String.eqb operation "search").
  { intros Hk. unfold bind, lift. simpl. by rewrite Hk. }
  destruct (String.eqb operation "delete").
  { intros Hk. unfold bind, lift. simpl. by rewrite Hk. }
  destruct (String.eqb operation "batch_search").
  { intros Hk. unfold bind, lift. simpl. by rewrite Hk. }
  destruct (String.eqb operation "mixed_operations").
  { intros Hk. unfold bind, lift. simpl. by rewrite Hk. }
  done.
Qed.

(** X12. For an operation outside the six known kinds and a dictionary of
    inputs, [_safe_execute] calls no adapter method: it reads the clock
    twice and returns a failed result whose error is
    "Unknown operation: <operation>". *)
Theorem safe_execute_unknown_operation db_name client operation d w :
  ~ In operation ["insert"; "search"; "delete"; "batch_insert"; "batch_search";
                  "mixed_operations"] ->
  let start := time_time rt (outside w) in
  let stop := time_time rt start.2 in
  _safe_execute rt db_name client operation (VDict d) w
  = (Ok (length (objects w)),
     mkWorld (objects w ++
                [OResult (mkDatabaseResult db_name false VNone
                            (Some ("Unknown operation: " ++ operation)%string)
                            (stop.1 - start.1))])
             stop.2).
Proof.
  intros Hnot start stop.
  destruct (safe_execute_outcome db_name client operation (VDict d) w)
    as (outcome & s1 & Hexec & Hrun).
  pose proof (execute_operation_rejects client operation d
                (mkWorld (objects w) (time_time rt (outside w)).2)) as Hrej.
  assert (Hkey : required_key operation = None).
  { unfold required_key.
    repeat match goal with
           | |- context [String.eqb operation ?s] =>
               destruct (String.eqb_spec operation s) as [->|?];
               [exfalso; apply Hnot; simpl; tauto|]
           end.
    done. }
  rewrite Hkey, Hexec in Hrej. injection Hrej as -> ->.
  exact Hrun.
Qed.

(** X13. When the dictionary of inputs lacks the entry the operation needs
    ([vectors] for insert and batch_insert, [query_vector] for search, [ids]
    for delete, [query_vectors] for batch_search, [operations] for
    mixed_operations), [_safe_execute] calls no adapter method and returns
    a failed result whose error is the text of the [KeyError]. *)
Theorem safe_execute_missing_key db_name client operation key d w :
  required_key operation = Some key ->
  dict_get key d = None ->
  let start := time_time rt (outside w) in
  let stop := time_time rt start.2 in
  _safe_execute rt db_name client operation (VDict d) w
  = (Ok (length (objects w)),
     mkWorld (objects w ++
                [OResult (mkDatabaseResult db_name false VNone
                            (Some ("'" ++ key ++ "'")%string) (stop.1 - start.1))])
             stop.2).
Proof.
  intros Hkey Hmissing start stop.
  destruct (safe_execute_outcome db_name client operation (VDict d) w)
    as (outcome & s1 & Hexec & Hrun).
  pose proof (execute_operation_rejects client operation d
                (mkWorld (objects w) (time_time rt (outside w)).2)) as Hrej.
  rewrite Hkey in Hrej. rewrite (Hrej Hmissing) in Hexec.
  injection Hexec as <- <-. exact Hrun.
Qed.
End SafeExecute.

Lemma value_is_str_eq k v : value_is_str k v = true -> v = VStr k.
Proof.
  destruct v; simpl; try done. intros H. apply String.eqb_eq in H. by subst.
Qed.

Section Payloads.
Context {St : Type} (rt : Runtime St).
Implicit Types (w : world St) (client : Client St).

Lemma search_loop client collection_name limit metric_type queries acc w :
  match (for_each queries
           (fun query_vector data =>
              bind (await_call (search_vectors client collection_name query_vector
                                               limit metric_type))
                   (fun result => ret (data ++ [result]))) acc w).1 with
  | Ok data => length data = (length acc + length queries)%nat
  | Raise _ => True
  end.
Proof.
  revert acc w. induction queries as [|q queries IH]; intros acc w; simpl.
  - lia.
  - unfold bind at 1. unfold bind at 1, await_call, external, lift, bind at 1.
    destruct (search_vectors client collection_name q limit metric_type (outside w))
      as [[answer|e] s]; simpl; [|done].
    specialize (IH (acc ++ [answer]) (mkWorld (objects w) s)).
    destruct (for_each _ _ _ _).1; [|done].
    rewrite IH, length_app. simpl. lia.
Qed.

Lemma mixed_step_entries client collection_name op acc w :
  match (mixed_step client collection_name op acc w).1 with
  | Ok data =>
      exists new, data = acc ++ new /\ Forall mixed_entry new
        /\ length new = (if known_sub_operation op then 1 else 0)%nat
  | Raise _ => True
  end.
Proof.
  unfold mixed_step, known_sub_operation, bind at 1, lift at 1.
  destruct (py_getitem op "type") as [type|e]; simpl; [|done].
  destruct (value_is_str "insert" type) eqn:Hi; simpl.
  { apply value_is_str_eq in Hi as ->.
    unfold bind at 1, lift at 1.
    destruct (py_getitem op "vectors") as [vectors|e]; simpl; [|done].
    unfold bind at 1, lift at 1.
    destruct (py_getitem op "id") as [id|e]; simpl; [|done].
    cbv beta delta [bind await_call external lift ret].
    match goal with
    | |- context [insert_vectors client ?a ?b ?c ?d ?s] =>
        destruct (insert_vectors client a b c d s) as [[answer|e] s']
    end; simpl; [|done].
    eexists. split; [done|]. split; [|done].
    repeat constructor. eexists _, _. split; [done|]. simpl. auto. }
  destruct (value_is_str "search" type) eqn:Hs; simpl.
  { apply value_is_str_eq in Hs as ->.
    unfold bind at 1, lift at 1.
    destruct (py_getitem op "query_vector") as [query_vector|e]; simpl; [|done].
    unfold bind at 1, lift at 1.
    destruct (py_getitem op "limit") as [limit|e]; simpl; [|done].
    cbv beta delta [bind await_call external lift ret].
    match goal with
    | |- context [search_vectors client ?a ?b ?c ?d ?s] =>
        destruct (search_vectors client a b c d s) as [[answer|e] s']
    end; simpl; [|done].
    eexists. split; [done|]. split; [|done].
    repeat constructor. eexists _, _. split; [done|]. simpl. auto. }
  destruct (value_is_str "delete" type) eqn:Hd; simpl.
  { apply value_is_str_eq in Hd as ->.
    unfold bind at 1, lift at 1.
    destruct (py_getitem op "ids") as [ids|e]; simpl; [|done].
    cbv beta delta [bind await_call external lift ret].
    match goal with
    | |- context [delete_vectors client ?a ?b ?s] =>
        destruct (delete_vectors client a b s) as [[answer|e] s']
    end; simpl; [|done].
    eexists. split; [done|]. split; [|done].
    repeat constructor. eexists _, _. split; [done|]. simpl. auto. }
  exists []. by rewrite app_nil_r.
Qed.

Lemma mixed_loop client collection_name ops acc w :
  match (for_each ops (mixed_step client collection_name) acc w).1 with
  | Ok data =>
      exists new, data = acc ++ new /\ Forall mixed_entry new
        /\ length new = length (List.filter known_sub_operation ops)
  | Raise _ => True
  end.
Proof.
  revert acc w. induction ops as [|op ops IH]; intros acc w; simpl.
  - exists []. by rewrite app_nil_r.
  - unfold bind.
    pose proof (mixed_step_entries client collection_name op acc w) as Hstep.
    destruct (mixed_step client collection_name op acc w) as [[data|e] w1];
      simpl in *; [|done].
    destruct Hstep as (new1 & -> & Hnew1 & Hlen1).
    specialize (IH (acc ++ new1) w1).
    destruct (for_each _ _ _ _).1 as [data|e]; [|done].
    destruct IH as (new2 & -> & Hnew2 & Hlen2).
    exists (new1 ++ new2). rewrite app_assoc. split; [done|].
    split; [by apply Forall_app|]. rewrite length_app, Hlen1, Hlen2.
    by destruct (known_sub_operation op).
Qed.

Lemma execute_batch_search client inputs w :
  match (execute_operation client "batch_search" inputs w).1 with
  | Ok payload => batch_search_payload inputs payload
  | Raise _ => True
  end.
Proof.
  unfold execute_operation. simpl.
  unfold bind at 1, lift at 1.
  destruct (py_get inputs "collection_name" _) as [collection_name|e]; simpl; [|done].
  unfold bind at 1, lift at 1.
  destruct (py_getitem inputs "query_vectors") as [query_vectors|e] eqn:Hq;
    simpl; [|done].
  unfold bind at 1, lift at 1.
  destruct (py_get inputs "limit" _) as [limit|e]; simpl; [|done].
  unfold bind at 1, lift at 1.
  destruct (py_get inputs "metric_type" _) as [metric_type|e]; simpl; [|done].
  unfold batch_search_data, bind at 1, lift at 1.
  destruct (py_iter query_vectors) as [queries|e] eqn:Hiter; simpl; [|done].
  unfold bind at 1.
  pose proof (search_loop client collection_name limit metric_type queries [] w)
    as Hloop.
  destruct (for_each queries _ [] w) as [[answers|e] w1]; simpl in *; [|done].
  exists query_vectors, queries, answers. done.
Qed.

Lemma execute_mixed_operations client inputs w :
  match (execute_operation client "mixed_operations" inputs w).1 with
  | Ok payload => mixed_operations_payload inputs payload
  | Raise _ => True
  end.
Proof.
  unfold execute_operation. simpl.
  unfold bind at 1, lift at 1.
  destruct (py_get inputs "collection_name" _) as [collection_name|e]; simpl; [|done].
  unfold bind at 1, lift at 1.
  destruct (py_getitem inputs "operations") as [operations|e] eqn:Hq;
    simpl; [|done].
  unfold bind at 1, lift at 1.
  destruct (py_iter operations) as [ops|e] eqn:Hiter; simpl; [|done].
  unfold bind at 1.
  pose proof (mixed_loop client collection_name ops [] w) as Hloop.
  destruct (for_each ops _ [] w) as [[entries|e] w1]; simpl in *; [|done].
  destruct Hloop as (new & -> & Hnew & Hlen).
  exists operations, ops, new. done.
Qed.


End Payloads.

Section Invariant.
Context (py_str : value -> string) {St : Type} (rt : Runtime St).
Implicit Types (w : world St) (m : list (string * DatabaseResult)).

Lemma gather_loop_inv (P : string -> DatabaseResult -> Prop)
      (tasks : list (string * M St loc)) w outcomes0 :
  Forall (fun t => forall w, exists s r,
            t.2 w = (Ok (length (objects w)), mkWorld (objects w ++ [OResult r]) s)
            /\ P t.1 r) tasks ->
  exists w' es m,
    for_each (dict_values tasks)
             (fun task outcomes => bind (settle task) (fun o => ret (outcomes ++ [o])))
             outcomes0 w
    = (Ok (outcomes0 ++ map Ok (map snd es)), w')
    /\ grows w w' /\ holds_results w' es m
    /\ dict_keys es = dict_keys tasks
    /\ Forall (fun s => P s.1 s.2) m.
Proof.
  intros Htasks. revert w outcomes0.
  induction Htasks as [|[k task] tasks Htask _ IH]; intros w outcomes0; simpl.
  - exists w, [], []. rewrite app_nil_r.
    split; [done|]. split; [apply grows_refl|]. split; [constructor|done].
  - destruct (Htask w) as (s & r & Hrun & HP). simpl in Hrun, HP.
    set (w1 := mkWorld (objects w ++ [OResult r]) s) in *.
    assert (Hbody : bind (settle task) (fun o => ret (outcomes0 ++ [o])) w
                    = (Ok (outcomes0 ++ [Ok (length (objects w))]), w1)).
    { unfold bind, settle. by rewrite Hrun. }
    rewrite (bind_ok _ _ _ _ _ Hbody).
    destruct (IH w1 (outcomes0 ++ [Ok (length (objects w))]))
      as (w' & es & m & Hloop & Hg & Hes & Hkeys & Hm).
    exists w', ((k, length (objects w)) :: es), ((k, r) :: m).
    split; [|split; [|split; [|split]]].
    + rewrite Hloop. simpl. by rewrite <- app_assoc.
    + eapply grows_trans; [|exact Hg]. by exists [OResult r].
    + constructor; [|done]. split; [done|]. simpl.
      eapply grows_lookup; [exact Hg|]. subst w1. simpl.
      by apply list_lookup_middle.
    + simpl. by rewrite Hkeys.
    + by constructor.
Qed.

(** [_execute_on_all_databases] returns a new dictionary with one result per
    configured adapter, and every property that all results of
    [_safe_execute] and all gather failures have holds of its entries. *)
Lemma execute_run_inv (P : string -> DatabaseResult -> Prop)
      (clients : clients_dict St) operation inputs w :
  NoDup (dict_keys clients) ->
  (forall db_name client w0 r s,
     _safe_execute rt db_name client operation inputs w0
     = (Ok (length (objects w0)), mkWorld (objects w0 ++ [OResult r]) s) ->
     P db_name r) ->
  (forall db_name description,
     P db_name (mkDatabaseResult db_name false VNone (Some description) 0)) ->
  exists w' l m,
    _execute_on_all_databases rt clients operation inputs w = (Ok l, w')
    /\ grows w w' /\ results_at w' l m
    /\ dict_keys m = dict_keys clients
    /\ Forall (fun s => P s.1 s.2) m.
Proof.
  intros Hnd Hsafe Hfailed. unfold _execute_on_all_databases. cbv zeta.
  rewrite (tasks_of_clients
             (fun db_name client => _safe_execute rt db_name client operation inputs)
             clients []) by done.
  rewrite app_nil_l.
  set (tasks := map _ clients).
  assert (Hkeys_tasks : dict_keys tasks = dict_keys clients).
  { subst tasks. unfold dict_keys. rewrite map_map. done. }
  rewrite Hkeys_tasks.
  destruct (gather_loop_inv P tasks w [])
    as (w1 & es & m & Hloop & Hg1 & Hes & Hkeys & HP).
  { subst tasks. apply Forall_forall. intros t [c [-> Hc]]%list_elem_of_fmap w0.
    simpl. destruct (safe_execute_run rt c.1 c.2 operation inputs w0)
      as (s & r & Hrun & _).
    exists s, r. split; [done|]. by eapply Hsafe. }
  rewrite app_nil_l in Hloop.
  destruct (gather_fault rt (outside w1)) as [fault s2] eqn:Hfault.
  set (w2 := mkWorld (objects w1) s2).
  assert (Hg2 : grows w1 w2) by (by apply grows_same_objects).
  assert (Hgather : asyncio_gather rt (dict_values tasks) w
                    = match fault with
                      | Some e => (Raise e, w2)
                      | None => (Ok (map Ok (map snd es)), w2)
                      end).
  { unfold asyncio_gather. rewrite (bind_ok _ _ _ _ _ Hloop).
    unfold bind, external. rewrite Hfault. by destruct fault. }
  assert (Hndm : NoDup (dict_keys m)).
  { rewrite <- (holds_results_keys _ _ _ Hes). by rewrite Hkeys, Hkeys_tasks. }
  destruct fault as [e|].
  - unfold try_except. rewrite (bind_raise _ _ _ _ _ Hgather).
    destruct (failed_loop (dict_keys clients) ("Gather error: " ++ exn_str e) [] [] w2)
      as (w3 & es' & Hfl & Hext & Hes'); [constructor|done|].
    rewrite (bind_ok _ _ _ _ _ Hfl). unfold alloc.
    rewrite app_nil_l in Hes'.
    eexists _, _, (gather_failed _ (dict_keys clients)).
    split; [done|]. split; [|split; [|split]].
    + eapply grows_trans; [exact Hg1|]. eapply grows_trans; [exact Hg2|].
      eapply grows_trans; [by apply extends_grows|]. by exists [ODict es'].
    + split; [by rewrite gather_failed_keys|].
      exists es'. split; [by apply list_lookup_middle|].
      eapply holds_results_grows; [|exact Hes']. by exists [ODict es'].
    + apply gather_failed_keys.
    + unfold gather_failed. apply Forall_forall.
      intros s [n [-> _]]%list_elem_of_fmap. simpl. apply Hfailed.
  - unfold try_except. rewrite (bind_ok _ _ _ _ _ Hgather).
    assert (Hcollect :
      for_each (enumerate (dict_keys clients))
               (collect_result (St:=St) (map Ok (map snd es))) [] w2
      = (Ok es, w2)).
    { unfold enumerate.
      pose proof (collect_results_loop (dict_keys clients) (map snd es) [] [] w2)
        as Hloop2.
      simpl in Hloop2. rewrite Hloop2.
      - rewrite <- Hkeys_tasks, <- Hkeys. unfold dict_keys.
        by rewrite combine_fst_snd.
      - rewrite <- Hkeys_tasks, <- Hkeys. unfold dict_keys.
        by rewrite !length_map.
      - done. }
    rewrite (bind_ok _ _ _ _ _ Hcollect). unfold alloc.
    eexists _, _, m.
    split; [done|]. split; [|split; [|split]].
    + eapply grows_trans; [exact Hg1|]. eapply grows_trans; [exact Hg2|].
      by exists [ODict es].
    + split; [done|]. exists es. split; [by apply list_lookup_middle|].
      eapply holds_results_grows; [|exact Hes].
      eapply grows_trans; [exact Hg2|]. by exists [ODict es].
    + rewrite <- (holds_results_keys _ _ _ Hes). by rewrite Hkeys.
    + done.
Qed.

Lemma safe_execute_well_formed db_name (client : Client St) operation inputs w r s :
  _safe_execute rt db_name client operation inputs w
  = (Ok (length (objects w)), mkWorld (objects w ++ [OResult r]) s) ->
  well_formed_result operation inputs db_name r.
Proof.
  intros Hrun.
  destruct (safe_execute_outcome rt db_name client operation inputs w)
    as (outcome & s1 & Hexec & Hrun').
  rewrite Hrun in Hrun'. injection Hrun' as Hobj _.
  apply app_inv_head in Hobj. injection Hobj as ->.
  unfold well_formed_result, result_of_outcome.
  destruct outcome as [payload|e]; simpl.
  - split; [done|]. split; [done|]. split.
    + intros ->.
      pose proof (execute_batch_search client inputs
                    (mkWorld (objects w) (time_time rt (outside w)).2)) as H.
      by rewrite Hexec in H.
    + intros ->.
      pose proof (execute_mixed_operations client inputs
                    (mkWorld (objects w) (time_time rt (outside w)).2)) as H.
      by rewrite Hexec in H.
  - split; [done|]. split; [done|]. by eexists.
Qed.

(** X16. Every entry of the dictionary [_execute_on_all_databases] returns
    is well formed: it carries the name it is filed under; if it succeeded
    it has no error and, for batch_search and mixed_operations, a payload of
    the shape that operation produces; if it failed its payload is [None]
    and it has an error text. *)
Theorem execute_results_well_formed (clients : clients_dict St) operation inputs w :
  NoDup (dict_keys clients) ->
  exists w' l m,
    _execute_on_all_databases rt clients operation inputs w = (Ok l, w')
    /\ results_at w' l m
    /\ dict_keys m = dict_keys clients
    /\ Forall (fun s => well_formed_result operation inputs s.1 s.2) m.
Proof.
  intros Hnd.
  destruct (execute_run_inv (well_formed_result operation inputs)
              clients operation inputs w Hnd)
    as (w' & l & m & Hrun & _ & Hat & Hkeys & Hm).
  - intros db_name client w0 r s. apply safe_execute_well_formed.
  - intros db_name description. split; [done|]. simpl. split; [done|]. by eexists.
  - by exists w', l, m.
Qed.

(** What [run_test] returns, in terms of the results of the adapters and of
    the comparator's run on the successful ones. *)
Lemma run_test_inv (P : string -> DatabaseResult -> Prop)
      (clients : clients_dict St) tid op inp w :
  NoDup (dict_keys clients) ->
  (forall db_name client w0 r s,
     _safe_execute rt db_name client op inp w0
     = (Ok (length (objects w0)), mkWorld (objects w0 ++ [OResult r]) s) ->
     P db_name r) ->
  (forall db_name description,
     P db_name (mkDatabaseResult db_name false VNone (Some description) 0)) ->
  exists m w2 sl,
    dict_keys m = dict_keys clients
    /\ Forall (fun s => P s.1 s.2) m
    /\ results_at w2 sl (successful m)
    /\ match (run_test py_str rt clients tid op inp w).1 with
       | Ok t =>
           results t = map (fun s => (s.1, data s.2)) m
           /\ if (length (successful m) <? 2)%nat
              then inconsistencies t = divergence m
              else exists rest,
                  comparator_for py_str op sl w2 = (Ok rest, w2)
                  /\ inconsistencies t = divergence m ++ rest
       | Raise e =>
           (2 <= length (successful m))%nat
           /\ comparator_for py_str op sl w2 = (Raise e, w2)
       end.
Proof.
  intros Hnd Hsafe Hfailed. unfold run_test.
  destruct (now_run rt w) as (start_time & s0 & Hnow).
  rewrite (bind_ok _ _ _ _ _ Hnow).
  set (w0 := mkWorld (objects w) s0).
  destruct (execute_run_inv P clients op inp w0 Hnd Hsafe Hfailed)
    as (w1 & l & m & Hexec & Hg1 & Hat1 & Hkeys & HP).
  rewrite (bind_ok _ _ _ _ _ Hexec).
  destruct (compare_results_run py_str op w1 l m Hat1)
    as (w2 & sl & Hext & Hsat & Hcmp).
  destruct (comparator_run py_str op w2 sl (successful m) Hsat)
    as (r & Hr & Htotal & Hnodiv).
  assert (Hat2 : results_at w2 l m) by (by eapply results_at_extends).
  exists m, w2, sl. split; [done|]. split; [done|]. split; [done|].
  destruct (length (successful m) <? 2)%nat eqn:Hlen.
  - rewrite (bind_ok _ _ _ _ _ Hcmp).
    destruct (report_run rt tid op inp start_time (divergence m) w2 l m Hat2)
      as (t & w3 & Hrep & Hobj & Hid & Hop & Hin & Hres & Hinc & Htime).
    rewrite Hrep. simpl. done.
  - rewrite Hr in Hcmp. apply Nat.ltb_ge in Hlen.
    destruct r as [rest|e]; simpl in Hcmp.
    + rewrite (bind_ok _ _ _ _ _ Hcmp).
      destruct (report_run rt tid op inp start_time
                           (divergence m ++ rest) w2 l m Hat2)
        as (t & w3 & Hrep & Hobj & Hid & Hop & Hin & Hres & Hinc & Htime).
      rewrite Hrep. simpl. split; [done|]. by exists rest.
    + rewrite (bind_raise _ _ _ _ _ Hcmp). simpl. done.
Qed.
End Invariant.

Lemma mixed_payload_count inputs payload payload' :
  mixed_operations_payload inputs payload ->
  mixed_operations_payload inputs payload' ->
  operation_count_of payload = operation_count_of payload'.
Proof.
  intros (operations & ops & entries & Ho & Hi & -> & Hlen & _)
         (operations' & ops' & entries' & Ho' & Hi' & -> & Hlen' & _).
  rewrite Ho in Ho'. injection Ho' as <-. rewrite Hi in Hi'. injection Hi' as <-.
  simpl. by rewrite Hlen, Hlen'.
Qed.

Lemma distinct_values_constant (v : value) (vs : list value) :
  hashable v = true -> scalar_eqb v v = true ->
  Forall (eq v) vs -> (distinct_values vs <= 1)%nat.
Proof.
  intros Hh Hrefl Hall. unfold distinct_values.
  assert (H : forall acc, (acc = [] \/ acc = [v]) ->
            let s := fold_left (fun s x => set_add_value x s) vs acc in
            s = [] \/ s = [v]).
  { induction Hall as [|x vs <- _ IH]; intros acc Hacc; simpl; [done|].
    apply IH. destruct Hacc as [->| ->]; simpl; [by right|].
    rewrite Hrefl. by right. }
  destruct (H [] (or_introl eq_refl)) as [-> | ->]; simpl; lia.
Qed.

Section RunTestFacts.
Context (py_str : value -> string) {St : Type} (rt : Runtime St).
Implicit Types (w : world St) (m : list (string * DatabaseResult)).

Lemma insert_raise_class w l m e :
  results_at w l m ->
  _compare_insert_results l w = (Raise e, w) ->
  exn_class e = TypeError \/ exn_class e = ValueError.
Proof.
  intros Hat. rewrite (insert_run w l m Hat).
  destruct (collect _ m) as [counts|e0] eqn:Hc; simpl.
  - destruct (py_set_len (dict_values counts)) as [n|e1] eqn:Hn; simpl.
    + destruct (1 <? n)%nat; [|done].
      destruct (insert_count_message counts) as [msg|e2] eqn:Hmsg; simpl; [done|].
      intros [= <-]. right. by apply insert_count_message_raise in Hmsg as [? _].
    + intros [= <-]. left. by apply py_set_len_raise in Hn as [? _].
  - intros [= <-]. left. apply collect_raise in Hc as (s & _ & Hf).
    by apply accepted_count_raise in Hf as [? _].
Qed.

Lemma delete_raise_class w l m e :
  results_at w l m ->
  _compare_delete_results l w = (Raise e, w) -> exn_class e = AttributeError.
Proof.
  intros Hat. rewrite (delete_run w l m Hat).
  destruct (collect _ m) as [st|e0] eqn:Hc; simpl; [done|].
  intros [= <-]. apply collect_raise in Hc as (s & _ & Hf).
  unfold rmap in Hf. destruct (delete_status (data s.2)) as [v|e1] eqn:Hv; [done|].
  injection Hf as <-. by apply delete_status_raise in Hv as [? _].
Qed.

(** What one call of [run_test] gives its caller. *)
Lemma run_test_outcome (clients : clients_dict St) tid op inp w :
  NoDup (dict_keys clients) ->
  match (run_test py_str rt clients tid op inp w).1 with
  | Ok t =>
      test_id t = tid /\ operation t = op /\ inputs t = inp
      /\ dict_keys (results t) = dict_keys clients
      /\ dict_keys (test_execution_time t) = dict_keys clients
  | Raise e =>
      (In op ["insert"; "batch_insert"]
       /\ (exn_class e = TypeError \/ exn_class e = ValueError))
      \/ (op = "delete" /\ exn_class e = AttributeError)
  end.
Proof.
  intros Hnd.
  pose proof (run_test_run py_str rt clients tid op inp w Hnd)
    as (l & m & fault & s & _ & Hkeys & _ & _ & Hres).
  destruct (run_test py_str rt clients tid op inp w).1 as [t|e] eqn:Hrun.
  - destruct Hres as (Hid & Hop & Hin & Hr & Ht & _).
    split; [done|]. split; [done|]. split; [done|]. split; [|done].
    rewrite Hr. unfold dict_keys in *. rewrite map_map. simpl. done.
  - clear Hres l m fault s Hkeys.
    destruct (run_test_inv py_str rt (fun _ _ => True) clients tid op inp w Hnd)
      as (m & w2 & sl & _ & _ & Hsat & Hres); [done|done|].
    rewrite Hrun in Hres. destruct Hres as [_ Hcmp].
    destruct (comparator_run py_str op w2 sl (successful m) Hsat)
      as (r & Hr & Htotal & _).
    rewrite Hr in Hcmp. injection Hcmp as ->.
    destruct (decide (In op ["insert"; "batch_insert"; "delete"])) as [Hin|Hnot].
    + simpl in Hin. destruct Hin as [<-|[<-|[<-|[]]]].
      * left. split; [simpl; auto|].
        by apply (insert_raise_class w2 sl (successful m) e Hsat).
      * left. split; [simpl; auto|].
        by apply (insert_raise_class w2 sl (successful m) e Hsat).
      * right. split; [done|].
        by apply (delete_raise_class w2 sl (successful m) e Hsat).
    + by destruct (Htotal Hnot).
Qed.

(** X17. [run_test] propagates nothing but the exceptions of two comparators:
    for insert and batch_insert a [TypeError] of the insert comparator or the
    [ValueError] of its mismatch message, which cannot print an integer of
    more than 4300 digits; for delete an [AttributeError] of the delete
    comparator. *)
Theorem run_test_raise_classes (clients : clients_dict St) tid op inp w e :
  NoDup (dict_keys clients) ->
  (run_test py_str rt clients tid op inp w).1 = Raise e ->
  (In op ["insert"; "batch_insert"]
   /\ (exn_class e = TypeError \/ exn_class e = ValueError))
  \/ (op = "delete" /\ exn_class e = AttributeError).
Proof.
  intros Hnd Hraise.
  pose proof (run_test_outcome clients tid op inp w Hnd) as H.
  by rewrite Hraise in H.
Qed.

(** X18. Within [run_test] the mixed_operations comparator never finds a
    count mismatch: every adapter that succeeded holds one entry for every
    known sub-operation of the same inputs.  [run_test] returns, and the
    list of inconsistencies holds at most the success/failure divergence. *)
Theorem run_test_mixed_counts_agree (clients : clients_dict St) tid inp w :
  NoDup (dict_keys clients) ->
  exists t,
    (run_test py_str rt clients tid "mixed_operations" inp w).1 = Ok t
    /\ (inconsistencies t = []
        \/ exists succeeded failed,
             inconsistencies t = [SuccessFailureDivergence succeeded failed]).
Proof.
  intros Hnd.
  destruct (run_test_inv py_str rt (well_formed_result "mixed_operations" inp)
              clients tid "mixed_operations" inp w Hnd)
    as (m & w2 & sl & _ & HP & Hsat & Hres).
  { intros db_name client w0 r s. apply safe_execute_well_formed. }
  { intros db_name description. split; [done|]. simpl. split; [done|]. by eexists. }
  assert (Hdiv : divergence m = []
                 \/ exists succeeded failed,
                      divergence m = [SuccessFailureDivergence succeeded failed]).
  { unfold divergence. destruct (successful m), (failed m); eauto. }
  assert (Hcmp : comparator_for py_str "mixed_operations" sl w2 = (Ok [], w2)).
  { change (comparator_for py_str "mixed_operations" sl w2)
      with (_compare_mixed_operation_results sl w2).
    rewrite (mixed_run w2 sl (successful m) Hsat). cbv zeta.
    destruct (1 <? _)%nat eqn:Hd; [|done]. exfalso.
    apply Nat.ltb_lt in Hd. unfold dict_values in Hd. rewrite map_map in Hd.
    simpl in Hd.
    destruct (successful m) as [|first rest] eqn:Hsucc.
    { unfold distinct_values in Hd. simpl in Hd. lia. }
    assert (Hshape : forall s, s ∈ first :: rest ->
              mixed_operations_payload inp (data s.2)).
    { intros s Hs. rewrite <- Hsucc in Hs. unfold successful in Hs.
      apply list_elem_of_In, filter_In in Hs as [Hin Hok].
      rewrite Forall_forall in HP.
      destruct (HP s (proj2 (list_elem_of_In _ _) Hin)) as [_ Hwf].
      rewrite Hok in Hwf. destruct Hwf as [_ [_ Hmixed]]. by apply Hmixed. }
    pose proof (distinct_values_constant (operation_count_of (data first.2))
                  (map (fun s : string * DatabaseResult =>
                          operation_count_of (data s.2)) (first :: rest))) as Hle.
    enough (distinct_values
              (map (fun s : string * DatabaseResult =>
                      operation_count_of (data s.2)) (first :: rest)) <= 1)%nat
      by lia.
    apply Hle.
    - unfold operation_count_of. by destruct (data first.2).
    - unfold operation_count_of.
      destruct (data first.2); rewrite scalar_eqb_int; apply Z.eqb_refl.
    - apply Forall_forall. intros v [s [-> Hs]]%list_elem_of_fmap.
      apply (mixed_payload_count inp); apply Hshape; [left|done]. }
  destruct (run_test py_str rt clients tid "mixed_operations" inp w).1 as [t|e].
  - exists t. split; [done|]. destruct Hres as [_ Hres].
    destruct (length (successful m) <? 2)%nat.
    + by rewrite Hres.
    + destruct Hres as (rest & Hrest & ->). rewrite Hcmp in Hrest.
      injection Hrest as <-. by rewrite app_nil_r.
  - destruct Hres as [_ Hres]. by rewrite Hcmp in Hres.
Qed.
End RunTestFacts.

Lemma digit_value_char (d : N) : (d < 10)%N -> digit_value (pretty_N_char d) = d.
Proof.
  intros Hd.
  assert (d = 0 \/ d = 1 \/ d = 2 \/ d = 3 \/ d = 4 \/ d = 5 \/ d = 6 \/ d = 7
          \/ d = 8 \/ d = 9)%N as H by lia.
  repeat destruct H as [->|H]; try done. by subst.
Qed.

Lemma decimal_value_go (x : N) (s : string) :
  decimal_value 0 (pretty_N_go x s) = decimal_value x s.
Proof.
  revert s. induction (N.lt_wf_0 x) as [x _ IH]; intros s.
  destruct (decide (x = 0)%N) as [->|Hpos]; [by rewrite pretty_N_go_0|].
  rewrite pretty_N_go_step by lia.
  rewrite IH by (apply N.div_lt; lia). simpl.
  rewrite digit_value_char by (apply N.mod_lt; lia).
  f_equal. rewrite (N.div_mod x 10) at 3 by lia. lia.
Qed.

Lemma decimal_value_pretty (i : nat) : decimal_value 0 (pretty i) = N.of_nat i.
Proof.
  unfold pretty, pretty_nat, pretty, pretty_N.
  destruct (decide (N.of_nat i = 0)%N) as [->|_]; [done|].
  by rewrite decimal_value_go.
Qed.

Lemma decimal_value_zeros (n : nat) (s : string) :
  decimal_value 0 (zeros n ++ s) = decimal_value 0 s.
Proof. induction n as [|n IH]; simpl; [done|exact IH]. Qed.

Lemma test_id_of_inj i j : test_id_of i = test_id_of j -> i = j.
Proof.
  unfold test_id_of. intros [= H].
  change (zero_padded 4 i = zero_padded 4 j) in H.
  apply (f_equal (decimal_value 0)) in H. unfold zero_padded in H. cbv zeta in H.
  rewrite !decimal_value_zeros, !decimal_value_pretty in H. lia.
Qed.

Section DriverFacts.
Context (py_str : value -> string) {St : Type} (rt : Runtime St).
Implicit Types (w : world St).

Lemma fuzz_loop (generate_test : M St (string * value))
      (clients : clients_dict St) (numbers : list nat) (acc : list TestResult) w :
  NoDup (dict_keys clients) ->
  match (for_each numbers
           (fun i results =>
              bind generate_test (fun test =>
              bind (run_test py_str rt clients (test_id_of i) test.1 test.2)
                   (fun result => ret (results ++ [result])))) acc w).1 with
  | Ok tests =>
      exists new, tests = acc ++ new
        /\ Forall2 (fun i t =>
                      test_id t = test_id_of i
                      /\ dict_keys (results t) = dict_keys clients
                      /\ dict_keys (test_execution_time t) = dict_keys clients)
                   numbers new
  | Raise e =>
      (exists w', (generate_test w').1 = Raise e)
      \/ exn_class e = TypeError \/ exn_class e = ValueError
      \/ exn_class e = AttributeError
  end.
Proof.
  intros Hnd. revert acc w.
  induction numbers as [|i numbers IH]; intros acc w; simpl.
  - unfold ret. simpl. exists []. by rewrite app_nil_r.
  - unfold bind at 1. unfold bind at 1.
    destruct (generate_test w) as [[test|e] w1] eqn:Hgen; simpl.
    2:{ left. exists w. by rewrite Hgen. }
    unfold bind at 1.
    pose proof (run_test_outcome py_str rt clients (test_id_of i) test.1 test.2 w1 Hnd)
      as Hrun.
    destruct (run_test py_str rt clients (test_id_of i) test.1 test.2 w1)
      as [[t|e] w2]; simpl in *.
    2:{ right. destruct Hrun as [[_ [?|?]]|[_ ?]]; auto. }
    unfold ret at 1.
    specialize (IH (acc ++ [t]) w2).
    destruct (for_each numbers _ (acc ++ [t]) w2).1 as [tests|e]; [|done].
    destruct IH as (new & -> & Hnew).
    exists (t :: new). rewrite <- app_assoc. split; [done|].
    constructor; [|done]. by destruct Hrun as (? & _ & _ & ? & ?).
Qed.

(** X19. [run_fuzz_test] either returns one [TestResult] per test number
    below [num_tests] (none when [num_tests] is not positive), the result
    at index [i] carrying the id [test_<i>], zero-padded to four digits, and
    one entry per configured adapter in both maps, all ids being distinct;
    or it propagates the first exception of the generator or of the insert
    or delete comparator (a [TypeError], a [ValueError] or an
    [AttributeError]), and the results gathered so far are lost. *)
Theorem run_fuzz_test_results (generate_test : M St (string * value))
        (clients : clients_dict St) (num_tests : Z) w :
  NoDup (dict_keys clients) ->
  match (run_fuzz_test py_str rt generate_test clients num_tests w).1 with
  | Ok tests =>
      length tests = Z.to_nat num_tests
      /\ (forall i t, tests !! i = Some t ->
            test_id t = test_id_of i
            /\ dict_keys (results t) = dict_keys clients
            /\ dict_keys (test_execution_time t) = dict_keys clients)
      /\ NoDup (map test_id tests)
  | Raise e =>
      (exists w', (generate_test w').1 = Raise e)
      \/ exn_class e = TypeError \/ exn_class e = ValueError
      \/ exn_class e = AttributeError
  end.
Proof.
  intros Hnd. unfold run_fuzz_test.
  pose proof (fuzz_loop generate_test clients (seq 0 (Z.to_nat num_tests)) [] w Hnd)
    as Hloop.
  destruct (for_each _ _ [] w).1 as [tests|e]; [|done].
  destruct Hloop as (new & -> & Hnew). simpl.
  assert (Hlen : length new = Z.to_nat num_tests).
  { rewrite <- (Forall2_length _ _ _ Hnew). apply length_seq. }
  split; [done|].
  assert (Hat : forall i t, new !! i = Some t ->
            test_id t = test_id_of i
            /\ dict_keys (results t) = dict_keys clients
            /\ dict_keys (test_execution_time t) = dict_keys clients).
  { intros i t Hi.
    destruct (Forall2_lookup_r _ _ _ _ _ Hnew Hi) as (n & Hn & Ht).
    apply lookup_seq in Hn as [-> _]. done. }
  split; [done|].
  apply NoDup_alt. intros i j tid Hi Hj.
  apply list_lookup_fmap_Some in Hi as (t & -> & Hi).
  apply list_lookup_fmap_Some in Hj as (t' & Heq & Hj).
  destruct (Hat i t Hi) as [Hti _]. destruct (Hat j t' Hj) as [Htj _].
  apply test_id_of_inj. congruence.
Qed.
End DriverFacts.

Lemma extra_keys_NoDup :
  NoDup (dict_keys format_results) /\ NoDup (dict_keys disjoint_results)
  /\ NoDup (dict_keys disjoint_results_swapped)
  /\ NoDup (dict_keys insert_unhashable_results)
  /\ NoDup (dict_keys answering_clients).
Proof. repeat split; by apply (bool_decide_unpack _). Qed.

Lemma extractor_unwraps_result_witness :
  within_limits (VDict wrapped_payload) = true
  /\ dict_get_list "data" wrapped_payload = None
  /\ dict_get_list "ids" wrapped_payload = None
  /\ dict_get "result" wrapped_payload = Some (with_ids [7]%Z)
  /\ _extract_search_result_ids example_str (VDict wrapped_payload)
     = _extract_search_result_ids example_str (with_ids [7]%Z).
Proof.
  split; [reflexivity|].
  split; [reflexivity|]. split; [reflexivity|]. split; [reflexivity|].
  apply (proj2 (extractor_unwraps_result example_str)); reflexivity.
Defined.

Lemma extractor_error_classes_witness :
  within_limits (VDict [("points", VList [VInt 1])]) = true
  /\ _extract_search_result_ids example_str (VDict [("points", VList [VInt 1])])
     = Raise (type_error "argument of type 'int' is not iterable")
  /\ type_or_attribute_error (type_error "argument of type 'int' is not iterable").
Proof.
  split; [reflexivity|]. split; [reflexivity|].
  apply (proj1 (extractor_error_classes example_str)
               (VDict [("points", VList [VInt 1])])); reflexivity.
Defined.

Lemma search_compares_with_reference_only_witness :
  results_at (world_of search_results) 3 search_results
  /\ exists incs flagged,
       _compare_search_results example_str 3 (world_of search_results)
       = (Ok incs, world_of search_results)
       /\ flagged `sublist_of` [("b", succeeded "b" (with_ids [1; 2; 9]%Z));
                                ("c", succeeded "c" (with_ids [9; 10; 11]%Z))]
       /\ NoDup (dict_keys flagged)
       /\ incs = map (fun s : string * DatabaseResult =>
                        SearchResultsDiffer "a" s.1
                          (overlap_percent
                             (id_set example_str (with_ids [1; 2; 3]%Z))
                             (id_set example_str (data s.2))))
                     flagged.
Proof.
  assert (H : results_at (world_of search_results) 3 search_results).
  { apply (world_of_results_at search_results), example_keys_NoDup. }
  split; [exact H|].
  destruct (search_compares_with_reference_only example_str _ _ _ _ H)
    as (incs & flagged & Hrun & Hsub & Hnd & Hincs & _).
  exists incs, flagged.
  split; [exact Hrun|]. split; [exact Hsub|]. split; [exact Hnd|exact Hincs].
Defined.

Lemma search_same_ids_any_format_witness :
  results_at (world_of format_results) 2 format_results
  /\ _compare_search_results example_str 2 (world_of format_results)
     = (Ok [], world_of format_results).
Proof.
  assert (H : results_at (world_of format_results) 2 format_results).
  { apply (world_of_results_at format_results), extra_keys_NoDup. }
  split; [exact H|].
  apply (search_same_ids_any_format example_str _ _ _ [VInt 1; VInt 2] H).
  intros s Hs. apply elem_of_cons in Hs as [->|Hs].
  { exists [VInt 1; VInt 2]. split; [reflexivity|]. left. reflexivity. }
  apply elem_of_cons in Hs as [->|Hs].
  { exists [VInt 2; VInt 1]. split; [apply perm_swap|].
    right. right. right. right. reflexivity. }
  by apply elem_of_nil in Hs.
Defined.

Lemma search_verdict_symmetric_witness :
  results_at (world_of disjoint_results) 2 disjoint_results
  /\ results_at (world_of disjoint_results_swapped) 2 disjoint_results_swapped
  /\ (_compare_search_results example_str 2 (world_of disjoint_results_swapped)).1
     = Ok [SearchResultsDiffer "c" "a" (0 # 3)].
Proof.
  assert (H : results_at (world_of disjoint_results) 2 disjoint_results).
  { apply (world_of_results_at disjoint_results), extra_keys_NoDup. }
  assert (H' : results_at (world_of disjoint_results_swapped) 2
                          disjoint_results_swapped).
  { apply (world_of_results_at disjoint_results_swapped), extra_keys_NoDup. }
  split; [exact H|]. split; [exact H'|].
  apply (proj1 (search_verdict_symmetric example_str _ _ _ _ _ _ H H' (0 # 3))).
  by vm_compute.
Defined.

Lemma batch_search_bounded_by_reference_witness :
  results_at (world_of batch_results) 2 batch_results
  /\ exists incs,
       _compare_batch_search_results example_str 2 (world_of batch_results)
       = (Ok incs, world_of batch_results)
       /\ (length incs <= 2 * 1)%nat.
Proof.
  assert (H : results_at (world_of batch_results) 2 batch_results).
  { apply (world_of_results_at batch_results), example_keys_NoDup. }
  split; [exact H|].
  destruct (batch_search_bounded_by_reference example_str _ _ _ _ H)
    as (incs & Hrun & Hbound).
  exists incs. split; [exact Hrun|]. exact (proj2 Hbound).
Defined.

Lemma insert_comparator_raises_exactly_when_witness :
  results_at (world_of insert_unhashable_results) 2 insert_unhashable_results
  /\ (exists s, s ∈ insert_unhashable_results
                /\ insert_raising_payload (data s.2) = true)
  /\ exists e,
       (_compare_insert_results 2 (world_of insert_unhashable_results)).1 = Raise e
       /\ exn_class e = TypeError.
Proof.
  assert (H : results_at (world_of insert_unhashable_results) 2
                         insert_unhashable_results).
  { apply (world_of_results_at insert_unhashable_results), extra_keys_NoDup. }
  assert (Hraising : exists s, s ∈ insert_unhashable_results
                               /\ insert_raising_payload (data s.2) = true).
  { exists ("a", succeeded "a" (VDict [("insert_count", VList [VInt 1])])).
    split; [left|reflexivity]. }
  split; [exact H|]. split; [exact Hraising|].
  exact (proj2 (proj1 (insert_comparator_raises_exactly_when _ _ _ H)) Hraising).
Defined.

Lemma delete_comparator_raises_exactly_when_witness :
  results_at (world_of delete_results) 3 delete_results
  /\ ((exists e, (_compare_delete_results 3 (world_of delete_results)).1 = Raise e)
      <-> exists s, s ∈ delete_results /\ delete_raising_payload (data s.2) = true).
Proof.
  assert (H : results_at (world_of delete_results) 3 delete_results).
  { apply (world_of_results_at delete_results), example_keys_NoDup. }
  split; [exact H|].
  exact (proj1 (delete_comparator_raises_exactly_when _ _ _ H)).
Defined.

Lemma mixed_count_rule_witness :
  results_at (world_of batch_results) 2 batch_results
  /\ exists incs,
       _compare_mixed_operation_results 2 (world_of batch_results)
       = (Ok incs, world_of batch_results)
       /\ incs = [MixedCountMismatch [("a", VInt 2); ("b", VInt 1)]].
Proof.
  assert (H : results_at (world_of batch_results) 2 batch_results).
  { apply (world_of_results_at batch_results), example_keys_NoDup. }
  split; [exact H|].
  destruct (mixed_count_rule _ _ _ H) as (incs & Hrun & Hdiffer & _).
  exists incs. split; [exact Hrun|]. apply Hdiffer.
  exists ("a", succeeded "a" (VList [with_ids [1; 2; 3]%Z; with_ids [4]%Z])),
         ("b", succeeded "b" (VList [with_ids [9; 10; 11]%Z])).
  split; [left|]. split; [right; left|]. simpl. lia.
Defined.

Lemma safe_execute_unknown_operation_witness :
  ~ In "flush" ["insert"; "search"; "delete"; "batch_insert"; "batch_search";
                "mixed_operations"]
  /\ _safe_execute quiet_runtime "a" (constant_client VNone) "flush" (VDict [])
                   (mkWorld [] tt)
     = (Ok 0%nat,
        mkWorld [OResult (mkDatabaseResult "a" false VNone
                            (Some "Unknown operation: flush") (0 - 0))] tt).
Proof.
  assert (H : ~ In "flush" ["insert"; "search"; "delete"; "batch_insert";
                            "batch_search"; "mixed_operations"]).
  { simpl. intros [H|[H|[H|[H|[H|[H|[]]]]]]]; discriminate H. }
  split; [exact H|].
  exact (safe_execute_unknown_operation quiet_runtime "a" (constant_client VNone)
           "flush" [] (mkWorld [] tt) H).
Defined.

Lemma safe_execute_missing_key_witness :
  required_key "search" = Some "query_vector"
  /\ dict_get "query_vector" [("limit", VInt 5)] = None
  /\ _safe_execute quiet_runtime "a" (constant_client VNone) "search"
                   (VDict [("limit", VInt 5)]) (mkWorld [] tt)
     = (Ok 0%nat,
        mkWorld [OResult (mkDatabaseResult "a" false VNone
                            (Some "'query_vector'") (0 - 0))] tt).
Proof.
  split; [reflexivity|]. split; [reflexivity|].
  exact (safe_execute_missing_key quiet_runtime "a" (constant_client VNone)
           "search" "query_vector" [("limit", VInt 5)] (mkWorld [] tt)
           eq_refl eq_refl).
Defined.

Lemma execute_results_well_formed_witness :
  NoDup (dict_keys numeric_status_clients)
  /\ exists w' l m,
       _execute_on_all_databases quiet_runtime numeric_status_clients
                                 "delete" delete_inputs (mkWorld [] tt)
       = (Ok l, w')
       /\ results_at w' l m
       /\ dict_keys m = ["a"; "b"]
       /\ Forall (fun s => well_formed_result "delete" delete_inputs s.1 s.2) m.
Proof.
  assert (H : NoDup (dict_keys numeric_status_clients))
    by apply example_keys_NoDup.
  split; [exact H|].
  exact (execute_results_well_formed quiet_runtime numeric_status_clients
           "delete" delete_inputs (mkWorld [] tt) H).
Defined.

Lemma run_test_raise_classes_witness :
  NoDup (dict_keys numeric_status_clients)
  /\ (run_test example_str quiet_runtime numeric_status_clients
               "test_0000" "delete" delete_inputs (mkWorld [] tt)).1
     = Raise (mkExn AttributeError "'int' object has no attribute 'lower'")
  /\ ((In "delete" ["insert"; "batch_insert"]
       /\ (exn_class (mkExn AttributeError "'int' object has no attribute 'lower'")
           = TypeError
           \/ exn_class (mkExn AttributeError "'int' object has no attribute 'lower'")
              = ValueError))
      \/ ("delete" = "delete"
          /\ exn_class (mkExn AttributeError "'int' object has no attribute 'lower'")
             = AttributeError)).
Proof.
  assert (H : NoDup (dict_keys numeric_status_clients))
    by apply example_keys_NoDup.
  assert (Hraise :
    (run_test example_str quiet_runtime numeric_status_clients
              "test_0000" "delete" delete_inputs (mkWorld [] tt)).1
    = Raise (mkExn AttributeError "'int' object has no attribute 'lower'"))
    by (by vm_compute).
  split; [exact H|]. split; [exact Hraise|].
  exact (run_test_raise_classes example_str quiet_runtime numeric_status_clients
           "test_0000" "delete" delete_inputs (mkWorld [] tt) _ H Hraise).
Defined.

Lemma run_test_mixed_counts_agree_witness :
  NoDup (dict_keys answering_clients)
  /\ (exists t,
        (run_test example_str quiet_runtime answering_clients "test_0000"
                  "mixed_operations" mixed_inputs (mkWorld [] tt)).1 = Ok t
        /\ (inconsistencies t = []
            \/ exists succeeded failed,
                 inconsistencies t = [SuccessFailureDivergence succeeded failed]))
  /\ exists t,
       (run_test example_str quiet_runtime answering_clients "test_0000"
                 "mixed_operations" mixed_inputs (mkWorld [] tt)).1 = Ok t
       /\ results t
          = [("a", VList [VDict [("operation", VStr "insert");
                                 ("result", VDict [("status", VStr "ok")])];
                          VDict [("operation", VStr "delete");
                                 ("result", VDict [("status", VStr "ok")])]]);
             ("b", VList [VDict [("operation", VStr "insert"); ("result", VNone)];
                          VDict [("operation", VStr "delete"); ("result", VNone)]])]
       /\ inconsistencies t = [].
Proof.
  assert (H : NoDup (dict_keys answering_clients))
    by apply extra_keys_NoDup.
  split; [exact H|]. split.
  - exact (run_test_mixed_counts_agree example_str quiet_runtime
             answering_clients "test_0000" mixed_inputs (mkWorld [] tt) H).
  - eexists. split; [by vm_compute|]. split; reflexivity.
Defined.

Lemma run_fuzz_test_results_witness :
  NoDup (dict_keys numeric_status_clients)
  /\ match (run_fuzz_test example_str quiet_runtime constant_generator
                          numeric_status_clients 3 (mkWorld [] tt)).1 with
     | Ok tests =>
         length tests = 3%nat
         /\ (forall i t, tests !! i = Some t ->
               test_id t = test_id_of i
               /\ dict_keys (results t) = ["a"; "b"]
               /\ dict_keys (test_execution_time t) = ["a"; "b"])
         /\ NoDup (map test_id tests)
     | Raise e =>
         (exists w', (constant_generator w').1 = Raise e)
         \/ exn_class e = TypeError \/ exn_class e = ValueError
         \/ exn_class e = AttributeError
     end.
Proof.
  assert (H : NoDup (dict_keys numeric_status_clients))
    by apply example_keys_NoDup.
  split; [exact H|].
  exact (run_fuzz_test_results example_str quiet_runtime constant_generator
           numeric_status_clients 3 (mkWorld [] tt) H).
Defined.

Section Returns.
Context {St : Type}.

Lemma returns_ret {A} (a : A) (P : A -> Prop) : P a -> returns (St:=St) (ret a) P.
Proof. intros Ha w. by exists a, w. Qed.

Lemma returns_bind {A B} (c : M St A) (k : A -> M St B)
      (P : A -> Prop) (Q : B -> Prop) :
  returns c P -> (forall a, P a -> returns (k a) Q) -> returns (bind c k) Q.
Proof.
  intros Hc Hk w. destruct (Hc w) as (a & w1 & Hrun & Ha).
  destruct (Hk a Ha w1) as (b & w2 & Hrun2 & Hb).
  exists b, w2. unfold bind. by rewrite Hrun.
Qed.

Lemma returns_weaken {A} (c : M St A) (P Q : A -> Prop) :
  returns c P -> (forall a, P a -> Q a) -> returns c Q.
Proof.
  intros Hc HPQ w. destruct (Hc w) as (a & w1 & Hrun & Ha).
  exists a, w1. auto.
Qed.

Lemma returns_external {A} (f : St -> A * St) :
  returns (external f) (fun _ => True).
Proof.
  intros w. unfold external. destruct (f (outside w)) as [a s]. by eexists _, _.
Qed.

(** A loop returns when its body does; [I k] is what holds of the
    accumulator after [k] iterations. *)
Lemma returns_for_each {A X} (xs : list X) (body : X -> A -> M St A)
      (I : nat -> A -> Prop) (k : nat) (acc : A) :
  I k acc ->
  (forall x j a, I j a -> returns (body x a) (I (S j))) ->
  returns (for_each xs body acc) (I (k + length xs)%nat).
Proof.
  intros Hacc Hbody. revert k acc Hacc.
  induction xs as [|x xs IH]; intros k acc Hacc; simpl.
  - rewrite Nat.add_0_r. by apply returns_ret.
  - eapply returns_bind; [by apply Hbody|].
    intros a Ha. replace (k + S (length xs))%nat with (S k + length xs)%nat by lia.
    by apply IH.
Qed.
End Returns.

Lemma length_range (n : Z) : length (range n) = Z.to_nat n.
Proof. unfold range. by rewrite length_map, length_seq. Qed.

Section GeneratorFacts.
Context {St : Type} (rnd : Random St) (config : FuzzConfig).

Lemma returns_random_lt (p : Q) : returns (random_lt rnd p) (fun _ => True).
Proof.
  unfold random_lt. eapply returns_bind; [apply returns_external|].
  intros x _. by apply returns_ret.
Qed.

Lemma returns_uniform (a b : Z) :
  returns (uniform rnd a b) (fun v => isinstance_float v = true).
Proof.
  unfold uniform. eapply returns_bind; [apply returns_external|].
  intros x _. by apply returns_ret.
Qed.

Lemma returns_randint (a b : Z) :
  (a <= b)%Z -> returns (randint rnd a b) (fun z => (a <= z <= b)%Z).
Proof.
  intros Hab. unfold randint.
  destruct (Z.ltb_spec b a) as [Hlt|_]; [lia|].
  eapply returns_bind; [apply returns_external|].
  intros n _. apply returns_ret.
  pose proof (N.mod_lt n (Z.to_N (b - a + 1))) as Hmod.
  assert (H : (n mod Z.to_N (b - a + 1) < Z.to_N (b - a + 1))%N)
    by (apply Hmod; lia).
  apply N2Z.inj_lt in H. rewrite Z2N.id in H by lia.
  pose proof (N2Z.is_nonneg (n mod Z.to_N (b - a + 1))). lia.
Qed.

Lemma returns_choice {A} (xs : list A) :
  xs <> [] -> returns (choice rnd xs) (fun x => In x xs).
Proof.
  intros Hne. unfold choice. destruct xs as [|x xs]; [done|].
  eapply returns_bind; [apply returns_external|].
  intros n _. apply returns_ret. apply nth_In.
  apply Nat.mod_upper_bound. simpl. lia.
Qed.

Lemma returns_list_of (n : Z) (body : M St value) (P : value -> Prop) :
  returns body P ->
  returns (list_of n body)
          (fun items => length items = Z.to_nat n /\ Forall P items).
Proof.
  intros Hbody. unfold list_of.
  eapply returns_weaken.
  - apply (returns_for_each (range n) _
             (fun j items => length items = j /\ Forall P items) 0 []).
    + by split.
    + intros x j items [Hlen Hall].
      eapply returns_bind; [exact Hbody|].
      intros v Hv. apply returns_ret. split.
      * rewrite length_app. simpl. lia.
      * apply Forall_app. split; [done|]. by constructor.
  - simpl. intros items [Hlen Hall]. split; [|done].
    by rewrite Hlen, length_range.
Qed.

Lemma returns_random_id :
  returns (random_id rnd) (fun v => isinstance_str v = true).
Proof.
  unfold random_id. eapply returns_bind; [by apply returns_randint|].
  intros n _. by apply returns_ret.
Qed.

Lemma forallb_Forall_float (items : list value) :
  Forall (fun v => isinstance_float v = true) items ->
  forallb isinstance_float items = true.
Proof. induction 1 as [|v items Hv _ IH]; simpl; [done|]. by rewrite Hv, IH. Qed.

Lemma returns_generate_vector (dimension : option Z) :
  returns (_generate_vector rnd config dimension)
          (fun v => float_vector v = true).
Proof.
  unfold _generate_vector. cbv zeta.
  eapply returns_bind; [apply returns_random_lt|]. intros [|] _.
  - eapply returns_bind; [apply returns_random_lt|]. intros [|] _.
    + by apply returns_ret.
    + eapply returns_bind; [by apply returns_randint|]. intros n _.
      eapply returns_bind; [apply returns_list_of, returns_uniform|].
      intros vector [_ Hv]. apply returns_ret. simpl.
      by apply forallb_Forall_float.
  - eapply returns_bind; [apply returns_random_lt|]. intros large _.
    eapply returns_bind.
    { instantiate (1 := fun _ => True). destruct large.
      - eapply returns_weaken; [by apply returns_randint|done].
      - by apply returns_ret. }
    intros d _.
    eapply returns_bind.
    { apply returns_list_of.
      instantiate (1 := fun v => isinstance_float v = true).
      eapply returns_bind; [apply returns_random_lt|].
      intros [|] _; apply returns_uniform. }
    intros vector [_ Hv].
    eapply returns_bind; [apply returns_random_lt|]. intros infinities _.
    eapply returns_bind; [apply returns_random_lt|]. intros nan _.
    apply returns_ret. simpl. apply forallb_Forall_float.
    destruct nan, infinities; repeat (apply Forall_app; split);
      try done; repeat constructor.
Qed.

Lemma returns_collection_name :
  returns (_generate_collection_name rnd) (fun v => isinstance_str v = true).
Proof.
  unfold _generate_collection_name.
  eapply returns_bind; [apply returns_random_lt|]. intros [|] _.
  - eapply returns_bind; [by apply returns_choice|].
    intros name _. by apply returns_ret.
  - eapply returns_bind; [by apply returns_randint|].
    intros n _. by apply returns_ret.
Qed.
End GeneratorFacts.

Lemma isinstance_str_inv v : isinstance_str v = true -> exists s, v = VStr s.
Proof. destruct v; try done. by eexists. Qed.

Section GeneratorTheorems.
Context {St : Type} (rnd : Random St) (config : FuzzConfig).

Lemma returns_choices_joined (population : string) (k : Z) :
  population <> "" ->
  returns (choices_joined rnd population k) (fun v => isinstance_str v = true).
Proof.
  intros Hne. unfold choices_joined.
  eapply returns_bind.
  - apply (returns_for_each (range k) _ (fun _ _ => True) 0 []); [done|].
    intros _ j cs _. eapply returns_bind.
    + apply returns_choice. by destruct population.
    + intros c _. by apply returns_ret.
  - intros cs _. by apply returns_ret.
Qed.

Lemma returns_metadata_field (field_type : string) :
  returns (metadata_field rnd config field_type) (fun _ => True).
Proof.
  unfold metadata_field.
  destruct (String.eqb field_type "string").
  { eapply returns_bind; [apply returns_random_lt|]. intros [|] _.
    - eapply returns_bind; [by apply returns_randint|]. intros k _.
      eapply returns_bind; [by apply returns_choices_joined|].
      intros s _. by apply returns_ret.
    - eapply returns_bind; [by apply returns_randint|]. intros k _.
      eapply returns_bind; [by apply returns_choices_joined|].
      intros s _. by apply returns_ret. }
  destruct (String.eqb field_type "number").
  { eapply returns_bind; [by apply returns_randint|].
    intros n _. by apply returns_ret. }
  destruct (String.eqb field_type "boolean").
  { eapply returns_bind; [by apply returns_choice|].
    intros b _. by apply returns_ret. }
  destruct (String.eqb field_type "list").
  { eapply returns_bind; [by apply returns_randint|]. intros k _.
    eapply returns_bind.
    - apply returns_list_of. instantiate (1 := fun _ => True).
      eapply returns_bind; [by apply returns_randint|].
      intros n _. by apply returns_ret.
    - intros items _. by apply returns_ret. }
  destruct (String.eqb field_type "nested").
  { eapply returns_bind; [by apply returns_choice|].
    intros v _. by apply returns_ret. }
  by apply returns_ret.
Qed.

Lemma returns_generate_metadata :
  (0 <= max_metadata_size config)%Z ->
  returns (_generate_metadata rnd config) (fun v => isinstance_dict v = true).
Proof.
  intros Hsize. unfold _generate_metadata.
  eapply returns_bind; [by apply returns_randint|]. intros num_fields _.
  eapply returns_bind.
  - apply (returns_for_each (range num_fields) _ (fun _ _ => True) 0 []); [done|].
    intros i j metadata _.
    eapply returns_bind; [by apply returns_choice|]. intros field_type _.
    eapply returns_bind; [apply returns_metadata_field|].
    intros field _. by apply returns_ret.
  - intros metadata _. by apply returns_ret.
Qed.

Lemma returns_insert_params :
  usable_config config ->
  returns (_generate_insert_params rnd config) (generated_insert_inputs config).
Proof.
  intros [Hbatch Hsize]. unfold _generate_insert_params.
  eapply returns_bind; [by apply returns_randint|]. intros num_vectors Hnum.
  eapply returns_bind; [apply returns_list_of, returns_generate_vector|].
  intros vectors [Hlv Hvectors].
  eapply returns_bind; [apply returns_list_of, returns_random_id|].
  intros ids [Hli Hids].
  eapply returns_bind.
  { apply returns_list_of.
    instantiate (1 := fun v => v = VNone \/ isinstance_dict v = true).
    eapply returns_bind; [apply returns_random_lt|]. intros [|] _.
    - eapply returns_weaken; [by apply returns_generate_metadata|]. auto.
    - apply returns_ret. auto. }
  intros metadata [Hlm Hmetadata].
  eapply returns_bind; [apply returns_collection_name|].
  intros collection_name [name ->]%isinstance_str_inv.
  apply returns_ret. exists vectors, ids, metadata, name.
  split; [done|]. split; [congruence|]. split; [congruence|].
  split; [|done].
  cbv beta in Hnum. rewrite Hlv, Z2Nat.id by lia. exact Hnum.
Qed.

Lemma returns_mixed_sub_operation (op_params : option value) :
  returns (mixed_sub_operation rnd config op_params) generated_sub_operation.
Proof.
  unfold mixed_sub_operation.
  eapply returns_bind; [by apply returns_choice|]. intros op_type Hin.
  simpl in Hin. destruct Hin as [<-|[<-|[<-|[]]]]; simpl.
  - eapply returns_bind; [apply returns_generate_vector|]. intros vector Hv.
    eapply returns_bind; [apply returns_random_id|]. intros id Hid.
    apply returns_ret. left. by exists vector, id.
  - eapply returns_bind; [apply returns_generate_vector|]. intros vector Hv.
    eapply returns_bind; [by apply returns_randint|]. intros limit Hlimit.
    apply returns_ret. right. left. by exists vector, limit.
  - eapply returns_bind; [apply returns_random_id|]. intros id Hid.
    apply returns_ret. right. right. by exists id.
Qed.

Lemma returns_mixed_params :
  returns (_generate_mixed_operations_params rnd config) generated_mixed_inputs.
Proof.
  unfold _generate_mixed_operations_params.
  eapply returns_bind; [by apply returns_randint|]. intros num_operations Hnum.
  eapply returns_bind.
  - apply (returns_for_each (range num_operations) _
             (fun j (looped : option value * list value) =>
                length looped.2 = j /\ Forall generated_sub_operation looped.2)
             0 (None, [])); [by split|].
    intros _ j [op_params ops] [Hlen Hops]. simpl in *.
    eapply returns_bind; [apply returns_mixed_sub_operation|].
    intros op Hop. apply returns_ret. simpl. split.
    + rewrite length_app. simpl. lia.
    + apply Forall_app. split; [done|]. by constructor.
  - intros [op_params ops] [Hlen Hops]. simpl in *.
    eapply returns_bind; [apply returns_collection_name|].
    intros collection_name [name ->]%isinstance_str_inv.
    apply returns_ret. exists ops, name. split; [done|]. split; [|done].
    rewrite Hlen, length_range. lia.
Qed.

Lemma generated_sub_operation_known op :
  generated_sub_operation op -> known_sub_operation op = true.
Proof.
  intros [(v & i & -> & _)|[(v & l & -> & _)|(i & -> & _)]]; reflexivity.
Qed.

Lemma returns_search_params :
  returns (_generate_search_params rnd config) (ready_for "search").
Proof.
  unfold _generate_search_params.
  eapply returns_bind; [apply returns_generate_vector|]. intros query_vector _.
  eapply returns_bind; [by apply returns_randint|]. intros limit _.
  eapply returns_bind; [by apply returns_choice|]. intros metric_type _.
  eapply returns_bind; [apply returns_collection_name|].
  intros collection_name [name ->]%isinstance_str_inv.
  apply returns_ret. by eexists _, "query_vector", _, name.
Qed.

Lemma returns_delete_params :
  returns (_generate_delete_params rnd) (ready_for "delete").
Proof.
  unfold _generate_delete_params.
  eapply returns_bind; [by apply returns_randint|]. intros num_ids _.
  eapply returns_bind; [apply returns_list_of, returns_random_id|].
  intros ids _.
  eapply returns_bind; [apply returns_random_lt|]. intros invalid _.
  eapply returns_bind; [apply returns_collection_name|].
  intros collection_name [name ->]%isinstance_str_inv.
  apply returns_ret. by eexists _, "ids", _, name.
Qed.

Lemma returns_batch_search_params :
  returns (_generate_batch_search_params rnd config) (ready_for "batch_search").
Proof.
  unfold _generate_batch_search_params.
  eapply returns_bind; [by apply returns_randint|]. intros num_queries _.
  eapply returns_bind; [apply returns_list_of, returns_generate_vector|].
  intros query_vectors _.
  eapply returns_bind; [by apply returns_randint|]. intros limit _.
  eapply returns_bind; [by apply returns_choice|]. intros metric_type _.
  eapply returns_bind; [apply returns_collection_name|].
  intros collection_name [name ->]%isinstance_str_inv.
  apply returns_ret. by eexists _, "query_vectors", _, name.
Qed.

(** X21. With a usable configuration [generate_test] always returns one of
    the six operations together with a dictionary of inputs that holds the
    entry [_safe_execute] needs for that operation and a collection name;
    the branch for an unknown operation is never taken. *)
Theorem generate_test_ready :
  usable_config config ->
  returns (generate_test rnd config)
          (fun test => In test.1 operations /\ ready_for test.1 test.2).
Proof.
  intros Husable. unfold generate_test.
  eapply returns_bind; [by apply returns_choice|]. intros operation Hin.
  simpl in Hin. destruct Hin as [<-|[<-|[<-|[<-|[<-|[<-|[]]]]]]]; simpl.
  - eapply returns_bind; [by apply returns_insert_params|].
    intros inputs (vectors & ids & metadata & name & -> & _).
    apply returns_ret. simpl. split; [auto|].
    by eexists _, "vectors", _, name.
  - eapply returns_bind; [apply returns_search_params|].
    intros inputs Hready. apply returns_ret. simpl. split; [auto|done].
  - eapply returns_bind; [apply returns_delete_params|].
    intros inputs Hready. apply returns_ret. simpl. split; [auto|done].
  - eapply returns_bind; [by apply returns_insert_params|].
    intros inputs (vectors & ids & metadata & name & -> & _).
    apply returns_ret. simpl. split; [auto 10|].
    by eexists _, "vectors", _, name.
  - eapply returns_bind; [apply returns_batch_search_params|].
    intros inputs Hready. apply returns_ret. simpl. split; [auto 10|done].
  - eapply returns_bind; [apply returns_mixed_params|].
    intros inputs (ops & name & -> & _).
    apply returns_ret. simpl. split; [auto 10|].
    by eexists _, "operations", _, name.
Qed.

(** X22. With a usable configuration [_generate_insert_params] always returns
    inputs whose [vectors], [ids] and [metadata] are lists of the same
    length, between 1 and [max_vectors_per_batch]: every vector is a list of
    floats, every id a string, every metadata entry [None] or a
    dictionary. *)
Theorem generate_insert_params_parallel :
  usable_config config ->
  returns (_generate_insert_params rnd config) (generated_insert_inputs config).
Proof. apply returns_insert_params. Qed.

(** X23. [_generate_mixed_operations_params] always returns between 2 and 10
    sub-operations, each an insert with one vector and an id, a search with
    a query vector and a limit from 1 to 20, or a delete with one id; so
    the [mixed_operations] loop of [_safe_execute] skips none of them. *)
Theorem generate_mixed_operations_runnable :
  returns (_generate_mixed_operations_params rnd config)
          (fun inputs =>
             generated_mixed_inputs inputs
             /\ forall ops, py_getitem inputs "operations" = Ok (VList ops) ->
                  length (List.filter known_sub_operation ops) = length ops).
Proof.
  eapply returns_weaken; [apply returns_mixed_params|].
  intros inputs Hgen. split; [done|].
  destruct Hgen as (ops & name & -> & _ & Hops).
  intros ops' [= <-]. clear name.
  induction Hops as [|op ops Hop _ IH]; simpl; [done|].
  rewrite (generated_sub_operation_known op Hop). simpl. by rewrite IH.
Qed.
End GeneratorTheorems.

Section Composition.
Context {St : Type} (rt : Runtime St) (rnd : Random St) (config : FuzzConfig).
Implicit Types (client : Client St).

Lemma returns_lift {A} (a : A) : returns (St:=St) (lift (Ok a)) (eq a).
Proof. intros w. by exists a, w. Qed.

Lemma returns_await (f : St -> result value * St) :
  (forall s, exists payload s', f s = (Ok payload, s')) ->
  returns (await_call f) (fun _ => True).
Proof.
  intros Hf w. unfold await_call, bind, external, lift.
  destruct (Hf (outside w)) as (payload & s' & Hrun). rewrite Hrun.
  by eexists _, _.
Qed.

Lemma returns_for_each_Forall {A X} (Q : X -> Prop) (xs : list X)
      (body : X -> A -> M St A) (acc : A) :
  Forall Q xs ->
  (forall x a, Q x -> returns (body x a) (fun _ => True)) ->
  returns (for_each xs body acc) (fun _ => True).
Proof.
  intros Hxs Hbody. revert acc.
  induction Hxs as [|x xs Hx _ IH]; intros acc; simpl.
  - by apply returns_ret.
  - eapply returns_bind; [by apply Hbody|]. intros a _. apply IH.
Qed.

Lemma returns_mixed_step client collection_name op data :
  answers client -> generated_sub_operation op ->
  returns (mixed_step client collection_name op data) (fun _ => True).
Proof.
  intros (Hinsert & Hsearch & Hdelete) Hop. unfold mixed_step.
  destruct Hop as [(v & i & -> & _)|[(v & l & -> & _)|(i & -> & _)]]; simpl.
  - eapply returns_bind; [apply returns_lift|]. intros type <-. simpl.
    eapply returns_bind; [apply returns_lift|]. intros vectors <-.
    eapply returns_bind; [apply returns_lift|]. intros id <-.
    eapply returns_bind; [apply returns_await; intros s; apply Hinsert|].
    intros result _. by apply returns_ret.
  - eapply returns_bind; [apply returns_lift|]. intros type <-. simpl.
    eapply returns_bind; [apply returns_lift|]. intros query_vector <-.
    eapply returns_bind; [apply returns_lift|]. intros limit <-.
    eapply returns_bind; [apply returns_await; intros s; apply Hsearch|].
    intros result _. by apply returns_ret.
  - eapply returns_bind; [apply returns_lift|]. intros type <-. simpl.
    eapply returns_bind; [apply returns_lift|]. intros ids <-.
    eapply returns_bind; [apply returns_await; intros s; apply Hdelete|].
    intros result _. by apply returns_ret.
Qed.

(** With an adapter that answers, the [try] block of [_safe_execute]
    reaches its end on runnable inputs. *)
Lemma execute_operation_returns client operation inputs :
  answers client -> In operation operations -> runnable operation inputs ->
  returns (execute_operation client operation inputs) (fun _ => True).
Proof.
  intros Hanswers Hin ((d & key & v & name & -> & Hkey & Hv & Hname) & Hbatch & Hmixed).
  pose proof Hanswers as (Hinsert & Hsearch & Hdelete).
  unfold execute_operation.
  eapply returns_bind; [apply returns_lift|]. intros collection_name _.
  simpl in Hin. destruct Hin as [<-|[<-|[<-|[<-|[<-|[<-|[]]]]]]]; simpl;
    injection Hkey as <-.
  - unfold py_getitem. rewrite Hv.
    eapply returns_bind; [apply returns_lift|]. intros vectors _.
    eapply returns_bind; [apply returns_lift|]. intros ids _.
    eapply returns_bind; [apply returns_lift|]. intros metadata _.
    apply returns_await. intros s. apply Hinsert.
  - unfold py_getitem. rewrite Hv.
    eapply returns_bind; [apply returns_lift|]. intros query_vector _.
    eapply returns_bind; [apply returns_lift|]. intros limit _.
    eapply returns_bind; [apply returns_lift|]. intros metric_type _.
    apply returns_await. intros s. apply Hsearch.
  - unfold py_getitem. rewrite Hv.
    eapply returns_bind; [apply returns_lift|]. intros ids _.
    apply returns_await. intros s. apply Hdelete.
  - unfold py_getitem. rewrite Hv.
    eapply returns_bind; [apply returns_lift|]. intros vectors _.
    eapply returns_bind; [apply returns_lift|]. intros ids _.
    eapply returns_bind; [apply returns_lift|]. intros metadata _.
    apply returns_await. intros s. apply Hinsert.
  - destruct (Hbatch eq_refl) as (d' & queries & [= <-] & Hq).
    unfold py_getitem. rewrite Hq.
    eapply returns_bind; [apply returns_lift|]. intros query_vectors <-.
    eapply returns_bind; [apply returns_lift|]. intros limit _.
    eapply returns_bind; [apply returns_lift|]. intros metric_type _.
    unfold batch_search_data. simpl.
    eapply returns_bind; [apply returns_lift|]. intros queries' <-.
    eapply returns_bind.
    + apply (returns_for_each_Forall (fun _ => True)).
      * by apply Forall_forall.
      * intros q data _.
        eapply returns_bind; [apply returns_await; intros s; apply Hsearch|].
        intros result _. by apply returns_ret.
    + intros data _. by apply returns_ret.
  - destruct (Hmixed eq_refl) as (ops & name' & [= ->] & _ & Hops).
    simpl.
    eapply returns_bind; [apply returns_lift|]. intros operations' <-.
    simpl.
    eapply returns_bind; [apply returns_lift|]. intros ops' <-.
    eapply returns_bind.
    + apply (returns_for_each_Forall generated_sub_operation); [done|].
      intros op data Hop. by apply returns_mixed_step.
    + intros data _. by apply returns_ret.
Qed.

Lemma returns_batch_search_list :
  returns (_generate_batch_search_params rnd config) (runnable "batch_search").
Proof.
  unfold _generate_batch_search_params.
  eapply returns_bind; [by apply returns_randint|]. intros num_queries _.
  eapply returns_bind; [apply returns_list_of, returns_generate_vector|].
  intros query_vectors _.
  eapply returns_bind; [by apply returns_randint|]. intros limit _.
  eapply returns_bind; [by apply returns_choice|]. intros metric_type _.
  eapply returns_bind; [apply returns_collection_name|].
  intros collection_name [name ->]%isinstance_str_inv.
  apply returns_ret. split; [|split].
  - by eexists _, "query_vectors", _, name.
  - intros _. by eexists _, _.
  - done.
Qed.

Lemma ready_runnable operation inputs :
  operation <> "batch_search" -> operation <> "mixed_operations" ->
  ready_for operation inputs -> runnable operation inputs.
Proof. intros Hb Hm Hready. split; [done|]. split; intros ->; done. Qed.

Lemma returns_generate_test_runnable :
  usable_config config ->
  returns (generate_test rnd config)
          (fun test => In test.1 operations /\ runnable test.1 test.2).
Proof.
  intros Husable. unfold generate_test.
  eapply returns_bind; [by apply returns_choice|]. intros operation Hin.
  simpl in Hin. destruct Hin as [<-|[<-|[<-|[<-|[<-|[<-|[]]]]]]]; simpl.
  - eapply returns_bind; [by apply returns_insert_params|].
    intros inputs (vectors & ids & metadata & name & -> & _).
    apply returns_ret. simpl. split; [auto|].
    apply ready_runnable; [done|done|]. by eexists _, "vectors", _, name.
  - eapply returns_bind; [apply returns_search_params|].
    intros inputs Hready. apply returns_ret. simpl. split; [auto|].
    by apply ready_runnable.
  - eapply returns_bind; [apply returns_delete_params|].
    intros inputs Hready. apply returns_ret. simpl. split; [auto|].
    by apply ready_runnable.
  - eapply returns_bind; [by apply returns_insert_params|].
    intros inputs (vectors & ids & metadata & name & -> & _).
    apply returns_ret. simpl. split; [auto 10|].
    apply ready_runnable; [done|done|]. by eexists _, "vectors", _, name.
  - eapply returns_bind; [apply returns_batch_search_list|].
    intros inputs Hrun. apply returns_ret. simpl. split; [auto 10|done].
  - eapply returns_bind; [apply returns_mixed_params|].
    intros inputs Hgen. apply returns_ret. simpl. split; [auto 10|].
    split; [|split; [done|by intros _]].
    destruct Hgen as (ops & name & -> & _).
    by eexists _, "operations", _, name.
Qed.

(** X24. The generator and [_safe_execute] fit together: with a usable
    configuration, every test [generate_test] returns succeeds on every
    adapter that answers its calls; no generated test fails for an unknown
    operation, a missing entry or a malformed sub-operation. *)
Theorem generated_tests_succeed client :
  usable_config config -> answers client ->
  returns (generate_test rnd config)
          (fun test =>
             forall db_name w, exists r s,
               _safe_execute rt db_name client test.1 test.2 w
               = (Ok (length (objects w)), mkWorld (objects w ++ [OResult r]) s)
               /\ success r = true /\ error r = None).
Proof.
  intros Husable Hanswers.
  eapply returns_weaken; [by apply returns_generate_test_runnable|].
  intros [operation inputs] [Hin Hrun] db_name w. simpl in *.
  destruct (safe_execute_outcome rt db_name client operation inputs w)
    as (outcome & s1 & Hexec & Hsafe).
  destruct (execute_operation_returns client operation inputs Hanswers Hin Hrun
              (mkWorld (objects w) (time_time rt (outside w)).2))
    as (payload & w1 & Hok & _).
  rewrite Hok in Hexec. injection Hexec as <- _.
  eexists _, _. split; [exact Hsafe|]. done.
Qed.
End Composition.

Lemma default_config_usable : usable_config default_config.
Proof. unfold usable_config. simpl. lia. Qed.

Lemma constant_client_answers (payload : value) : answers (constant_client payload).
Proof. repeat split; intros; by eexists _, _. Qed.

Lemma generate_test_ready_witness :
  usable_config default_config
  /\ returns (generate_test fixed_random default_config)
             (fun test => In test.1 operations /\ ready_for test.1 test.2).
Proof.
  split; [exact default_config_usable|].
  exact (generate_test_ready fixed_random default_config default_config_usable).
Defined.

Lemma generate_insert_params_parallel_witness :
  usable_config default_config
  /\ returns (_generate_insert_params fixed_random default_config)
             (generated_insert_inputs default_config).
Proof.
  split; [exact default_config_usable|].
  exact (generate_insert_params_parallel fixed_random default_config
           default_config_usable).
Defined.

Lemma generated_tests_succeed_witness :
  usable_config default_config
  /\ answers (constant_client VNone)
  /\ returns (generate_test fixed_random default_config)
       (fun test =>
          forall db_name w, exists r s,
            _safe_execute quiet_runtime db_name (constant_client VNone)
                          test.1 test.2 w
            = (Ok (length (objects w)), mkWorld (objects w ++ [OResult r]) s)
            /\ success r = true /\ error r = None).
Proof.
  split; [exact default_config_usable|].
  split; [exact (constant_client_answers VNone)|].
  exact (generated_tests_succeed quiet_runtime fixed_random default_config
           (constant_client VNone) default_config_usable
           (constant_client_answers VNone)).
Defined.

Section EdgeCaseFacts.
Context {St : Type} (rt : Runtime St) (rnd : Random St) (config : FuzzConfig).

Lemma returns_special_vector (special : pyfloat) :
  returns (special_vector rnd config special) (fun _ => True).
Proof.
  unfold special_vector.
  apply (returns_for_each (range (vector_dimension config)) _
           (fun _ _ => True) 0 []); [done|].
  intros i j items _. eapply returns_bind.
  - instantiate (1 := fun _ => True). destruct (i mod 10 =? 0)%Z.
    + by apply returns_ret.
    + eapply returns_weaken; [apply returns_uniform|done].
  - intros x _. by apply returns_ret.
Qed.

Lemma returns_edge_case_runnable :
  returns (generate_edge_case_test rnd config)
          (fun test =>
             In test.1 ["insert"; "search"; "delete"; "batch_insert"]
             /\ runnable test.1 test.2).
Proof.
  unfold generate_edge_case_test.
  eapply returns_bind; [by apply returns_choice|]. intros edge_case Hin.
  simpl in Hin.
  destruct Hin as [<-|[<-|[<-|[<-|[<-|[<-|[<-|[<-|[]]]]]]]]];
    cbn -[range list_of _generate_collection_name _generate_vector
          special_vector].
  - eapply returns_bind; [apply returns_collection_name|].
    intros collection_name [name ->]%isinstance_str_inv.
    apply returns_ret. simpl. split; [auto|].
    apply ready_runnable; [done|done|]. by eexists _, "vectors", _, name.
  - eapply returns_bind; [apply returns_list_of, returns_uniform|].
    intros vector _.
    eapply returns_bind; [apply returns_collection_name|].
    intros collection_name [name ->]%isinstance_str_inv.
    apply returns_ret. simpl. split; [auto|].
    apply ready_runnable; [done|done|]. by eexists _, "vectors", _, name.
  - eapply returns_bind; [apply returns_special_vector|]. intros vector _.
    eapply returns_bind; [apply returns_collection_name|].
    intros collection_name [name ->]%isinstance_str_inv.
    apply returns_ret. simpl. split; [auto|].
    apply ready_runnable; [done|done|]. by eexists _, "query_vector", _, name.
  - eapply returns_bind; [apply returns_special_vector|]. intros vector _.
    eapply returns_bind; [apply returns_collection_name|].
    intros collection_name [name ->]%isinstance_str_inv.
    apply returns_ret. simpl. split; [auto|].
    apply ready_runnable; [done|done|]. by eexists _, "query_vector", _, name.
  - eapply returns_bind.
    { apply returns_list_of. instantiate (1 := fun _ => True).
      eapply returns_bind; [apply returns_list_of, returns_uniform|].
      intros vector _. by apply returns_ret. }
    intros vectors _.
    generalize (map (fun i : Z => VStr ("id_" ++ pretty i)) (range 1000%Z)).
    generalize (map (fun _ : Z => VDict []) (range 1000%Z)).
    intros metadata ids.
    eapply returns_bind; [apply returns_collection_name|].
    intros collection_name [name ->]%isinstance_str_inv.
    apply returns_ret. simpl. split; [auto 10|].
    apply ready_runnable; [done|done|]. by eexists _, "vectors", _, name.
  - eapply returns_bind; [apply returns_generate_vector|]. intros vector _.
    eapply returns_bind; [apply returns_collection_name|].
    intros collection_name [name ->]%isinstance_str_inv.
    apply returns_ret. simpl. split; [auto|].
    apply ready_runnable; [done|done|]. by eexists _, "vectors", _, name.
  - eapply returns_bind; [apply returns_collection_name|].
    intros collection_name [name ->]%isinstance_str_inv.
    apply returns_ret. simpl. split; [auto|].
    apply ready_runnable; [done|done|]. by eexists _, "ids", _, name.
  - eapply returns_bind; [apply returns_generate_vector|]. intros vector _.
    apply returns_ret. simpl. split; [auto|].
    apply ready_runnable; [done|done|].
    by eexists _, "query_vector", _, "nonexistent_collection".
Qed.

(** X25. [generate_edge_case_test] always returns, whatever the
    configuration and the random numbers: an insert, search, delete or
    batch_insert (never a batch_search, a mixed_operations or the unknown
    operation) with inputs that hold the entry the operation needs and a
    collection name; so every edge-case test succeeds on every adapter that
    answers its calls, and an edge case can only fail inside an adapter. *)
Theorem edge_case_tests_ready (client : Client St) :
  returns (generate_edge_case_test rnd config)
          (fun test =>
             In test.1 ["insert"; "search"; "delete"; "batch_insert"]
             /\ ready_for test.1 test.2
             /\ (answers client ->
                 forall db_name w, exists r s,
                   _safe_execute rt db_name client test.1 test.2 w
                   = (Ok (length (objects w)),
                      mkWorld (objects w ++ [OResult r]) s)
                   /\ success r = true /\ error r = None)).
Proof.
  eapply returns_weaken; [apply returns_edge_case_runnable|].
  intros [operation inputs] [Hin Hrun]. simpl in *.
  split; [done|]. split; [apply Hrun|].
  intros Hanswers db_name w.
  destruct (safe_execute_outcome rt db_name client operation inputs w)
    as (outcome & s1 & Hexec & Hsafe).
  assert (Hop : In operation operations).
  { unfold operations. simpl in *. tauto. }
  destruct (execute_operation_returns client operation inputs Hanswers Hop Hrun
              (mkWorld (objects w) (time_time rt (outside w)).2))
    as (payload & w1 & Hok & _).
  rewrite Hok in Hexec. injection Hexec as <- _.
  eexists _, _. split; [exact Hsafe|]. done.
Qed.
End EdgeCaseFacts.
